(** * PyFluss: a shallow embedding of the Python client of Apache Fluss

    The development follows the Python sources of the package:
    - [pyfluss/py4j/util/java_utils.py]   remote-to-local type inference,
    - [pyfluss/connection.py]             connection life cycle, retry wrapper,
                                          administrative calls, type mapping,
    - [pyfluss/api/schema.py]             primary keys carried in schema metadata,
    - [pyfluss/py4j/java_implementation.py] worker-count admission,
    - [pyfluss/writer.py], [pyfluss/reader.py] data writer and reader handles,
    - [pyfluss/api/admin.py]              the admin wrapper,
    - [pyfluss/api/metadata.py]           database descriptors and table paths,
    - [pyfluss/api/fluss_table_read.py]   reading through the table-read interface.

    Conventions of the embedding.
    - A Python [str] is a Rocq [string]: the sequence of the bytes of its
      UTF-8 encoding.  [encode('utf-8')] and [decode('utf-8')] are therefore
      the identity on the representation.  The functions of Python that
      follow the Unicode character tables ([upper], [strip], [int], [repr],
      the classes of regular expressions) are a parameter, the class
      [Unicode], fixed on ASCII strings by the functions of [PyStr].
    - Everything that lives on the other side of the Py4J bridge (and the
      gateway subprocess) is reached through one oracle [remote], a function
      of the call and of an abstract world state; it may answer or raise.
      A loop over a remote object runs for a given number of rounds at
      most, and says so when it has not ended by then.
    - Exceptions are the instances of Python's [Exception] class, the class
      the handlers of the sources catch.  The string form of a remote
      exception ([Py4JJavaError]) is fetched through the bridge.
    - A call to [logger] leaves no event, except the warning of the retry
      wrapper, which records each failed attempt; what is kept of every
      such call is the evaluation of its message, since formatting an
      exception or a remote object can fail. *)

From Stdlib Require Import ZArith List Ascii String Bool Lia.
From stdpp Require Import base option list strings gmap pretty.

Local Open Scope string_scope.
Local Open Scope Z_scope.

(** ** Python strings *)

Module PyStr.

Definition lower_ascii (c : ascii) : ascii :=
  let n := nat_of_ascii c in
  if ((65 <=? n) && (n <=? 90))%nat then ascii_of_nat (n + 32) else c.

Definition upper_ascii (c : ascii) : ascii :=
  let n := nat_of_ascii c in
  if ((97 <=? n) && (n <=? 122))%nat then ascii_of_nat (n - 32) else c.

Fixpoint map_chars (f : ascii -> ascii) (s : string) : string :=
  match s with
  | EmptyString => EmptyString
  | String c s' => String (f c) (map_chars f s')
  end.

(** [s.lower()] and [s.upper()] *)
Definition lower : string -> string := map_chars lower_ascii.
Definition upper : string -> string := map_chars upper_ascii.

(** [s.startswith(p)] *)
Definition startswith (s p : string) : bool := String.prefix p s.

(** [sub in s] *)
Fixpoint contains (sub s : string) : bool :=
  String.prefix sub s ||
  match s with
  | EmptyString => false
  | String _ s' => contains sub s'
  end.

(** [x in [a, b, ...]] on strings *)
Definition in_list (x : string) (l : list string) : bool :=
  existsb (String.eqb x) l.

(** [s.split(c)] for a separator of one character: never the empty list *)
Fixpoint split (c : ascii) (s : string) : list string :=
  match s with
  | EmptyString => [EmptyString]
  | String a s' =>
      if Ascii.eqb a c then EmptyString :: split c s'
      else match split c s' with
           | [] => [String a EmptyString]
           | p :: ps => String a p :: ps
           end
  end.

(** [sep.join(l)] *)
Definition join (sep : string) (l : list string) : string :=
  String.concat sep l.

(** the character [c] occurs in [s] *)
Fixpoint has_char (c : ascii) (s : string) : bool :=
  match s with
  | EmptyString => false
  | String a s' => Ascii.eqb a c || has_char c s'
  end.

(** truth value of a string: non-empty *)
Definition truthy (s : string) : bool :=
  match s with EmptyString => false | _ => true end.

Definition is_digit (c : ascii) : bool :=
  let n := nat_of_ascii c in ((48 <=? n) && (n <=? 57))%nat.

(** white space, on the ASCII range: space, tab to carriage return, and the
    four separators 28 to 31 *)
Definition is_space (c : ascii) : bool :=
  let n := nat_of_ascii c in
  ((n =? 32) || ((9 <=? n) && (n <=? 13)) || ((28 <=? n) && (n <=? 31)))%nat.

(** longest prefix of characters satisfying [p], and the rest *)
Fixpoint span (p : ascii -> bool) (s : string) : string * string :=
  match s with
  | EmptyString => (EmptyString, EmptyString)
  | String c s' =>
      if p c then let '(a, b) := span p s' in (String c a, b)
      else (EmptyString, s)
  end.

(** [s] without the prefix [p], when it has it *)
Fixpoint strip_prefix (p s : string) : option string :=
  match p, s with
  | EmptyString, _ => Some s
  | String a p', String b s' =>
      if Ascii.eqb a b then strip_prefix p' s' else None
  | String _ _, EmptyString => None
  end.

(** [int(ds)] for a string of decimal digits *)
Definition digits_to_Z (ds : string) : Z :=
  fold_left (fun acc c => 10 * acc + (Z.of_nat (nat_of_ascii c) - 48))
            (list_ascii_of_string ds) 0.

(** every byte is an ASCII character: the string has no character beyond
    U+007F *)
Definition is_ascii (s : string) : bool :=
  forallb (fun c => (nat_of_ascii c <? 128)%nat) (list_ascii_of_string s).

Fixpoint drop_while (p : ascii -> bool) (l : list ascii) : list ascii :=
  match l with
  | c :: l' => if p c then drop_while p l' else l
  | [] => []
  end.

(** [l] without the characters of class [p] at its two ends *)
Definition trim (p : ascii -> bool) (s : string) : string :=
  let l := drop_while p (list_ascii_of_string s) in
  string_of_list_ascii (rev (drop_while p (rev l))).

(** [s.strip()] for an ASCII string *)
Definition strip : string -> string := trim is_space.

(** the white space [int()] skips around an ASCII literal: space and tab to
    carriage return, not the separators 28 to 31 *)
Definition is_int_space (c : ascii) : bool :=
  let n := nat_of_ascii c in
  ((n =? 32) || ((9 <=? n) && (n <=? 13)))%nat.

(** digits with single underscores between them: the digits, or nothing *)
Fixpoint literal_digits (after_digit : bool) (l : list ascii)
  : option (list ascii) :=
  match l with
  | [] => if after_digit then Some [] else None
  | c :: l' =>
      if is_digit c then
        match literal_digits true l' with
        | Some ds => Some (c :: ds)
        | None => None
        end
      else if Ascii.eqb c "_" && after_digit then literal_digits false l'
      else None
  end.

(** [int(s)] for an ASCII string, base 10; [None] stands for the
    [ValueError] *)
Definition int_of_string (s : string) : option Z :=
  let body := list_ascii_of_string (trim is_int_space s) in
  let '(negative, body) :=
    match body with
    | "-"%char :: b => (true, b)
    | "+"%char :: b => (false, b)
    | _ => (false, body)
    end in
  match literal_digits false body with
  | Some ds =>
      let n := digits_to_Z (string_of_list_ascii ds) in
      Some (if negative then - n else n)
  | None => None
  end.

(** printable ASCII characters other than the quote and the backslash:
    [repr] puts a string of these between quotes and changes nothing *)
Definition is_plain (c : ascii) : bool :=
  let n := nat_of_ascii c in
  ((32 <=? n) && (n <=? 126) && negb (n =? 39) && negb (n =? 92))%nat.

Definition plain (s : string) : bool :=
  forallb is_plain (list_ascii_of_string s).

(** a byte that continues a character of several bytes *)
Definition is_continuation (c : ascii) : bool :=
  let n := nat_of_ascii c in ((128 <=? n) && (n <=? 191))%nat.

(** the characters of a string, what [for c in s] yields: every byte that
    starts a character, with the continuation bytes that follow it *)
Definition head_continues (s : string) : bool :=
  match s with
  | String c _ => is_continuation c
  | EmptyString => false
  end.

Fixpoint chars (s : string) : list string :=
  match s with
  | EmptyString => []
  | String c s' =>
      match chars s' with
      | first :: others =>
          if head_continues s' then String c first :: others
          else String c EmptyString :: first :: others
      | [] => [String c EmptyString]
      end
  end.

End PyStr.

(** ** Remote-to-local type inference ([java_utils.py]) *)

Inductive ArrowType : Type :=
| pa_int32
| pa_int64
| pa_string
| pa_float64
| pa_float32
| pa_bool
| pa_timestamp (unit : string)
| pa_date32
| pa_decimal128 (precision scale : Z)
| pa_binary.

(** [_java_type_to_arrow_type(j_data_type)]; the argument is
    [str(j_data_type)], the string form of the remote data type. *)
Definition _java_type_to_arrow_type (j_data_type : string) : ArrowType :=
  let type_str := PyStr.lower j_data_type in
  if PyStr.contains "int" type_str then pa_int32
  else if PyStr.contains "bigint" type_str then pa_int64
  else if PyStr.contains "string" type_str || PyStr.contains "varchar" type_str
       then pa_string
  else if PyStr.contains "double" type_str then pa_float64
  else if PyStr.contains "float" type_str then pa_float32
  else if PyStr.contains "boolean" type_str then pa_bool
  else if PyStr.contains "timestamp" type_str then pa_timestamp "us"
  else if PyStr.contains "date" type_str then pa_date32
  else if PyStr.contains "decimal" type_str then pa_decimal128 38 18
  else if PyStr.contains "bytes" type_str || PyStr.contains "binary" type_str
       then pa_binary
  else pa_string.

(** ** Local-to-remote type mapping ([connection.py]) *)

(** The constructor of [com.alibaba.fluss.types.DataTypes] that the mapping
    invokes, with its arguments. *)
Inductive FlussDataType : Type :=
| DT_STRING
| DT_BIGINT
| DT_INT
| DT_DOUBLE
| DT_FLOAT
| DT_BOOLEAN
| DT_TIMESTAMP (precision : Z)
| DT_DECIMAL (precision scale : Z).

(** [re.match(r'DECIMAL\((\d+),?\s*(\d+)?\)', col_type)] for an ASCII
    string: the two groups, the second one optional.  Each greedy
    repetition is followed by a character outside its class, so no
    backtracking changes the result. *)
Definition decimal_match (col_type : string) : option (string * option string) :=
  match PyStr.strip_prefix "DECIMAL(" col_type with
  | None => None
  | Some r =>
      let '(g1, r1) := PyStr.span PyStr.is_digit r in
      if negb (PyStr.truthy g1) then None
      else
        let r2 := match r1 with
                  | String "," r' => r'
                  | _ => r1
                  end in
        let '(_, r3) := PyStr.span PyStr.is_space r2 in
        let '(g2, r4) := PyStr.span PyStr.is_digit r3 in
        match r4 with
        | String ")" _ => Some (g1, if PyStr.truthy g2 then Some g2 else None)
        | _ => None
        end
  end.

(** ** The string functions of Python, beyond ASCII

    A Python string is a sequence of Unicode characters, and [upper()],
    [strip()], [int()], [repr()] and the classes [\d] and [\s] of a regular
    expression follow the Unicode character tables.  The tables are a
    parameter of the development.  What the sources need of them is fixed
    by their behaviour on ASCII strings, which the functions of [PyStr]
    compute; beyond ASCII only what holds of every table is used. *)
Class Unicode : Type := {
  (** [s.upper()] *)
  str_upper : string -> string;
  (** [s.strip()] *)
  str_strip : string -> string;
  (** [repr(s)] *)
  str_repr : string -> string;
  (** [int(s)]: the value, or the message of the [ValueError] *)
  str_int : string -> Z + string;
  (** [re.match(r'DECIMAL\((\d+),?\s*(\d+)?\)', s)]: group 1 and, when it
      takes part in the match, group 2; [None] when the string does not
      match *)
  decimal_groups : string -> option (string * option string);

  (** upper-casing works character by character: an ASCII prefix is
      upper-cased on its own *)
  str_upper_ascii :
    forall a b, PyStr.is_ascii a = true ->
                str_upper (a ++ b) = PyStr.upper a ++ str_upper b;
  str_upper_empty : str_upper "" = "";
  str_strip_ascii :
    forall s, PyStr.is_ascii s = true -> str_strip s = PyStr.strip s;
  str_repr_plain :
    forall s, PyStr.plain s = true -> str_repr s = "'" ++ s ++ "'";
  (** [int()] of an ASCII string, below the length at which the
      interpreter starts to refuse long literals *)
  str_int_ascii :
    forall s, PyStr.is_ascii s = true -> (String.length s <= 4300)%nat ->
              match str_int s with
              | inl z => PyStr.int_of_string s = Some z
              | inr _ => PyStr.int_of_string s = None
              end;
  (** the message of the refusal shows the literal, up to 200 characters
      of it *)
  str_int_message :
    forall s msg, PyStr.plain s = true -> (String.length s <= 198)%nat ->
                  str_int s = inr msg ->
                  msg = "invalid literal for int() with base 10: '" ++ s ++ "'";
  decimal_groups_ascii :
    forall s, PyStr.is_ascii s = true -> decimal_groups s = decimal_match s;
  (** a match starts with the literal text of the pattern *)
  decimal_groups_prefix :
    forall s g, decimal_groups s = Some g -> String.prefix "DECIMAL(" s = true
}.

Lemma upper_app (a b : string) :
  PyStr.upper (a ++ b) = PyStr.upper a ++ PyStr.upper b.
Proof.
  unfold PyStr.upper. induction a as [|c a IH]; [reflexivity|].
  change (String c a ++ b) with (String c (a ++ b)).
  cbn [PyStr.map_chars]. rewrite IH. reflexivity.
Qed.

Lemma strip_prefix_is_prefix (p s r : string) :
  PyStr.strip_prefix p s = Some r -> String.prefix p s = true.
Proof.
  revert s. induction p as [|a p IH]; intros s.
  - intros _. now destruct s.
  - destruct s as [|b s]; cbn [PyStr.strip_prefix]; [discriminate|].
    destruct (Ascii.eqb a b) eqn:Hab; [|discriminate].
    apply Ascii.eqb_eq in Hab. subst b. intros Hs. simpl.
    destruct (ascii_dec a a); [now apply IH | congruence].
Qed.

Lemma decimal_match_prefix (s : string) (g : string * option string) :
  decimal_match s = Some g -> String.prefix "DECIMAL(" s = true.
Proof.
  unfold decimal_match.
  destruct (PyStr.strip_prefix "DECIMAL(" s) as [r|] eqn:Hr; [|discriminate].
  intros _. exact (strip_prefix_is_prefix _ _ _ Hr).
Qed.

Definition ascii_int (s : string) : Z + string :=
  match PyStr.int_of_string s with
  | Some z => inl z
  | None => inr ("invalid literal for int() with base 10: '" ++ s ++ "'")
  end.

Lemma ascii_int_value (s : string) :
  match ascii_int s with
  | inl z => PyStr.int_of_string s = Some z
  | inr _ => PyStr.int_of_string s = None
  end.
Proof. unfold ascii_int. now destruct (PyStr.int_of_string s). Qed.

Lemma ascii_int_message (s msg : string) :
  ascii_int s = inr msg ->
  msg = "invalid literal for int() with base 10: '" ++ s ++ "'".
Proof.
  unfold ascii_int. destruct (PyStr.int_of_string s); [discriminate|].
  now intros [= <-].
Qed.

(** The tables that know the ASCII characters only, every other character
    being a letter without case, no digit and no white space, and [repr]
    putting the string between quotes as it is: the examples use them, on
    strings of letters, digits and spaces, where they are those of Python. *)
Definition ascii_unicode : Unicode := {|
  str_upper := PyStr.upper;
  str_strip := PyStr.strip;
  str_repr := fun s => "'" ++ s ++ "'";
  str_int := ascii_int;
  decimal_groups := decimal_match;
  str_upper_ascii := fun a b _ => upper_app a b;
  str_upper_empty := eq_refl;
  str_strip_ascii := fun s _ => eq_refl;
  str_repr_plain := fun s _ => eq_refl;
  str_int_ascii := fun s _ _ => ascii_int_value s;
  str_int_message := fun s msg _ _ => ascii_int_message s msg;
  decimal_groups_ascii := fun s _ => eq_refl;
  decimal_groups_prefix := decimal_match_prefix
|}.


(** ** Python values, exceptions and the bridge *)

Inductive ExcClass : Type :=
| ValueError
| RuntimeError
| ConnectionError
| TimeoutError
| AttributeError
| TypeError
| IndexError
| Py4JJavaError
| Py4JNetworkError
| TimeoutExpired
| OverflowError
| StopIteration
| OtherError.

(** An exception instance.  [exc_msg] is the message it was made with: for
    the exceptions of Python that is what [str(e)] gives; a
    [Py4JJavaError] holds a reference to the remote exception, and its
    [str(e)] asks the bridge for the text of that ([exc_str] below). *)
Record PyExc : Type := mkExc { exc_class : ExcClass; exc_msg : string }.

Inductive Outcome (A : Type) : Type :=
| Ok (a : A)
| Raise (e : PyExc).
Arguments Ok {A} a.
Arguments Raise {A} e.

(** [int(s)] on a string *)
Definition int_of_str `{Unicode} (s : string) : Outcome Z :=
  match str_int s with
  | inl z => Ok z
  | inr msg => Raise (mkExc ValueError msg)
  end.

(** [FlussConnection._map_type_to_fluss_datatype(col_type)]: the
    constructor it invokes, or the exception of [int()] on a group of the
    match *)
Definition _map_type_to_fluss_datatype `{Unicode} (col_type : string)
  : Outcome FlussDataType :=
  let col_type := str_upper col_type in
  if PyStr.in_list col_type ["STRING"; "VARCHAR"] then Ok DT_STRING
  else if PyStr.in_list col_type ["INT64"; "BIGINT"; "LONG"] then Ok DT_BIGINT
  else if PyStr.in_list col_type ["INT32"; "INT"; "INTEGER"] then Ok DT_INT
  else if PyStr.in_list col_type ["FLOAT64"; "DOUBLE"; "FLOAT"] then Ok DT_DOUBLE
  else if PyStr.in_list col_type ["FLOAT32"] then Ok DT_FLOAT
  else if PyStr.in_list col_type ["BOOL"; "BOOLEAN"] then Ok DT_BOOLEAN
  else if PyStr.startswith col_type "TIMESTAMP" then Ok (DT_TIMESTAMP 3)
  else if PyStr.startswith col_type "DECIMAL" then
    match decimal_groups col_type with
    | Some (group1, group2) =>
        match int_of_str group1 with
        | Raise e => Raise e
        | Ok precision =>
            match group2 with
            | Some g =>
                match int_of_str g with
                | Raise e => Raise e
                | Ok scale => Ok (DT_DECIMAL precision scale)
                end
            | None => Ok (DT_DECIMAL precision 0)
            end
        end
    | None => Ok (DT_DECIMAL 10 2)
    end
  else Ok DT_STRING.

(** The type tags the mapping recognises, on the upper-cased tag. *)
Definition recognized_tag (tag : string) : bool :=
  PyStr.in_list tag
    ["STRING"; "VARCHAR"; "INT64"; "BIGINT"; "LONG"; "INT32"; "INT"; "INTEGER";
     "FLOAT64"; "DOUBLE"; "FLOAT"; "FLOAT32"; "BOOL"; "BOOLEAN"]
  || PyStr.startswith tag "TIMESTAMP"
  || PyStr.startswith tag "DECIMAL".

(** A float is seen through the two observations the sources make of it:
    its [str()] form and its [int()] truncation ([None] for nan and the
    infinities). *)
Record PyFloat : Type := mkFloat { float_repr : string; float_trunc : option Z }.

Inductive PyVal : Type :=
| PNone
| PBool (b : bool)
| PInt (z : Z)
| PFloat (f : PyFloat)
| PStr (s : string)
| PObj (ref : nat).   (* a handle: Py4J object or class, gateway, subprocess *)

Record RemoteCall : Type := mkCall {
  rc_target : PyVal;
  rc_method : string;
  rc_args : list PyVal
}.

(** What a run leaves behind: the calls through the bridge, the sleeps, and,
    in the retry wrapper, each invocation of the operation function and the
    warning logged for each failed attempt. *)
Inductive Event : Type :=
| ECall (c : RemoteCall)
| ESleep (seconds : Z)
| EInvoke
| EAttemptFailed (attempt : Z) (e : PyExc).

(** What the client cannot see into: the gateway, the JVM behind it and the
    subprocess.  [remote] answers a call in a world and moves the world;
    [java_list v] gives the elements of [v] when it is a remote list. *)
Class Bridge : Type := {
  World : Type;
  remote : RemoteCall -> World -> Outcome PyVal * World;
  java_list : PyVal -> option (list PyVal)
}.

(** [bool(v)] for the values held in handle fields: an object handle is
    truthy. *)
Definition truthy (v : PyVal) : bool :=
  match v with
  | PNone => false
  | PBool b => b
  | PInt z => negb (z =? 0)
  | PFloat f => negb (PyStr.in_list (float_repr f) ["0.0"; "-0.0"])
  | PStr s => PyStr.truthy s
  | PObj _ => true
  end.

(** [v is None] *)
Definition is_None (v : PyVal) : bool :=
  match v with PNone => true | _ => false end.

(** [hasattr(v, name)] for a method name of the remote API: a Py4J object
    answers every attribute, the builtin values have none of these. *)
Definition hasattr (v : PyVal) (name : string) : bool :=
  match v with PObj _ => true | _ => false end.

(** ** The monad of the methods: object state, world and trace *)

Record Env `{Bridge} (Self : Type) : Type := mkEnv {
  self : Self;
  world : World;
  trace : list Event
}.
Arguments mkEnv {_ Self} _ _ _.
Arguments self {_ Self} _.
Arguments world {_ Self} _.
Arguments trace {_ Self} _.

Definition M `{Bridge} (Self A : Type) : Type :=
  Env Self -> Outcome A * Env Self.

Section Monad.
Context `{Bridge} {Self : Type}.

Definition ret {A} (a : A) : M Self A := fun env => (Ok a, env).

Definition bind {A B} (m : M Self A) (k : A -> M Self B) : M Self B :=
  fun env =>
    match m env with
    | (Ok a, env') => k a env'
    | (Raise e, env') => (Raise e, env')
    end.

Definition raise {A} (e : PyExc) : M Self A := fun env => (Raise e, env).

Definition get_self : M Self Self := fun env => (Ok (self env), env).

Definition modify (f : Self -> Self) : M Self unit :=
  fun env => (Ok tt, mkEnv (f (self env)) (world env) (trace env)).

(** one call through the bridge *)
Definition call (c : RemoteCall) : M Self PyVal :=
  fun env =>
    let '(r, w) := remote c (world env) in
    (r, mkEnv (self env) w (trace env ++ [ECall c])).

(** one more event on the trace *)
Definition emit (ev : Event) : M Self unit :=
  fun env => (Ok tt, mkEnv (self env) (world env) (trace env ++ [ev])).

(** [time.sleep(seconds)] *)
Definition sleep (seconds : Z) : M Self unit := emit (ESleep seconds).

(** the outcome of [m] as a value: the body of a [try] *)
Definition reify {A} (m : M Self A) : M Self (Outcome A) :=
  fun env => let '(r, env') := m env in (Ok r, env').

(** [try: m  except Exception as e: h e] *)
Definition try_except {A} (m : M Self A) (h : PyExc -> M Self A) : M Self A :=
  bind (reify m) (fun r => match r with Ok a => ret a | Raise e => h e end).

Definition lift {A} (r : Outcome A) : M Self A := fun env => (r, env).

(** [target.name(args)]: only an object handle has remote methods *)
Definition method_call (target : PyVal) (name : string) (args : list PyVal)
  : M Self PyVal :=
  match target with
  | PObj _ => call (mkCall target name args)
  | _ => raise (mkExc AttributeError ("object has no attribute '" ++ name ++ "'"))
  end.

End Monad.

Declare Scope py_scope.
Delimit Scope py_scope with py.
Notation "x <- m ;; k" := (bind m (fun x => k))
  (at level 100, m at next level, right associativity) : py_scope.
Notation "m ;; k" := (bind m (fun _ => k))
  (at level 100, right associativity) : py_scope.
Open Scope py_scope.

(** [range(n)] *)
Definition py_range (n : Z) : list Z := map Z.of_nat (seq 0 (Z.to_nat n)).

Section Builtins.
Context `{Bridge} {Self : Type}.

(** [str(v)]; for an object handle it is the remote [toString()] *)
Definition py_str (v : PyVal) : M Self string :=
  match v with
  | PNone => ret "None"
  | PBool true => ret "True"
  | PBool false => ret "False"
  | PInt z => ret (pretty z)
  | PFloat f => ret (float_repr f)
  | PStr s => ret s
  | PObj _ =>
      r <- call (mkCall v "toString" []) ;;
      match r with
      | PStr s => ret s
      | _ => raise (mkExc TypeError "__str__ returned non-string")
      end
  end.

(** [get_gateway()] of [pyfluss/py4j/java_gateway.py]: the process-wide
    gateway, launched on first use. *)
Definition get_gateway : M Self PyVal := call (mkCall PNone "get_gateway" []).

(** the name under which the bridge is asked for the text of a remote
    exception *)
Definition JAVA_ERROR_TEXT : string := "Py4JJavaError.__str__".

(** [str(e)], also what [f"{e}"] evaluates.  For a [Py4JJavaError] it is
    one more call through the bridge, which can fail like any other; the
    text is the message followed by the answer. *)
Definition exc_str (e : PyExc) : M Self string :=
  match exc_class e with
  | Py4JJavaError =>
      r <- call (mkCall PNone JAVA_ERROR_TEXT [PStr (exc_msg e)]) ;;
      s <- py_str r ;;
      ret (exc_msg e ++ ": " ++ s)
  | _ => ret (exc_msg e)
  end.

(** [while iterator.hasNext(): result.append(str(iterator.next()))], for
    [fuel] rounds at most; [None] when the loop is still running then *)
Fixpoint iterator_walk (fuel : nat) (iterator : PyVal) (result : list string)
  : M Self (option (list string)) :=
  match fuel with
  | O => ret None
  | S fuel' =>
      more <- method_call iterator "hasNext" [] ;;
      if truthy more
      then x <- method_call iterator "next" [] ;;
           s <- py_str x ;;
           iterator_walk fuel' iterator (result ++ [s])%list
      else ret (Some result)
  end.

(** [[str(x) for x in v]] on the iterator of [v]: [__next__] until it
    raises [StopIteration], for [fuel] rounds at most *)
Fixpoint direct_iteration (fuel : nat) (it : PyVal) (result : list string)
  : M Self (option (list string)) :=
  match fuel with
  | O => ret None
  | S fuel' =>
      r <- reify (method_call it "__next__" []) ;;
      match r with
      | Ok x =>
          s <- py_str x ;;
          direct_iteration fuel' it (result ++ [s])%list
      | Raise e =>
          match exc_class e with
          | StopIteration => ret (Some result)
          | _ => raise e
          end
      end
  end.

(** the first [try] of the conversion: lines 406 to 408 *)
Definition walk (fuel : nat) (v : PyVal) : M Self (option (list string)) :=
  iterator <- method_call v "iterator" [] ;;
  iterator_walk fuel iterator [].

(** [[str(x) for x in v]]: a remote object is iterated through the bridge,
    a string gives its characters, no other value is iterable *)
Definition comprehension (fuel : nat) (v : PyVal)
  : M Self (option (list string)) :=
  match v with
  | PObj _ =>
      it <- method_call v "__iter__" [] ;;
      direct_iteration fuel it []
  | PStr s => ret (Some (PyStr.chars s))
  | _ => raise (mkExc TypeError "object is not iterable")
  end.

(** the conversion of a remote collection to a list of strings: the
    iterator walk; when that raises, direct iteration; when that raises
    too, the empty list *)
Definition collection_to_list (fuel : nat) (v : PyVal)
  : M Self (option (list string)) :=
  try_except
    (walk fuel v)
    (fun _ => try_except (comprehension fuel v) (fun _ => ret (Some []))).

End Builtins.

(** ** The data writer ([writer.py]) *)

Module Writer.

Record FlussDataWriter : Type := mkWriter {
  _java_writer : PyVal;
  _gateway : PyVal;
  _is_closed : bool
}.

(** a row: a dict in insertion order *)
Definition Row : Type := list (string * PyVal).

Inductive Op : Type :=
| OpWriteRow (data : Row)
| OpWriteRows (data_list : list Row)
| OpFlush
| OpClose
| OpExit.          (* [__exit__] of the context manager *)

(** the operations that move data, as opposed to closing *)
Definition is_data_op (op : Op) : bool :=
  match op with
  | OpWriteRow _ | OpWriteRows _ | OpFlush => true
  | OpClose | OpExit => false
  end.

Definition closed_error : PyExc := mkExc RuntimeError "Writer has been closed".

Section Methods.
Context `{Bridge}.
Local Abbreviation MW := (M FlussDataWriter).

Definition _check_not_closed : MW unit :=
  w <- get_self ;;
  if _is_closed w then raise closed_error else ret tt.

(** the value stored at one position of the Java row *)
Definition box (gateway value : PyVal) : MW PyVal :=
  match value with
  | PInt _ | PBool _ => method_call gateway "jvm.java.lang.Long" [value]
  | PFloat _ => method_call gateway "jvm.java.lang.Double" [value]
  | _ => s <- py_str value ;; ret (PStr s)
  end.

(** [for i, value in enumerate(values): java_row[i] = ...] *)
Fixpoint fill_row (gateway java_row : PyVal) (i : Z) (values : list PyVal)
  : MW unit :=
  match values with
  | [] => ret tt
  | value :: rest =>
      b <- box gateway value ;;
      method_call java_row "__setitem__" [PInt i; b] ;;
      fill_row gateway java_row (i + 1) rest
  end.

Definition to_java_row (data : Row) : MW PyVal :=
  let values := map snd data in
  w <- get_self ;;
  object_class <- method_call (_gateway w) "jvm.java.lang.Object" [] ;;
  java_row <- method_call (_gateway w) "new_array"
                [object_class; PInt (Z.of_nat (length values))] ;;
  fill_row (_gateway w) java_row 0 values ;;
  ret java_row.

(** [write_count > 0] *)
Definition gt_zero (v : PyVal) : Outcome bool :=
  match v with
  | PInt z => Ok (0 <? z)
  | PBool b => Ok b
  | PFloat f => Ok (truthy v
                    && negb (PyStr.startswith (float_repr f) "-")
                    && negb (String.eqb (float_repr f) "nan"))
  | _ => Raise (mkExc TypeError "'>' not supported")
  end.

Definition write_row (data : Row) : MW bool :=
  _check_not_closed ;;
  try_except
    (java_row <- to_java_row data ;;
     w <- get_self ;;
     data_list <- method_call (_gateway w) "jvm.java.util.ArrayList" [] ;;
     method_call data_list "add" [java_row] ;;
     write_count <- method_call (_java_writer w) "writeDataWithUpsert" [data_list] ;;
     lift (gt_zero write_count))
    (fun e => exc_str e ;; ret false).

Fixpoint add_rows (java_data_list : PyVal) (data_list : list Row) : MW unit :=
  match data_list with
  | [] => ret tt
  | row_data :: rest =>
      java_row <- to_java_row row_data ;;
      method_call java_data_list "add" [java_row] ;;
      add_rows java_data_list rest
  end.

Definition write_rows (data_list : list Row) : MW PyVal :=
  _check_not_closed ;;
  try_except
    (w <- get_self ;;
     java_data_list <- method_call (_gateway w) "jvm.java.util.ArrayList" [] ;;
     add_rows java_data_list data_list ;;
     write_count <- method_call (_java_writer w) "writeDataWithUpsert"
                      [java_data_list] ;;
     py_str write_count ;;           (* the count in the log line *)
     ret write_count)
    (fun e => exc_str e ;; ret (PInt 0)).

Definition flush : MW unit := _check_not_closed.

Definition close : MW unit :=
  w <- get_self ;;
  if negb (_is_closed w)
  then try_except
         (modify (fun w => mkWriter (_java_writer w) (_gateway w) true))
         (fun _ => ret tt)
  else ret tt.

Definition __exit__ : MW unit := close.

(** one operation of a client on the writer; the result as a value *)
Definition run_op (op : Op) : MW PyVal :=
  match op with
  | OpWriteRow data => b <- write_row data ;; ret (PBool b)
  | OpWriteRows data_list => write_rows data_list
  | OpFlush => flush ;; ret PNone
  | OpClose => close ;; ret PNone
  | OpExit => __exit__ ;; ret PNone
  end.

(** a client program: the operations one after the other, each outcome
    recorded, an exception not stopping the next call *)
Fixpoint run_ops (ops : list Op) (env : Env FlussDataWriter)
  : list (Outcome PyVal) * Env FlussDataWriter :=
  match ops with
  | [] => ([], env)
  | op :: rest =>
      let '(r, env') := run_op op env in
      let '(rs, env'') := run_ops rest env' in
      (r :: rs, env'')
  end.

End Methods.
End Writer.

(** ** The data reader ([reader.py]) *)

Module Reader.

Record FlussDataReader : Type := mkReader {
  _java_reader : PyVal;
  _gateway : PyVal;
  _is_closed : bool
}.

(** what [_convert_java_result] returns: the remote [toDict()] value, or
    the fallback dict [{"raw_result": str(java_result)}] *)
Inductive Row : Type :=
| RowRemote (v : PyVal)
| RowRaw (raw_result : string).

Inductive Op : Type :=
| OpReadRow
| OpReadRows (limit : Z)
| OpReadAll (fuel : nat)
| OpClose
| OpExit.

Definition is_data_op (op : Op) : bool :=
  match op with
  | OpReadRow | OpReadRows _ | OpReadAll _ => true
  | OpClose | OpExit => false
  end.

Inductive Result : Type :=
| RNone
| RRow (r : Row)
| RRows (rs : list Row)
| RUnfinished.     (* [read_all] still looping when the fuel ran out *)

Definition closed_error : PyExc := mkExc RuntimeError "Reader has been closed".

Section Methods.
Context `{Bridge}.
Local Abbreviation MR := (M FlussDataReader).

Definition _check_not_closed : MR unit :=
  r <- get_self ;;
  if _is_closed r then raise closed_error else ret tt.

(** [_convert_java_result]: an object handle answers [toDict]; a builtin
    value has neither [toDict] nor [toString] and takes the fallback.
    (The [toString] branch of the source needs a value with [toString]
    and without [toDict], which [hasattr] never yields.) *)
Definition _convert_java_result (java_result : PyVal) : MR Row :=
  if hasattr java_result "toDict"
  then d <- method_call java_result "toDict" [] ;; ret (RowRemote d)
  else s <- py_str java_result ;; ret (RowRaw s).

(** [if row:] on a converted row *)
Definition row_truthy (row : Row) : bool :=
  match row with
  | RowRaw _ => true
  | RowRemote v => match java_list v with
                   | Some [] => false
                   | _ => truthy v
                   end
  end.

Definition read_row : MR (option Row) :=
  _check_not_closed ;;
  try_except
    (r <- get_self ;;
     batch_data <- method_call (_java_reader r) "readBatchData" [PInt 1] ;;
     match java_list batch_data with
     | Some (first :: _) =>
         row <- _convert_java_result first ;;
         ret (match row with
              | RowRemote PNone => None      (* [toDict()] gave [None] *)
              | _ => Some row
              end)
     | _ => ret None
     end)
    (fun e => exc_str e ;; ret None).

Fixpoint convert_rows (batch : list PyVal) : MR (list Row) :=
  match batch with
  | [] => ret []
  | java_row :: rest =>
      row <- _convert_java_result java_row ;;
      rows <- convert_rows rest ;;
      ret (if row_truthy row then row :: rows else rows)
  end.

Definition read_rows (limit : Z) : MR (list Row) :=
  _check_not_closed ;;
  try_except
    (r <- get_self ;;
     batch_data <- method_call (_java_reader r) "readBatchData" [PInt limit] ;;
     match java_list batch_data with
     | Some batch => convert_rows batch
     | None =>
         if truthy batch_data
         then raise (mkExc TypeError "object is not iterable")
         else ret []
     end)
    (fun e => exc_str e ;; ret []).

(** the [while True] loop of [read_all], bounded by [fuel] *)
Fixpoint read_all_loop (fuel : nat) (rows : list Row) : MR Result :=
  match fuel with
  | O => ret RUnfinished
  | S fuel' =>
      row <- read_row ;;
      match row with
      | None => ret (RRows rows)
      | Some r => read_all_loop fuel' (rows ++ [r])
      end
  end.

Definition read_all (fuel : nat) : MR Result :=
  _check_not_closed ;;
  read_all_loop fuel [].

Definition close : MR unit :=
  r <- get_self ;;
  if negb (_is_closed r)
  then try_except
         (modify (fun r => mkReader (_java_reader r) (_gateway r) true))
         (fun _ => ret tt)
  else ret tt.

Definition __exit__ : MR unit := close.

Definition run_op (op : Op) : MR Result :=
  match op with
  | OpReadRow =>
      row <- read_row ;;
      ret (match row with Some r => RRow r | None => RNone end)
  | OpReadRows limit => rows <- read_rows limit ;; ret (RRows rows)
  | OpReadAll fuel => read_all fuel
  | OpClose => close ;; ret RNone
  | OpExit => __exit__ ;; ret RNone
  end.

Fixpoint run_ops (ops : list Op) (env : Env FlussDataReader)
  : list (Outcome Result) * Env FlussDataReader :=
  match ops with
  | [] => ([], env)
  | op :: rest =>
      let '(r, env') := run_op op env in
      let '(rs, env'') := run_ops rest env' in
      (r :: rs, env'')
  end.

End Methods.
End Reader.

(** ** The connection ([connection.py]) *)

Record FlussConnection : Type := mkConn {
  server_address : string;
  _gateway : PyVal;
  _java_process : PyVal;
  _java_app : PyVal;
  _java_connection : PyVal;
  _is_connected : bool
}.

Definition set_gateway (v : PyVal) (c : FlussConnection) : FlussConnection :=
  mkConn (server_address c) v (_java_process c) (_java_app c)
         (_java_connection c) (_is_connected c).
Definition set_java_process (v : PyVal) (c : FlussConnection) : FlussConnection :=
  mkConn (server_address c) (_gateway c) v (_java_app c)
         (_java_connection c) (_is_connected c).
Definition set_java_app (v : PyVal) (c : FlussConnection) : FlussConnection :=
  mkConn (server_address c) (_gateway c) (_java_process c) v
         (_java_connection c) (_is_connected c).
Definition set_java_connection (v : PyVal) (c : FlussConnection) : FlussConnection :=
  mkConn (server_address c) (_gateway c) (_java_process c) (_java_app c)
         v (_is_connected c).
Definition set_is_connected (b : bool) (c : FlussConnection) : FlussConnection :=
  mkConn (server_address c) (_gateway c) (_java_process c) (_java_app c)
         (_java_connection c) b.

(** [FlussConnection.is_connected] *)
Definition is_connected (c : FlussConnection) : bool :=
  _is_connected c && negb (is_None (_gateway c)).

(** The lines that parse the table path, the same in [create_writer] and
    [create_reader]: the parts bound by the unpacking, the first one being
    the value given to the name [_] of the three-part form. *)
Definition parse_table_path (table_path : string)
  : Outcome (option string * string * string) :=
  match PyStr.split "." table_path with
  | [database_name; table_name] => Ok (None, database_name, table_name)
  | [catalog; database_name; table_name] =>
      Ok (Some catalog, database_name, table_name)
  | _ => Raise (mkExc ValueError
                  ("Invalid table path format: " ++ table_path ++
                   ". Expected 'database.table' or 'catalog.database.table'"))
  end.

(** the consolidated error of the retry wrapper, [last] being the text of
    the last exception *)
Definition retry_error (max_retries : Z) (last : string) : PyExc :=
  mkExc RuntimeError
    ("Async operation failed after " ++ pretty max_retries ++
     " attempts. Last error: " ++ last).

Section Connection.
Context `{Bridge}.
Local Abbreviation MC := (M FlussConnection).

Definition _ensure_connected : MC unit :=
  c <- get_self ;;
  if negb (is_connected c)
  then raise (mkExc ConnectionError "Not connected to Fluss. Call connect() first.")
  else ret tt.

Definition _get_connection : MC PyVal :=
  _ensure_connected ;;
  c <- get_self ;;
  (if is_None (_java_connection c)
   then jc <- method_call (_java_app c) "createConnection"
                [PStr (server_address c)] ;;
        modify (set_java_connection jc)
   else ret tt) ;;
  c <- get_self ;;
  ret (_java_connection c).

(** [close].  The calls that can reach the outer handler are those on the
    bridge object and on the subprocess, made on the Python side: their
    exceptions carry their text, and the warning of the handler cannot
    fail. *)
Definition close : MC unit :=
  c <- get_self ;;
  if negb (_is_connected c) then ret tt
  else
    try_except
      (c <- get_self ;;
       (if truthy (_java_connection c)
        then try_except
               (method_call (_java_connection c) "close" [] ;; ret tt)
               (fun _ => ret tt) ;;
             modify (set_java_connection PNone)
        else ret tt) ;;
       c <- get_self ;;
       (if truthy (_gateway c)
        then method_call (_gateway c) "shutdown" [] ;;
             modify (set_gateway PNone)
        else ret tt) ;;
       c <- get_self ;;
       (if truthy (_java_process c)
        then method_call (_java_process c) "terminate" [] ;;
             method_call (_java_process c) "wait" [PInt 5] ;;
             modify (set_java_process PNone)
        else ret tt) ;;
       modify (set_java_app PNone) ;;
       modify (set_is_connected false))
      (fun _ => ret tt).

(** [close()] called [n] times in a row *)
Fixpoint close_n (n : nat) : MC unit :=
  match n with
  | O => ret tt
  | S n' => close ;; close_n n'
  end.

(** [_handle_async_operation] *)
Definition _handle_async_operation (future_result : PyVal) (timeout : Z)
  : MC PyVal :=
  try_except
    (if negb (hasattr future_result "get") then ret future_result
     else
       c <- get_self ;;
       seconds <- method_call (_gateway c)
                    "jvm.java.util.concurrent.TimeUnit.SECONDS" [] ;;
       method_call future_result "get" [PInt timeout; seconds])
    (fun e =>
       match exc_class e with
       | Py4JJavaError =>
           text <- exc_str e ;;                (* ["TimeoutException" in str(e)] *)
           if PyStr.contains "TimeoutException" text
           then raise (mkExc TimeoutError
                         ("Operation timed out after " ++ pretty timeout ++ " seconds"))
           else text <- exc_str e ;;           (* [f"...{e}"], once more *)
                raise (mkExc RuntimeError ("Async operation failed: " ++ text))
       | _ => text <- exc_str e ;;
              raise (mkExc RuntimeError
                       ("Failed to handle async operation: " ++ text))
       end).

(** the body of the [try] of one attempt *)
Definition attempt (operation_func : MC PyVal) (timeout : Z) : MC PyVal :=
  future_result <- operation_func ;;
  _handle_async_operation future_result timeout.

(** [str(last_exception)] in the message of the retry wrapper *)
Definition str_last (last_exception : option PyExc) : MC string :=
  match last_exception with
  | Some e => exc_str e
  | None => ret "None"
  end.

(** the handler of a failed attempt (lines 514 to 518), but for the
    assignment to [last_exception]: the exception is formatted for the
    warning before anything else; [EAttemptFailed] is the warning once it
    is logged *)
Definition attempt_failed (max_retries attempt_number : Z) (e : PyExc)
  : MC unit :=
  exc_str e ;;
  emit (EAttemptFailed (attempt_number + 1) e) ;;
  if attempt_number <? max_retries - 1
  then sleep (1 * (attempt_number + 1))
  else ret tt.

(** the [for attempt in range(max_retries)] loop, [attempts] being what is
    left of the range; [EInvoke] marks the invocation of the operation
    function *)
Fixpoint retry_loop (operation_func : MC PyVal) (max_retries timeout : Z)
         (attempts : list Z) (last_exception : option PyExc) : MC PyVal :=
  match attempts with
  | [] =>
      text <- str_last last_exception ;;
      raise (retry_error max_retries text)
  | attempt_number :: rest =>
      r <- reify (emit EInvoke ;; attempt operation_func timeout) ;;
      match r with
      | Ok result => ret result
      | Raise e =>
          attempt_failed max_retries attempt_number e ;;
          retry_loop operation_func max_retries timeout rest (Some e)
      end
  end.

(** [_handle_async_operation_with_retry], defaults [max_retries=3],
    [timeout=30] *)
Definition _handle_async_operation_with_retry
           (operation_func : MC PyVal) (max_retries timeout : Z) : MC PyVal :=
  retry_loop operation_func max_retries timeout (py_range max_retries) None.

(** lines 180-185 of [create_writer] *)
Definition open_writer (database_name table_name : string)
  : MC Writer.FlussDataWriter :=
  connection <- _get_connection ;;
  table <- method_call connection "getTable"
             [PStr database_name; PStr table_name] ;;
  c <- get_self ;;
  java_writer <- method_call (_java_app c) "createDataWriter" [table] ;;
  c <- get_self ;;
  ret (Writer.mkWriter java_writer (_gateway c) false).

Definition create_writer (table_path : string) : MC Writer.FlussDataWriter :=
  _ensure_connected ;;
  parts <- lift (parse_table_path table_path) ;;
  let '(_, database_name, table_name) := parts in
  open_writer database_name table_name.

(** lines 210-218 of [create_reader] *)
Definition open_reader (database_name table_name : string)
  : MC Reader.FlussDataReader :=
  connection <- _get_connection ;;
  table <- method_call connection "getTable"
             [PStr database_name; PStr table_name] ;;
  c <- get_self ;;
  reader_factory <- method_call (_gateway c)
                      "jvm.org.example.FlussDataReaderFactory" [] ;;
  java_reader <- method_call reader_factory "createScanReader"
                   [table; PStr "snapshot"] ;;
  c <- get_self ;;
  ret (Reader.mkReader java_reader (_gateway c) false).

Definition create_reader (table_path : string) : MC Reader.FlussDataReader :=
  _ensure_connected ;;
  parts <- lift (parse_table_path table_path) ;;
  let '(_, database_name, table_name) := parts in
  open_reader database_name table_name.

(** the remote part of [list_databases]: lines 398-404 *)
Definition fetch_databases : MC PyVal :=
  connection <- _get_connection ;;
  admin <- method_call connection "getAdmin" [] ;;
  _handle_async_operation_with_retry
    (method_call admin "listDatabases" []) 3 30.

(** [list_databases]; the walks over the remote collection run for [fuel]
    rounds at most, and the result is [None] when they are still running
    then *)
Definition list_databases (fuel : nat) : MC (option (list string)) :=
  _ensure_connected ;;
  try_except
    (databases <- fetch_databases ;;
     collection_to_list fuel databases)
    (fun e => exc_str e ;; ret (Some [])).

(** the remote part of [list_tables]: lines 437-443 *)
Definition fetch_tables (database_name : string) : MC PyVal :=
  connection <- _get_connection ;;
  admin <- method_call connection "getAdmin" [] ;;
  _handle_async_operation_with_retry
    (method_call admin "listTables" [PStr database_name]) 3 30.

Definition list_tables (fuel : nat) (database_name : string)
  : MC (option (list string)) :=
  _ensure_connected ;;
  try_except
    (tables <- fetch_tables database_name ;;
     collection_to_list fuel tables)
    (fun e => exc_str e ;; ret (Some [])).

Definition drop_database (database_name : string) (if_exists : bool) : MC bool :=
  _ensure_connected ;;
  try_except
    (connection <- _get_connection ;;
     admin <- method_call connection "getAdmin" [] ;;
     _handle_async_operation_with_retry
       (method_call admin "dropDatabase"
          [PStr database_name; PBool false; PBool false]) 3 30 ;;
     ret true)
    (fun e => exc_str e ;; ret false).

Definition drop_table (database_name table_name : string) (if_exists : bool)
  : MC bool :=
  _ensure_connected ;;
  try_except
    (connection <- _get_connection ;;
     admin <- method_call connection "getAdmin" [] ;;
     c <- get_self ;;
     table_path <- method_call (_gateway c)
                     "jvm.com.alibaba.fluss.metadata.TablePath.of"
                     [PStr database_name; PStr table_name] ;;
     _handle_async_operation_with_retry
       (method_call admin "dropTable" [table_path; PBool false]) 3 30 ;;
     ret true)
    (fun e => exc_str e ;; ret false).

End Connection.

(** ** Schemas on the columnar representation ([api/schema.py]) *)

Module Schema.

(** [bytes]: as strings, byte by byte *)
Definition bytes : Type := string.

(** [s.encode('utf-8')] and [b.decode('utf-8')] on the representation *)
Definition encode_utf8 (s : string) : bytes := s.
Definition decode_utf8 (b : bytes) : string := b.

(** [pa.Field] *)
Record Field : Type := mkField {
  name : string;
  type : string;
  nullable : bool;
  field_metadata : gmap string string
}.

(** [pa.Schema]: the fields in order and the schema metadata, [None] or a
    dict from bytes to bytes *)
Record PaSchema : Type := mkPaSchema {
  fields : list Field;
  metadata : option (gmap string string)
}.

(** [schema.names] *)
Definition names (s : PaSchema) : list string := map name (fields s).

(** [schema.with_metadata(md)] of the columnar library: the same fields,
    the metadata replaced *)
Definition with_metadata (s : PaSchema) (md : gmap string string) : PaSchema :=
  mkPaSchema (fields s) (Some md).

Record ArrowSchema : Type := mkArrowSchema { _arrow_schema : PaSchema }.

(** the fixed metadata key [b'primary_keys'] *)
Definition PRIMARY_KEYS : bytes := "primary_keys".

(** truth value of the metadata: neither [None] nor the empty dict *)
Definition metadata_truthy (md : option (gmap string string)) : bool :=
  match md with
  | Some m => negb (bool_decide (m = ∅))
  | None => false
  end.

Definition get_field_names (self : ArrowSchema) : list string :=
  names (_arrow_schema self).

Definition get_primary_keys (self : ArrowSchema) : option (list string) :=
  if metadata_truthy (metadata (_arrow_schema self)) then
    match default ∅ (metadata (_arrow_schema self)) !! PRIMARY_KEYS with
    | Some primary_keys_bytes =>
        if PyStr.truthy primary_keys_bytes then
          let primary_keys_str := decode_utf8 primary_keys_bytes in
          if PyStr.truthy primary_keys_str
          then Some (PyStr.split "," primary_keys_str)
          else None
        else None
    | None => None
    end
  else None.

(** [for pk in primary_keys: if pk not in field_names: raise ...] *)
Fixpoint check_primary_keys (field_names primary_keys : list string)
  : Outcome unit :=
  match primary_keys with
  | [] => Ok tt
  | pk :: rest =>
      if negb (PyStr.in_list pk field_names)
      then Raise (mkExc ValueError
                    ("Primary key field '" ++ pk ++ "' not found in schema"))
      else check_primary_keys field_names rest
  end.

Definition with_primary_keys (self : ArrowSchema) (primary_keys : list string)
  : Outcome ArrowSchema :=
  let field_names := get_field_names self in
  match check_primary_keys field_names primary_keys with
  | Raise e => Raise e
  | Ok _ =>
      let existing_metadata :=
        if metadata_truthy (metadata (_arrow_schema self))
        then default ∅ (metadata (_arrow_schema self))
        else ∅ in
      let existing_metadata :=
        <[PRIMARY_KEYS := encode_utf8 (PyStr.join "," primary_keys)]>
          existing_metadata in
      let new_schema := with_metadata (_arrow_schema self) existing_metadata in
      Ok (mkArrowSchema new_schema)
  end.

End Schema.

(** ** Worker-count admission ([py4j/java_implementation.py]) *)

Module TableRead.

(** [constants.MAX_WORKERS] *)
Definition MAX_WORKERS : string := "max-workers".

(** [int(v)]: a float without an integer value is an infinity
    ([OverflowError]) or not a number ([ValueError]) *)
Definition py_int `{Unicode} (v : PyVal) : Outcome Z :=
  match v with
  | PInt z => Ok z
  | PBool b => Ok (if b then 1 else 0)
  | PFloat f =>
      match float_trunc f with
      | Some z => Ok z
      | None =>
          if PyStr.in_list (float_repr f) ["inf"; "-inf"]
          then Raise (mkExc OverflowError
                        "cannot convert float infinity to integer")
          else Raise (mkExc ValueError "cannot convert float NaN to integer")
      end
  | PStr s => int_of_str s
  | PNone =>
      Raise (mkExc TypeError
               "int() argument must be a string, a bytes-like object or a real number, not 'NoneType'")
  | PObj _ =>
      Raise (mkExc TypeError
               "int() argument must be a string, a bytes-like object or a real number, not 'JavaObject'")
  end.

Definition _get_max_workers `{Unicode} (catalog_options : gmap string PyVal)
  : Outcome Z :=
  match py_int (default (PInt 1) (catalog_options !! MAX_WORKERS)) with
  | Raise e => Raise e
  | Ok max_workers =>
      if max_workers <=? 0
      then Raise (mkExc ValueError "max_workers must be greater than 0")
      else Ok max_workers
  end.

Record FlussTableRead : Type := mkTableRead {
  _j_table_read : PyVal;
  _j_read_type : PyVal;
  _catalog_options : gmap string PyVal;
  _projection : option (list string);
  _primary_keys : option (list string);
  _partition_keys : option (list string);
  _arrow_schema : option (list (string * ArrowType));
  _j_bytes_reader : PyVal
}.

(** the method name of the call that constructs the parallel reader *)
Definition CREATE_READER : string :=
  "jvm.org.example.FlussDataReader.createParallelBytesReader".

Section Methods.
Context `{Bridge}.
Local Abbreviation MI := (M unit).

(** the loop of [java_utils.to_arrow_schema] over
    [range(len(field_names))] *)
Fixpoint arrow_fields (field_names field_types : list PyVal)
  : MI (list (string * ArrowType)) :=
  match field_names with
  | [] => ret []
  | field_name :: names' =>
      match field_types with
      | [] => raise (mkExc IndexError "list index out of range")
      | j_field_type :: types' =>
          type_str <- py_str j_field_type ;;
          let arrow_type := _java_type_to_arrow_type type_str in
          match field_name with
          | PStr n =>
              rest <- arrow_fields names' types' ;;
              ret ((n, arrow_type) :: rest)
          | _ => raise (mkExc TypeError "field name must be a string")
          end
      end
  end.

(** [java_utils.to_arrow_schema] *)
Definition to_arrow_schema (j_row_type : PyVal)
  : MI (list (string * ArrowType)) :=
  get_gateway ;;
  field_names <- method_call j_row_type "getFieldNames" [] ;;
  field_types <- method_call j_row_type "getChildren" [] ;;
  match java_list field_names with
  | None => raise (mkExc TypeError "object has no len()")
  | Some ns =>
      match java_list field_types with
      | Some ts => arrow_fields ns ts
      | None =>
          match ns with
          | [] => ret []
          | _ => raise (mkExc TypeError "object is not subscriptable")
          end
      end
  end.

(** [FlussTableRead.__init__]; [pa_available] says whether the columnar
    library could be imported *)
Definition __init__ `{Unicode} (pa_available : bool)
           (j_table_read j_read_type : PyVal)
           (catalog_options : gmap string PyVal)
           (projection primary_keys partition_keys : option (list string))
  : MI FlussTableRead :=
  arrow_schema <- (if pa_available
                   then s <- to_arrow_schema j_read_type ;; ret (Some s)
                   else ret None) ;;
  gateway <- get_gateway ;;
  max_workers <- lift (_get_max_workers catalog_options) ;;
  j_bytes_reader <- method_call gateway CREATE_READER
                      [j_table_read; j_read_type; PInt max_workers] ;;
  ret (mkTableRead j_table_read j_read_type catalog_options projection
         primary_keys partition_keys arrow_schema j_bytes_reader).

(** Making an object of the class.  [FlussTableRead] inherits the abstract
    methods [read_batch], [read_records] and [to_record_generator] and
    defines none of them, so [FlussTableRead(...)] raises before
    [__init__] runs; [__init__] runs for a subclass that defines them
    ([concrete]). *)
Definition instantiate `{Unicode} (concrete pa_available : bool)
           (j_table_read j_read_type : PyVal)
           (catalog_options : gmap string PyVal)
           (projection primary_keys partition_keys : option (list string))
  : MI FlussTableRead :=
  if concrete
  then __init__ pa_available j_table_read j_read_type catalog_options
         projection primary_keys partition_keys
  else raise (mkExc TypeError
                "Can't instantiate abstract class FlussTableRead with abstract methods read_batch, read_records, to_record_generator").

End Methods.
End TableRead.


(** ** Traces *)

(** [m] only adds events that satisfy [P] to the trace. *)
Definition emits `{Bridge} {Self A : Type} (P : Event -> Prop) (m : M Self A)
  : Prop :=
  forall env, exists added,
    trace (snd (m env)) = (trace env ++ added)%list /\ Forall P added.

(** [m] leaves the trace as it is but for calls through the bridge. *)
Definition is_control (ev : Event) : bool :=
  match ev with
  | ECall _ => false
  | _ => true
  end.

(** An operation function that raises on every invocation. *)
Definition always_fails `{Bridge} {Self A : Type} (m : M Self A) : Prop :=
  forall env, exists e, fst (m env) = Raise e.

(** The invocations, warnings and sleeps of a run of the retry wrapper in
    which the attempts failed with [errors], the first one numbered
    [attempt]: a sleep of [attempt] seconds after each failure but the
    last. *)
Fixpoint schedule (attempt : Z) (errors : list PyExc) : list Event :=
  match errors with
  | [] => []
  | e :: rest =>
      EInvoke :: EAttemptFailed attempt e ::
      match rest with
      | [] => []
      | _ => ESleep attempt :: schedule (attempt + 1) rest
      end
  end.

(** ** Bridges and handles of the examples *)

(** Every call answers with a handle. *)
Definition answering_bridge : Bridge := {|
  World := unit;
  remote := fun _ w => (Ok (PObj 1), w);
  java_list := fun _ => None
|}.


(** Every call of the remote interface raises a remote exception, whose
    text the bridge gives when asked; the world counts the failed calls. *)
Definition failing_bridge : Bridge := {|
  World := nat;
  remote := fun c w =>
    if String.eqb (rc_method c) JAVA_ERROR_TEXT
    then (Ok (PStr "java.io.IOException: server unreachable"), w)
    else
      (Raise (mkExc Py4JJavaError
                ("An error occurred while calling the gateway (call " ++ pretty w ++ ")")),
       S w);
  java_list := fun _ => None
|}.

(** The remote side raises on every call and is gone when the client asks
    for the text of the exception: that request fails with the network
    error of the bridge.  The world counts the failed calls. *)
Definition lost_bridge : Bridge := {|
  World := nat;
  remote := fun c w =>
    if String.eqb (rc_method c) JAVA_ERROR_TEXT
    then (Raise (mkExc Py4JNetworkError "Error while sending or receiving"), w)
    else
      (Raise (mkExc Py4JJavaError
                ("An error occurred while calling the gateway (call " ++ pretty w ++ ")")),
       S w);
  java_list := fun _ => None
|}.

(** The subprocess has not exited at the end of the first bounded wait and
    has exited at the second; the world counts the waits. *)
Definition slow_exit_bridge : Bridge := {|
  World := nat;
  remote := fun c w =>
    if String.eqb (rc_method c) "wait" then
      (match w with
       | O => Raise (mkExc TimeoutExpired "Command 'java' timed out after 5 seconds")
       | S _ => Ok (PInt 0)
       end, S w)
    else (Ok PNone, w);
  java_list := fun _ => None
|}.

(** a connection after a successful [connect()] *)
Definition connected_conn : FlussConnection :=
  mkConn "localhost:9123" (PObj 10) (PObj 11) (PObj 12) (PObj 13) true.

(** a connection after a [connect()] that failed at the liveness probe: the
    subprocess and the bridge are up, the flag was never set *)
Definition half_open_conn : FlussConnection :=
  mkConn "localhost:9123" (PObj 10) (PObj 11) (PObj 12) (PObj 13) false.

Definition start_env (B : Bridge) {Self : Type} (s : Self) (w : @World B)
  : @Env B Self :=
  mkEnv s w [].

(** a schema with one field whose name has a comma in it *)
Definition comma_schema : Schema.ArrowSchema :=
  Schema.mkArrowSchema
    (Schema.mkPaSchema [Schema.mkField "a,b" "int64" true ∅;
                        Schema.mkField "value" "string" true ∅] None).

(** the schema of the end-to-end scenario *)
Definition scenario_schema : Schema.ArrowSchema :=
  Schema.mkArrowSchema
    (Schema.mkPaSchema [Schema.mkField "date" "string" true ∅;
                        Schema.mkField "hour" "string" true ∅;
                        Schema.mkField "key" "int64" true ∅;
                        Schema.mkField "value" "string" true ∅] None).

(** every call of [method] on the trace has arguments that satisfy [Q] *)
Definition calls_satisfy (method : string) (Q : list PyVal -> Prop) (ev : Event)
  : Prop :=
  match ev with
  | ECall c => rc_method c = method -> Q (rc_args c)
  | _ => True
  end.

(** the trace has no call of [method] *)
Definition not_call_of (method : string) (ev : Event) : Prop :=
  match ev with
  | ECall c => rc_method c <> method
  | _ => True
  end.

(** a handle field holds [None] or an object *)
Definition is_handle (v : PyVal) : bool :=
  match v with
  | PNone | PObj _ => true
  | _ => false
  end.

Definition handles_ok (c : FlussConnection) : bool :=
  is_handle (_gateway c) && is_handle (_java_process c)
  && is_handle (_java_connection c).

(** the shutdown of the bridge and the termination of the subprocess answer
    whenever they are called *)
Definition teardown_answers `{Bridge} : Prop :=
  forall (c : RemoteCall) (w : World),
    In (rc_method c) ["shutdown"; "terminate"; "wait"] ->
    exists v, fst (remote c w) = Ok v.

(** the state [close()] aims at *)
Definition closed_conn (c : FlussConnection) : FlussConnection :=
  mkConn (server_address c) PNone PNone PNone PNone false.

(** what a client sees of one operation on a closed writer or reader *)
Definition writer_refusal (op : Writer.Op) : Outcome PyVal :=
  if Writer.is_data_op op then Raise Writer.closed_error else Ok PNone.

Definition reader_refusal (op : Reader.Op) : Outcome Reader.Result :=
  if Reader.is_data_op op then Raise Reader.closed_error else Ok Reader.RNone.

(** how often the operation function was invoked, and the sleeps in order *)
Definition is_invoke (ev : Event) : bool :=
  match ev with
  | EInvoke => true
  | _ => false
  end.

Definition invocations (l : list Event) : nat :=
  length (List.filter is_invoke l).

Fixpoint sleeps (l : list Event) : list Z :=
  match l with
  | [] => []
  | ESleep seconds :: l' => seconds :: sleeps l'
  | _ :: l' => sleeps l'
  end.

(** the operation function of [list_databases] on the admin handle [PObj 5] *)
Definition list_operation `{Bridge} : M FlussConnection PyVal :=
  method_call (PObj 5) "listDatabases" [].

(** ** More of the connection ([connection.py]) *)

(** the resolved view of a [DatabaseDescriptor]: what its [comment] and
    [custom_properties] properties give, the properties in insertion order *)
Record DescriptorView : Type := mkView {
  view_comment : option string;
  view_properties : list (string * string)
}.

(** one entry of the [columns] list of [get_table_schema] *)
Record ColumnInfo : Type := mkColumn {
  col_name : PyVal;
  col_type : string;
  col_nullable : bool
}.

(** the dict [get_table_schema] returns *)
Record TableSchemaInfo : Type := mkSchemaInfo {
  info_columns : list ColumnInfo;
  info_primary_keys : list string;
  info_table_path : string
}.

(** truth value of an optional string: neither [None] nor empty *)
Definition opt_truthy (s : option string) : bool :=
  match s with
  | Some x => PyStr.truthy x
  | None => false
  end.

(** the constructor of [DataTypes] that makes a data type, with its
    arguments *)
Definition datatype_call (dt : FlussDataType) : string * list PyVal :=
  match dt with
  | DT_STRING => ("STRING", [])
  | DT_BIGINT => ("BIGINT", [])
  | DT_INT => ("INT", [])
  | DT_DOUBLE => ("DOUBLE", [])
  | DT_FLOAT => ("FLOAT", [])
  | DT_BOOLEAN => ("BOOLEAN", [])
  | DT_TIMESTAMP p => ("TIMESTAMP", [PInt p])
  | DT_DECIMAL p s => ("DECIMAL", [PInt p; PInt s])
  end.

(** [self._projection]-style integers: [range] needs an integer *)
Definition py_index (v : PyVal) : Outcome Z :=
  match v with
  | PInt z => Ok z
  | PBool b => Ok (if b then 1 else 0)
  | _ => Raise (mkExc TypeError "object cannot be interpreted as an integer")
  end.

(** the column definitions of [create_table]: a schema object or a list of
    dicts *)
Inductive SchemaOrColumns : Type :=
| OfSchema (names : list string) (field_types : gmap string string)
           (primary_keys : option (list string))
| OfColumns (columns : list (gmap string PyVal)).

Section ConnectionMore.
Context `{Bridge}.
Local Abbreviation MC := (M FlussConnection).

(** a function of the operating system or of a library, called by name *)
Definition os_call {Self : Type} (name : string) (args : list PyVal)
  : M Self PyVal :=
  call (mkCall PNone name args).

(** [_get_jar_path]; the exception is a [FileNotFoundError] *)
Definition _get_jar_path : MC PyVal :=
  current_dir <- os_call "os.path.dirname(os.path.abspath(__file__))" [] ;;
  jar_path <- os_call "os.path.join"
                [current_dir; PStr "jars"; PStr "fluss-python-py4j-1.0-SNAPSHOT.jar"] ;;
  found <- os_call "os.path.exists" [jar_path] ;;
  if negb (truthy found)
  then s <- py_str jar_path ;;
       raise (mkExc OtherError ("Fluss JAR not found at " ++ s))
  else ret jar_path.

(** [_start_java_gateway_server]; the process is started with its two
    streams piped, and [communicate()] gives them as a pair, whose
    components are decoded *)
Definition _start_java_gateway_server (jar_path : PyVal) : MC unit :=
  try_except
    (os_call "subprocess.run"
       [PStr "pkill"; PStr "-f"; PStr "SimplePy4JGatewayServer"] ;;
     sleep 1)
    (fun _ => ret tt) ;;
  process <- os_call "subprocess.Popen"
               [PStr "java"; PStr "-cp"; jar_path;
                PStr "org.example.SimplePy4JGatewayServer"] ;;
  modify (set_java_process process) ;;
  sleep 1 ;;
  c <- get_self ;;
  exit_code <- method_call (_java_process c) "poll" [] ;;
  if negb (is_None exit_code)
  then c <- get_self ;;
       streams <- method_call (_java_process c) "communicate" [] ;;
       stdout <- method_call streams "[0].decode" [] ;;
       stderr <- method_call streams "[1].decode" [] ;;
       out <- py_str stdout ;;
       err <- py_str stderr ;;
       raise (mkExc RuntimeError
                ("Java process failed to start. stdout: " ++ out
                 ++ ", stderr: " ++ err))
  else ret tt.

(** [_test_connection]; the result goes into a log line *)
Definition _test_connection : MC unit :=
  try_except
    (c <- get_self ;;
     result <- method_call (_java_app c) "toString" [] ;;
     py_str result ;;
     ret tt)
    (fun e =>
       text <- exc_str e ;;
       raise (mkExc ConnectionError ("Gateway connection test failed: " ++ text))).

(** the body of the [try] of [connect] up to the liveness probe *)
Definition connect_steps : MC unit :=
  jar_path <- _get_jar_path ;;
  _start_java_gateway_server jar_path ;;
  sleep 2 ;;
  gateway <- os_call "py4j.java_gateway.JavaGateway" [] ;;
  modify (set_gateway gateway) ;;
  c <- get_self ;;
  java_app <- method_call (_gateway c) "entry_point" [] ;;
  modify (set_java_app java_app) ;;
  c <- get_self ;;
  java_connection <- method_call (_java_app c) "createConnection"
                       [PStr (server_address c)] ;;
  modify (set_java_connection java_connection) ;;
  _test_connection.

(** [connect]; registering [close] with [atexit] cannot fail and leaves no
    event.  The handler formats the exception twice: for its log line,
    before [close()], and for the message of the [ConnectionError]. *)
Definition connect : MC unit :=
  c <- get_self ;;
  if _is_connected c then ret tt
  else
    try_except
      (connect_steps ;;
       modify (set_is_connected true))
      (fun e =>
         exc_str e ;;
         close ;;
         text <- exc_str e ;;
         raise (mkExc ConnectionError
                  ("Could not establish connection to Fluss: " ++ text))).

(** [execute_sql]; the exception is a [NotImplementedError] *)
Definition execute_sql (sql : string) : MC PyVal :=
  _ensure_connected ;;
  raise (mkExc OtherError "SQL execution not yet implemented").

(** [get_admin] *)
Definition get_admin (name : string) : MC PyVal :=
  connection <- _get_connection ;;
  method_call connection "getAdmin" [].

(** the descriptor [create_database] builds from its other parameters *)
Definition descriptor_from_parameters
           (comment : option string)
           (custom_properties : option (list (string * string)))
  : DescriptorView :=
  mkView (if opt_truthy comment then comment else None)
         (match custom_properties with
          | Some props => props
          | None => []
          end).

(** [for key, value in ...items(): java_map.put(key, value)] *)
Fixpoint put_all {Self : Type} (java_map : PyVal) (items : list (string * string))
  : M Self unit :=
  match items with
  | [] => ret tt
  | (key, value) :: rest =>
      method_call java_map "put" [PStr key; PStr value] ;;
      put_all java_map rest
  end.

(** [create_database]; the descriptor, when given, is a
    [DatabaseDescriptor], seen through its two properties *)
Definition create_database (database_name : string)
           (database_descriptor : option DescriptorView)
           (if_not_exists : bool) (comment : option string)
           (custom_properties : option (list (string * string))) : MC bool :=
  _ensure_connected ;;
  try_except
    (connection <- _get_connection ;;
     admin <- method_call connection "getAdmin" [] ;;
     let desc := match database_descriptor with
                 | Some d => d
                 | None => descriptor_from_parameters comment custom_properties
                 end in
     c <- get_self ;;
     java_builder <- method_call (_gateway c)
                       "jvm.com.alibaba.fluss.metadata.DatabaseDescriptor.builder" [] ;;
     java_builder <- (if opt_truthy (view_comment desc)
                      then method_call java_builder "comment"
                             [PStr (default "" (view_comment desc))]
                      else ret java_builder) ;;
     java_builder <- (match view_properties desc with
                      | [] => ret java_builder
                      | props =>
                          try_except
                            (c <- get_self ;;
                             java_map <- method_call (_gateway c)
                                           "jvm.java.util.HashMap" [] ;;
                             put_all java_map props ;;
                             method_call java_builder "customProperties" [java_map])
                            (fun e => exc_str e ;; ret java_builder)
                      end) ;;
     java_database_descriptor <- method_call java_builder "build" [] ;;
     _handle_async_operation_with_retry
       (method_call admin "createDatabase"
          [PStr database_name; java_database_descriptor; PBool if_not_exists])
       3 30 ;;
     ret true)
    (fun e => exc_str e ;; ret false).

(** the columns a schema object stands for: its names, each with the type
    the dict of field types has for it *)
Fixpoint schema_columns_of (names : list string) (field_types : gmap string string)
  : Outcome (list (PyVal * PyVal)) :=
  match names with
  | [] => Ok []
  | field_name :: rest =>
      match field_types !! field_name with
      | None => Raise (mkExc OtherError ("KeyError: " ++ field_name))
      | Some t =>
          match schema_columns_of rest field_types with
          | Ok cols => Ok ((PStr field_name, PStr t) :: cols)
          | Raise e => Raise e
          end
      end
  end.

(** [schema_builder.column(col['name'], data_type)] for every column *)
Fixpoint add_columns `{Unicode} (schema_builder : PyVal)
         (columns : list (gmap string PyVal)) : MC unit :=
  match columns with
  | [] => ret tt
  | col :: rest =>
      col_name <- lift (match col !! "name" with
                        | Some v => Ok v
                        | None => Raise (mkExc OtherError "KeyError: 'name'")
                        end) ;;
      col_type <- lift (match col !! "type" with
                        | Some (PStr t) => Ok (str_upper t)
                        | Some _ => Raise (mkExc AttributeError
                                             "object has no attribute 'upper'")
                        | None => Raise (mkExc OtherError "KeyError: 'type'")
                        end) ;;
      dt <- lift (_map_type_to_fluss_datatype col_type) ;;
      c <- get_self ;;
      data_type <-
        (let '(ctor, args) := datatype_call dt in
         method_call (_gateway c)
           ("jvm.com.alibaba.fluss.types.DataTypes." ++ ctor) args) ;;
      method_call schema_builder "column" [col_name; data_type] ;;
      add_columns schema_builder rest
  end.

(** [for i, pk in enumerate(primary_keys): pk_array[i] = pk] *)
Fixpoint fill_keys (pk_array : PyVal) (i : Z) (primary_keys : list string)
  : MC unit :=
  match primary_keys with
  | [] => ret tt
  | pk :: rest =>
      method_call pk_array "__setitem__" [PInt i; PStr pk] ;;
      fill_keys pk_array (i + 1) rest
  end.

(** [create_table]; [primary_keys] is the parameter, used when the columns
    come as a list *)
Definition create_table `{Unicode} (database_name table_name : string)
           (schema_or_columns : SchemaOrColumns)
           (primary_keys : option (list string)) (if_not_exists : bool)
  : MC bool :=
  _ensure_connected ;;
  try_except
    (connection <- _get_connection ;;
     admin <- method_call connection "getAdmin" [] ;;
     input <- lift (match schema_or_columns with
                    | OfSchema names field_types keys =>
                        match schema_columns_of names field_types with
                        | Ok cols =>
                            Ok (map (fun '(n, t) =>
                                       ({["name" := n; "type" := t]} : gmap string PyVal))
                                    cols, keys)
                        | Raise e => Raise e
                        end
                    | OfColumns columns => Ok (columns, primary_keys)
                    end) ;;
     let '(schema_columns, primary_keys) := input in
     c <- get_self ;;
     schema_builder <- method_call (_gateway c)
                         "jvm.com.alibaba.fluss.metadata.Schema.newBuilder" [] ;;
     add_columns schema_builder schema_columns ;;
     (match primary_keys with
      | Some (pk :: pks) =>
          c <- get_self ;;
          string_class <- method_call (_gateway c) "jvm.java.lang.String" [] ;;
          pk_array <- method_call (_gateway c) "new_array"
                        [string_class; PInt (Z.of_nat (length (pk :: pks)))] ;;
          fill_keys pk_array 0 (pk :: pks) ;;
          method_call schema_builder "primaryKey" [pk_array] ;;
          ret tt
      | _ => ret tt
      end) ;;
     schema <- method_call schema_builder "build" [] ;;
     c <- get_self ;;
     descriptor_builder <- method_call (_gateway c)
                             "jvm.com.alibaba.fluss.metadata.TableDescriptor.builder" [] ;;
     with_schema <- method_call descriptor_builder "schema" [schema] ;;
     table_descriptor <- method_call with_schema "build" [] ;;
     c <- get_self ;;
     table_path <- method_call (_gateway c)
                     "jvm.com.alibaba.fluss.metadata.TablePath.of"
                     [PStr database_name; PStr table_name] ;;
     _handle_async_operation_with_retry
       (method_call admin "createTable"
          [table_path; table_descriptor; PBool if_not_exists]) 3 30 ;;
     ret true)
    (fun e => exc_str e ;; ret false).

(** the loop of [get_table_schema] over [range(field_names.size())] *)
Fixpoint schema_columns (field_names field_types : PyVal) (indexes : list Z)
  : MC (list ColumnInfo) :=
  match indexes with
  | [] => ret []
  | i :: rest =>
      n <- method_call field_names "get" [PInt i] ;;
      t <- method_call field_types "get" [PInt i] ;;
      type_str <- py_str t ;;
      columns <- schema_columns field_names field_types rest ;;
      ret (mkColumn n type_str true :: columns)
  end.

(** [get_table_schema]: the dict, or [None] *)
Definition get_table_schema (database_name table_name : string)
  : MC (option TableSchemaInfo) :=
  _ensure_connected ;;
  try_except
    (connection <- _get_connection ;;
     table <- method_call connection "getTable"
                [PStr database_name; PStr table_name] ;;
     table_info <- method_call table "getTableInfo" [] ;;
     row_type <- method_call table_info "getRowType" [] ;;
     field_names <- method_call row_type "getFieldNames" [] ;;
     field_types <- method_call row_type "getChildren" [] ;;
     size <- method_call field_names "size" [] ;;
     n <- lift (py_index size) ;;
     columns <- schema_columns field_names field_types (py_range n) ;;
     let primary_keys := [] in
     ret (Some (mkSchemaInfo columns primary_keys
                  (database_name ++ "." ++ table_name))))
    (fun e => exc_str e ;; ret None).

End ConnectionMore.

(** ** The admin wrapper ([api/admin.py]) *)

(** [self._gateway] of a connection, by a name that the records of the
    modules below do not hide *)
Definition gateway_of (c : FlussConnection) : PyVal := _gateway c.

Module Admin.

(** the wrapper; its connection manager is the connection its methods run
    on *)
Record Admin : Type := mkAdmin {
  _java_admin : PyVal;
  _gateway : PyVal
}.

(** a table path argument: a string, or an object *)
Inductive PathArg : Type :=
| PathStr (s : string)
| PathObj (v : PyVal).

Section Methods.
Context `{Bridge}.
Local Abbreviation MC := (M FlussConnection).

(** [FlussConnection.getAdmin]: the wrapper around the remote admin *)
Definition getAdmin : MC Admin :=
  connection <- _get_connection ;;
  java_admin <- method_call connection "getAdmin" [] ;;
  c <- get_self ;;
  ret (mkAdmin java_admin (gateway_of c)).

(** [Admin.create_database]; no descriptor stands for the empty one *)
Definition create_database (self : Admin) (database_name : string)
           (database_descriptor : option DescriptorView) (if_not_exists : bool)
  : MC bool :=
  let desc := match database_descriptor with
              | Some d => d
              | None => mkView None []
              end in
  java_builder <- method_call (_gateway self)
                    "jvm.com.alibaba.fluss.metadata.DatabaseDescriptor.builder" [] ;;
  java_builder <- (if opt_truthy (view_comment desc)
                   then method_call java_builder "comment"
                          [PStr (default "" (view_comment desc))]
                   else ret java_builder) ;;
  java_builder <- (match view_properties desc with
                   | [] => ret java_builder
                   | props =>
                       java_map <- method_call (_gateway self)
                                     "jvm.java.util.HashMap" [] ;;
                       put_all java_map props ;;
                       method_call java_builder "customProperties" [java_map]
                   end) ;;
  java_database_descriptor <- method_call java_builder "build" [] ;;
  _handle_async_operation_with_retry
    (method_call (_java_admin self) "createDatabase"
       [PStr database_name; java_database_descriptor; PBool if_not_exists])
    3 30 ;;
  ret true.

(** [Admin.list_databases]; the walks over the remote collection run for
    [fuel] rounds at most *)
Definition list_databases (self : Admin) (fuel : nat)
  : MC (option (list string)) :=
  databases <- _handle_async_operation_with_retry
                 (method_call (_java_admin self) "listDatabases" []) 3 30 ;;
  collection_to_list fuel databases.

(** [Admin.drop_database] *)
Definition drop_database (self : Admin) (database_name : string)
           (cascade if_exists : bool) : MC bool :=
  _handle_async_operation_with_retry
    (method_call (_java_admin self) "dropDatabase"
       [PStr database_name; PBool cascade; PBool if_exists]) 3 30 ;;
  ret true.

(** [Admin.list_tables] *)
Definition list_tables (self : Admin) (fuel : nat) (database_name : string)
  : MC (option (list string)) :=
  tables <- _handle_async_operation_with_retry
              (method_call (_java_admin self) "listTables"
                 [PStr database_name]) 3 30 ;;
  collection_to_list fuel tables.

(** the conversion of the table path argument, the same lines in
    [create_table] and [drop_table] *)
Definition java_table_path (self : Admin) (table_path : PathArg) : MC PyVal :=
  match table_path with
  | PathStr s =>
      match PyStr.split "." s with
      | [database_name; table_name] =>
          method_call (_gateway self)
            "jvm.com.alibaba.fluss.metadata.TablePath.of"
            [PStr database_name; PStr table_name]
      | _ => raise (mkExc ValueError
                      "Table path must be in format 'database.table'")
      end
  | PathObj v =>
      if hasattr v "to_java"
      then method_call v "to_java" [_gateway self]
      else ret v
  end.

(** [Admin.create_table] *)
Definition create_table (self : Admin) (table_path : PathArg)
           (table_descriptor : PyVal) (if_not_exists : bool) : MC bool :=
  path <- java_table_path self table_path ;;
  _handle_async_operation_with_retry
    (method_call (_java_admin self) "createTable"
       [path; table_descriptor; PBool if_not_exists]) 3 30 ;;
  ret true.

(** [Admin.drop_table] *)
Definition drop_table (self : Admin) (table_path : PathArg) (if_exists : bool)
  : MC bool :=
  path <- java_table_path self table_path ;;
  _handle_async_operation_with_retry
    (method_call (_java_admin self) "dropTable"
       [path; PBool (negb if_exists)]) 3 30 ;;
  ret true.

End Methods.
End Admin.

(** ** Identifiers ([py4j/util/java_utils.py]) *)

Section JavaUtils.
Context `{Bridge} {Self : Type}.

(** [to_j_identifier] *)
Definition to_j_identifier (identifier : string) : M Self PyVal :=
  gateway <- get_gateway ;;
  match PyStr.split "." identifier with
  | [table] =>
      method_call gateway "jvm.org.example.CatalogFactory.MockIdentifier.of"
        [PStr table]
  | [database; table] =>
      method_call gateway "jvm.org.example.CatalogFactory.MockIdentifier.of"
        [PStr database; PStr table]
  | _ => raise (mkExc ValueError ("Invalid identifier format: " ++ identifier))
  end.

End JavaUtils.

(** ** Descriptors and table paths ([api/metadata.py]) *)

Module Metadata.

(** a dict from strings to strings, in insertion order, each key once *)
Definition PyDict : Type := list (string * string).

(** [d[k] = v] *)
Fixpoint dict_set (k v : string) (d : PyDict) : PyDict :=
  match d with
  | [] => [(k, v)]
  | (k', v') :: d' =>
      if String.eqb k k' then (k, v) :: d' else (k', v') :: dict_set k v d'
  end.

(** [d.get(k)] *)
Fixpoint dict_get (k : string) (d : PyDict) : option string :=
  match d with
  | [] => None
  | (k', v') :: d' => if String.eqb k k' then Some v' else dict_get k d'
  end.

(** [d.update(other)] *)
Definition dict_update (d other : PyDict) : PyDict :=
  fold_left (fun acc kv => dict_set (fst kv) (snd kv) acc) other d.

(** the store of the dict objects, by address *)
Definition Heap : Type := list PyDict.

Definition read (a : nat) (h : Heap) : PyDict := default [] (h !! a).

Definition write (a : nat) (d : PyDict) (h : Heap) : Heap := <[a := d]> h.

(** a new dict object with the content [d] *)
Definition alloc (d : PyDict) (h : Heap) : nat * Heap := (length h, (h ++ [d])%list).

Record DatabaseDescriptor : Type := mkDescriptor {
  _comment : option string;
  _custom_properties : nat       (* the address of the dict *)
}.

(** the builder object: its comment, and the address of its dict *)
Record DatabaseDescriptorBuilder : Type := mkBuilder {
  b_comment : option string;
  b_custom_properties : nat
}.

(** [DatabaseDescriptor.__init__]: [custom_properties or {}] keeps the dict
    it is given when that dict is not empty, and makes a new one otherwise *)
Definition new_descriptor (comment : option string)
           (custom_properties : option nat) (h : Heap)
  : DatabaseDescriptor * Heap :=
  match custom_properties with
  | Some a =>
      match read a h with
      | [] => let '(a', h') := alloc [] h in (mkDescriptor comment a', h')
      | _ => (mkDescriptor comment a, h)
      end
  | None => let '(a', h') := alloc [] h in (mkDescriptor comment a', h')
  end.

(** the property [comment] *)
Definition comment (d : DatabaseDescriptor) : option string := _comment d.

(** the property [custom_properties]: a copy *)
Definition custom_properties (d : DatabaseDescriptor) (h : Heap) : nat * Heap :=
  alloc (read (_custom_properties d) h) h.

(** the content of the properties of [d] in the store [h] *)
Definition properties_of (d : DatabaseDescriptor) (h : Heap) : PyDict :=
  read (_custom_properties d) h.

(** what [create_database] reads of a descriptor *)
Definition view (d : DatabaseDescriptor) (h : Heap) : DescriptorView :=
  mkView (comment d) (properties_of d h).

Definition with_comment (c : string) (d : DatabaseDescriptor) (h : Heap)
  : DatabaseDescriptor * Heap :=
  new_descriptor (Some c) (Some (_custom_properties d)) h.

Definition with_custom_property (key value : string)
           (d : DatabaseDescriptor) (h : Heap) : DatabaseDescriptor * Heap :=
  let '(new_properties, h1) := alloc (read (_custom_properties d) h) h in
  let h2 := write new_properties (dict_set key value (read new_properties h1)) h1 in
  new_descriptor (_comment d) (Some new_properties) h2.

Definition with_custom_properties (properties : nat)
           (d : DatabaseDescriptor) (h : Heap) : DatabaseDescriptor * Heap :=
  let '(new_properties, h1) := alloc (read (_custom_properties d) h) h in
  let h2 := write new_properties
              (dict_update (read new_properties h1) (read properties h1)) h1 in
  new_descriptor (_comment d) (Some new_properties) h2.

(** [DatabaseDescriptor.builder()] *)
Definition builder (h : Heap) : DatabaseDescriptorBuilder * Heap :=
  let '(a, h') := alloc [] h in (mkBuilder None a, h').

(** the methods of the builder change the builder object and return it *)
Definition builder_comment (c : string) (b : DatabaseDescriptorBuilder)
  : DatabaseDescriptorBuilder :=
  mkBuilder (Some c) (b_custom_properties b).

Definition builder_custom_property (key value : string)
           (b : DatabaseDescriptorBuilder) (h : Heap) : Heap :=
  write (b_custom_properties b)
        (dict_set key value (read (b_custom_properties b) h)) h.

Definition builder_custom_properties (properties : nat)
           (b : DatabaseDescriptorBuilder) (h : Heap) : Heap :=
  write (b_custom_properties b)
        (dict_update (read (b_custom_properties b) h) (read properties h)) h.

Definition build (b : DatabaseDescriptorBuilder) (h : Heap)
  : DatabaseDescriptor * Heap :=
  new_descriptor (b_comment b) (Some (b_custom_properties b)) h.

Record TablePath : Type := mkTablePath {
  _catalog_name : option string;
  _database_name : string;
  _table_name : string
}.

(** [TablePath.of] ([of] is a keyword here) and [TablePath.of_catalog] *)
Definition of_ (database_name table_name : string) : TablePath :=
  mkTablePath None database_name table_name.

Definition of_catalog (catalog_name database_name table_name : string)
  : TablePath :=
  mkTablePath (Some catalog_name) database_name table_name.

Definition to_string (self : TablePath) : string :=
  if opt_truthy (_catalog_name self)
  then default "" (_catalog_name self) ++ "." ++ _database_name self
       ++ "." ++ _table_name self
  else _database_name self ++ "." ++ _table_name self.

End Metadata.

(** ** More of the schemas ([api/schema.py]) *)

Module SchemaOps.

(** [get_field_types]: a dict built field by field, a later field of the
    same name replacing an earlier one *)
Definition get_field_types (self : Schema.ArrowSchema) : gmap string string :=
  fold_left (fun m f => <[Schema.name f := Schema.type f]> m)
            (Schema.fields (Schema._arrow_schema self)) ∅.

Definition get_field_count (self : Schema.ArrowSchema) : nat :=
  length (Schema.get_field_names self).

Definition has_field (self : Schema.ArrowSchema) (field_name : string) : bool :=
  PyStr.in_list field_name (Schema.get_field_names self).

(** [schema.field(schema.names.index(field_name))]: the first field of that
    name *)
Fixpoint first_field (field_name : string) (fields : list Schema.Field)
  : option Schema.Field :=
  match fields with
  | [] => None
  | f :: rest =>
      if String.eqb (Schema.name f) field_name then Some f
      else first_field field_name rest
  end.

(** the validation loop of [select] *)
Fixpoint check_fields (schema_field_names field_names : list string)
  : Outcome unit :=
  match field_names with
  | [] => Ok tt
  | field_name :: rest =>
      if negb (PyStr.in_list field_name schema_field_names)
      then Raise (mkExc ValueError
                    ("Field '" ++ field_name ++ "' not found in schema"))
      else check_fields schema_field_names rest
  end.

(** the selection loop of [select] *)
Fixpoint select_fields `{Unicode} (fields : list Schema.Field)
         (field_names : list string) : Outcome (list Schema.Field) :=
  match field_names with
  | [] => Ok []
  | field_name :: rest =>
      match first_field field_name fields with
      | None => Raise (mkExc ValueError
                         (str_repr field_name ++ " is not in list"))
      | Some f =>
          match select_fields fields rest with
          | Ok fs => Ok (f :: fs)
          | Raise e => Raise e
          end
      end
  end.

Definition select `{Unicode} (self : Schema.ArrowSchema)
           (field_names : list string) : Outcome Schema.ArrowSchema :=
  let schema_field_names := Schema.get_field_names self in
  match check_fields schema_field_names field_names with
  | Raise e => Raise e
  | Ok _ =>
      match select_fields (Schema.fields (Schema._arrow_schema self)) field_names with
      | Raise e => Raise e
      | Ok selected_fields =>
          Ok (Schema.mkArrowSchema
                (Schema.mkPaSchema selected_fields
                   (Schema.metadata (Schema._arrow_schema self))))
      end
  end.

Record ValidationResult : Type := mkValidation {
  valid : bool;
  errors : list string;
  warnings : list string
}.

(** [str(field.type).startswith(('list<', 'struct<', 'map<'))] *)
Definition is_complex (f : Schema.Field) : bool :=
  PyStr.startswith (Schema.type f) "list<"
  || PyStr.startswith (Schema.type f) "struct<"
  || PyStr.startswith (Schema.type f) "map<".

(** [not name or not name.strip()] *)
Definition is_blank `{Unicode} (field_name : string) : bool :=
  negb (PyStr.truthy field_name)
  || negb (PyStr.truthy (str_strip field_name)).

Definition validate `{Unicode} (self : Schema.ArrowSchema) : ValidationResult :=
  let field_names := Schema.get_field_names self in
  let duplicates :=
    negb (Nat.eqb (length field_names) (length (remove_dups field_names))) in
  let blanks := existsb is_blank field_names in
  let complex_types :=
    map (fun f => Schema.name f ++ ": " ++ Schema.type f)
        (List.filter is_complex (Schema.fields (Schema._arrow_schema self))) in
  mkValidation
    (negb duplicates && negb blanks)
    ((if duplicates then ["Schema contains duplicate field names"] else [])
     ++ (if blanks then ["Schema contains empty field names"] else []))%list
    (match complex_types with
     | [] => []
     | _ => ["Complex types found that might need special handling: "
             ++ PyStr.join ", " complex_types]
     end).

End SchemaOps.

(** ** Projection ([py4j/java_implementation.py]) *)

Module ReadBuilderImpl.

Record ReadBuilder : Type := mkReadBuilder {
  _j_read_builder : PyVal;
  _j_row_type : PyVal;
  _projection : option (list string)
}.

(** [field_names.index(p)], counting from [i]: the first position that holds
    the string [p] *)
Fixpoint index_from (i : Z) (p : string) (field_names : list PyVal) : option Z :=
  match field_names with
  | [] => None
  | v :: rest =>
      if match v with PStr s => String.eqb s p | _ => false end
      then Some i
      else index_from (i + 1) p rest
  end.

(** [list(map(lambda p: field_names.index(p), projection))]; the message
    of a failed lookup shows [repr(p)] *)
Fixpoint int_projection `{Unicode} (field_names : list PyVal)
         (projection : list string) : Outcome (list Z) :=
  match projection with
  | [] => Ok []
  | p :: rest =>
      match index_from 0 p field_names with
      | None => Raise (mkExc ValueError (str_repr p ++ " is not in list"))
      | Some i =>
          match int_projection field_names rest with
          | Ok l => Ok (i :: l)
          | Raise e => Raise e
          end
      end
  end.

Section Methods.
Context `{Bridge} `{Unicode}.
Local Abbreviation MB := (M ReadBuilder).

(** [field.name()] for every field *)
Fixpoint names_of (fields : list PyVal) : MB (list PyVal) :=
  match fields with
  | [] => ret []
  | f :: rest =>
      n <- method_call f "name" [] ;;
      ns <- names_of rest ;;
      ret (n :: ns)
  end.

(** [list(map(lambda field: field.name(), self._j_row_type.getFields()))] *)
Definition field_names : MB (list PyVal) :=
  b <- get_self ;;
  fields <- method_call (_j_row_type b) "getFields" [] ;;
  match java_list fields with
  | Some fs => names_of fs
  | None => raise (mkExc TypeError "object is not iterable")
  end.

(** [int_projection_arr[i] = int_projection[i]] for every [i] *)
Fixpoint fill_projection (arr : PyVal) (i : Z) (indexes : list Z) : MB unit :=
  match indexes with
  | [] => ret tt
  | x :: rest =>
      method_call arr "__setitem__" [PInt i; PInt x] ;;
      fill_projection arr (i + 1) rest
  end.

(** the lines of [with_projection] after the field names are known *)
Definition project (names : list PyVal) (projection : list string) : MB unit :=
  indexes <- lift (int_projection names projection) ;;
  gateway <- get_gateway ;;
  int_class <- method_call gateway "jvm.int" [] ;;
  arr <- method_call gateway "new_array"
           [int_class; PInt (Z.of_nat (length projection))] ;;
  fill_projection arr 0 indexes ;;
  b <- get_self ;;
  method_call (_j_read_builder b) "withProjection" [arr] ;;
  ret tt.

(** [with_projection] *)
Definition with_projection (projection : list string) : MB unit :=
  modify (fun b => mkReadBuilder (_j_read_builder b) (_j_row_type b)
                     (Some projection)) ;;
  names <- field_names ;;
  project names projection.

End Methods.
End ReadBuilderImpl.

(** ** Reading through the table-read interface ([api/fluss_table_read.py]) *)

Module TableReadImpl.

(** [limit or 1000] *)
Definition limit_or_default (limit : option Z) : Z :=
  match limit with
  | Some l => if l =? 0 then 1000 else l
  | None => 1000
  end.

Section Methods.
Context `{Bridge}.
Local Abbreviation MR := (M Reader.FlussDataReader).

(** [read_records] *)
Definition read_records (limit : option Z) : MR (list Reader.Row) :=
  Reader.read_rows (limit_or_default limit).

(** [sample] *)
Definition sample (n : Z) : MR (list Reader.Row) := read_records (Some n).

(** the batches of the generator [read_batch], bounded by [fuel]; [None]
    when the fuel runs out before an empty batch *)
Fixpoint read_batch (fuel : nat) (batch_size : Z)
  : MR (option (list (list Reader.Row))) :=
  match fuel with
  | O => ret None
  | S fuel' =>
      batch <- Reader.read_rows batch_size ;;
      match batch with
      | [] => ret (Some [])
      | _ =>
          rest <- read_batch fuel' batch_size ;;
          ret (match rest with
               | Some bs => Some (batch :: bs)
               | None => None
               end)
      end
  end.

(** [count]: the sum of the lengths of the batches of [read_batch()] *)
Definition count (fuel : nat) : MR (option nat) :=
  batches <- read_batch fuel 1000 ;;
  ret (match batches with
       | Some bs => Some (fold_left (fun n b => (n + length b)%nat) bs O)
       | None => None
       end).

End Methods.
End TableReadImpl.

(** ** More notions for the properties *)

(** [m] leaves the observation [f] of the object as it was *)
Definition keeps `{Bridge} {Self A B : Type} (f : Self -> B) (m : M Self A)
  : Prop :=
  forall env, f (self (snd (m env))) = f (self env).

(** The text of a remote exception can be fetched: the bridge answers the
    request for it with a string, whatever the world. *)
Definition texts_available `{Bridge} : Prop :=
  forall (c : RemoteCall) (w : World),
    rc_method c = JAVA_ERROR_TEXT -> exists s, fst (remote c w) = Ok (PStr s).

(** The attempts of the retry wrapper that fail, in a row:
    [failed_attempts op max_retries timeout k env errors env'] says that
    the attempts numbered [k], [k + 1], ... that start from [env] raise the
    exceptions [errors] in this order, each attempt starting in the state
    that the handler of the failure before it has left, and that the
    handler of the last one leaves [env']. *)
Inductive failed_attempts `{Bridge}
          (operation_func : M FlussConnection PyVal) (max_retries timeout : Z)
  : Z -> Env FlussConnection -> list PyExc -> Env FlussConnection -> Prop :=
| failed_none (k : Z) (env : Env FlussConnection) :
    failed_attempts operation_func max_retries timeout k env [] env
| failed_next (k : Z) (env env1 env2 env3 : Env FlussConnection)
              (e : PyExc) (errors : list PyExc) :
    (emit EInvoke ;; attempt operation_func timeout) env = (Raise e, env1) ->
    attempt_failed max_retries k e env1 = (Ok tt, env2) ->
    failed_attempts operation_func max_retries timeout (k + 1) env2 errors env3 ->
    failed_attempts operation_func max_retries timeout k env (e :: errors) env3.

(** [e] is the consolidated error of three attempts on [op] that failed in
    a row from [env]: its message ends with the text of the exception of
    the third attempt, fetched in the state the attempts have left. *)
Definition consolidated `{Bridge} (op : M FlussConnection PyVal)
           (env : Env FlussConnection) (e : PyExc) : Prop :=
  exists errors env_k text,
    failed_attempts op 3 30 0 env errors env_k /\
    length errors = 3%nat /\
    fst (str_last (last errors) env_k) = Ok text /\
    e = retry_error 3 text.


(** the exception of [_ensure_connected] *)
Definition not_connected_error : PyExc :=
  mkExc ConnectionError "Not connected to Fluss. Call connect() first.".

(** The invocations, warnings and sleeps of a run of the retry wrapper in
    which the attempts failed with [errors] and the next one succeeded: a
    sleep after every failure. *)
Fixpoint schedule_until_success (attempt : Z) (errors : list PyExc)
  : list Event :=
  match errors with
  | [] => [EInvoke]
  | e :: rest =>
      EInvoke :: EAttemptFailed attempt e :: ESleep attempt
      :: schedule_until_success (attempt + 1) rest
  end.

(** a string of decimal digits, of white space *)
Definition all_digits (s : string) : bool :=
  forallb PyStr.is_digit (list_ascii_of_string s).

Definition all_spaces (s : string) : bool :=
  forallb PyStr.is_space (list_ascii_of_string s).

(** a string without the character ['.'] *)
Definition no_dot (s : string) : bool := negb (PyStr.has_char "." s).

(** an event that is no call of the teardown: closing the remote
    connection, shutting the bridge down, terminating the subprocess *)
Definition no_teardown (ev : Event) : Prop :=
  not_call_of "close" ev /\ not_call_of "shutdown" ev
  /\ not_call_of "terminate" ev /\ not_call_of "wait" ev.

(** the first character of [s] satisfies [p] *)
Definition head_is (p : ascii -> bool) (s : string) : bool :=
  match s with
  | String c _ => p c
  | EmptyString => false
  end.

(** [P] holds of every event but, possibly, the calls of [method] *)
Definition spares (P : Event -> Prop) (method : string) : Prop :=
  (forall target name args,
      String.eqb name method = false -> P (ECall (mkCall target name args))) /\
  P EInvoke /\
  (forall attempt e, P (EAttemptFailed attempt e)) /\
  (forall seconds, P (ESleep seconds)).

(** A bridge on which a table has two columns: the list of field names is
    the handle [PObj 2], whose elements are the name [id]; [size()] answers
    2, [toString()] a type name, every other call a handle. *)
Definition schema_bridge : Bridge := {|
  World := unit;
  remote := fun c w =>
    if String.eqb (rc_method c) "size" then (Ok (PInt 2), w)
    else if String.eqb (rc_method c) "toString" then (Ok (PStr "INT"), w)
    else if String.eqb (rc_method c) "getFieldNames" then (Ok (PObj 2), w)
    else if String.eqb (rc_method c) "get" then
      (match rc_target c with
       | PObj 2 => Ok (PStr "id")
       | _ => Ok (PObj 4)
       end, w)
    else (Ok (PObj 1), w);
  java_list := fun _ => None
|}.

(** A bridge on which a read never comes back empty: every batch has one
    row, a plain string. *)
Definition endless_bridge : Bridge := {|
  World := unit;
  remote := fun _ w => (Ok (PObj 1), w);
  java_list := fun _ => Some [PStr "row"]
|}.

(** A bridge on which the writer reports its count as an object whose
    string form cannot be had: [toString] raises, every other call answers
    with a handle. *)
Definition count_bridge : Bridge := {|
  World := unit;
  remote := fun c w =>
    if String.eqb (rc_method c) "toString"
    then (Raise (mkExc Py4JNetworkError "Error while sending or receiving"), w)
    else (Ok (PObj 1), w);
  java_list := fun _ => None
|}.

(** what a data operation on an open writer answers: a truth value for
    [write_row], a value for [write_rows], nothing for [flush] *)
Definition writer_answer (op : Writer.Op) (r : Outcome PyVal) : Prop :=
  match op with
  | Writer.OpWriteRow _ => exists b, r = Ok (PBool b)
  | Writer.OpWriteRows _ => exists v, r = Ok v
  | Writer.OpFlush => r = Ok PNone
  | _ => True
  end.

(** what a data operation on an open reader answers: [None] or a row for
    [read_row], rows for [read_rows]; for [read_all], rows, unless the loop
    is still running when the bound is reached *)
Definition reader_answer (op : Reader.Op) (r : Outcome Reader.Result) : Prop :=
  match op with
  | Reader.OpReadRow => r = Ok Reader.RNone \/ exists row, r = Ok (Reader.RRow row)
  | Reader.OpReadRows _ => exists rows, r = Ok (Reader.RRows rows)
  | Reader.OpReadAll _ =>
      r = Ok Reader.RUnfinished \/ exists rows, r = Ok (Reader.RRows rows)
  | _ => True
  end.

(** an open reader and an open writer on the handles [PObj 20] and [PObj 10] *)
Definition open_reader_handle : Reader.FlussDataReader :=
  Reader.mkReader (PObj 20) (PObj 10) false.

Definition open_writer_handle : Writer.FlussDataWriter :=
  Writer.mkWriter (PObj 21) (PObj 10) false.

(** the answer of the bridge to a read of a batch is an exception, whatever
    the world *)
Definition reads_fail `{Bridge} : Prop :=
  forall (c : RemoteCall) (w : World),
    rc_method c = "readBatchData" -> exists e, fst (remote c w) = Raise e.

(** * Properties *)

(** ** Strings *)

Lemma string_app_cons (a : ascii) (p r : string) :
  String a p ++ r = String a (p ++ r).
Proof. reflexivity. Qed.

Lemma string_app_nil (r : string) : "" ++ r = r.
Proof. reflexivity. Qed.

Lemma prefix_app_iff (p s : string) :
  String.prefix p s = true <-> exists r, s = p ++ r.
Proof.
  revert s. induction p as [|a p IH]; intros s.
  - destruct s; simpl; split; eauto.
  - destruct s as [|b s]; simpl.
    + split; [discriminate | intros [r Hr]; discriminate].
    + destruct (ascii_dec a b) as [->|Hne].
      * rewrite IH. split; intros [r Hr]; exists r.
        -- rewrite string_app_cons. now rewrite Hr.
        -- rewrite string_app_cons in Hr. now injection Hr.
      * split; [discriminate |].
        intros [r Hr]. rewrite string_app_cons in Hr. congruence.
Qed.

Lemma contains_iff (sub s : string) :
  PyStr.contains sub s = true <-> exists a b, s = a ++ sub ++ b.
Proof.
  induction s as [|c s IH].
  - cbn [PyStr.contains]. rewrite orb_false_r, prefix_app_iff. split.
    + intros [r Hr]. exists "", r. exact Hr.
    + intros (a & b & Hab). destruct a as [|c a].
      * rewrite string_app_nil in Hab. eauto.
      * rewrite string_app_cons in Hab. discriminate.
  - cbn [PyStr.contains]. rewrite orb_true_iff, prefix_app_iff, IH. split.
    + intros [[r Hr] | (a & b & Hab)].
      * exists "", r. exact Hr.
      * exists (String c a), b. rewrite string_app_cons. congruence.
    + intros (a & b & Hab). destruct a as [|c' a].
      * left. rewrite string_app_nil in Hab. eauto.
      * right. rewrite string_app_cons in Hab. exists a, b. congruence.
Qed.

Lemma string_app_assoc (a b c : string) : (a ++ b) ++ c = a ++ b ++ c.
Proof.
  induction a as [|x a IH]; [reflexivity|].
  now rewrite !string_app_cons, IH.
Qed.

Lemma contains_bigint_int (s : string) :
  PyStr.contains "bigint" s = true -> PyStr.contains "int" s = true.
Proof.
  rewrite !contains_iff. intros (a & b & ->).
  exists (a ++ "big"), b. rewrite string_app_assoc. reflexivity.
Qed.

(** ** Remote-to-local type inference *)

(** The [int] test comes first and shadows the [bigint] branch: no remote
    type is ever inferred to be [int64]. *)
Lemma java_type_never_int64 (j_data_type : string) :
  _java_type_to_arrow_type j_data_type <> pa_int64.
Proof.
  unfold _java_type_to_arrow_type.
  destruct (PyStr.contains "int" (PyStr.lower j_data_type)) eqn:Hint;
    [discriminate|].
  destruct (PyStr.contains "bigint" (PyStr.lower j_data_type)) eqn:Hbig.
  - apply contains_bigint_int in Hbig. congruence.
  - repeat match goal with
           | |- context [if ?b then _ else _] => destruct b
           end; discriminate.
Qed.

(** A string form that contains [int] is inferred to be [int32], whether or
    not it contains [bigint]. *)
Lemma java_type_int_is_int32 (j_data_type : string) :
  PyStr.contains "int" (PyStr.lower j_data_type) = true ->
  _java_type_to_arrow_type j_data_type = pa_int32.
Proof. intros Hint. unfold _java_type_to_arrow_type. now rewrite Hint. Qed.

Lemma java_type_bigint_is_int32 (j_data_type : string) :
  PyStr.contains "bigint" (PyStr.lower j_data_type) = true ->
  _java_type_to_arrow_type j_data_type = pa_int32.
Proof. intros Hbig. apply java_type_int_is_int32, contains_bigint_int, Hbig. Qed.

(** C1, the divergence: the remote type [BIGINT], whose lower-cased string
    form contains [bigint], is inferred to be the 32-bit integer type
    [int32], where the claim has the 64-bit type [int64]. *)
Theorem bigint_inferred_as_int32 :
  PyStr.contains "bigint" (PyStr.lower "BIGINT") = true /\
  _java_type_to_arrow_type "BIGINT" = pa_int32.
Proof. split; reflexivity. Qed.

(** ** Local-to-remote type mapping *)

Lemma in_list_app (x : string) (l1 l2 : list string) :
  PyStr.in_list x (l1 ++ l2) = PyStr.in_list x l1 || PyStr.in_list x l2.
Proof. unfold PyStr.in_list. apply existsb_app. Qed.

(** C7: a type tag whose upper-cased form (by [upper()] of Python, whatever
    the characters of the tag) is none of STRING, VARCHAR, INT64, BIGINT,
    LONG, INT32, INT, INTEGER, FLOAT64, DOUBLE, FLOAT, FLOAT32, BOOL, BOOLEAN
    and starts with neither TIMESTAMP nor DECIMAL is mapped to the remote
    STRING type, and the mapping raises nothing. *)
Theorem unknown_tag_maps_to_string `{Unicode} (col_type : string) :
  recognized_tag (str_upper col_type) = false ->
  _map_type_to_fluss_datatype col_type = Ok DT_STRING.
Proof.
  unfold recognized_tag, _map_type_to_fluss_datatype.
  set (u := str_upper col_type). intros Hrec.
  apply orb_false_elim in Hrec as [Hrec Hdec].
  apply orb_false_elim in Hrec as [Hin Hts].
  change ["STRING"; "VARCHAR"; "INT64"; "BIGINT"; "LONG"; "INT32"; "INT";
          "INTEGER"; "FLOAT64"; "DOUBLE"; "FLOAT"; "FLOAT32"; "BOOL"; "BOOLEAN"]
    with (["STRING"; "VARCHAR"] ++ ["INT64"; "BIGINT"; "LONG"] ++
          ["INT32"; "INT"; "INTEGER"] ++ ["FLOAT64"; "DOUBLE"; "FLOAT"] ++
          ["FLOAT32"] ++ ["BOOL"; "BOOLEAN"])%list in Hin.
  rewrite !in_list_app in Hin.
  do 5 (apply orb_false_elim in Hin as [?H Hin]).
  repeat match goal with
         | Heq : ?b = false |- context [if ?b then _ else _] => rewrite Heq
         end.
  reflexivity.
Qed.

Lemma unknown_tag_maps_to_string_witness :
  recognized_tag (@str_upper ascii_unicode "blob") = false /\
  @_map_type_to_fluss_datatype ascii_unicode "blob" = Ok DT_STRING.
Proof.
  split; [reflexivity|].
  apply (unknown_tag_maps_to_string (H := ascii_unicode) "blob"). reflexivity.
Defined.

(** ** Primary keys in the schema metadata *)

Lemma split_no_sep (c : ascii) (x : string) :
  PyStr.has_char c x = false -> PyStr.split c x = [x].
Proof.
  induction x as [|a x IH]; [reflexivity|].
  cbn [PyStr.has_char PyStr.split]. intros Hx.
  apply orb_false_elim in Hx as [Ha Hx].
  now rewrite Ha, (IH Hx).
Qed.

Lemma split_app_sep (c : ascii) (x rest : string) :
  PyStr.has_char c x = false ->
  PyStr.split c (x ++ String c rest) = x :: PyStr.split c rest.
Proof.
  induction x as [|a x IH].
  - intros _. rewrite string_app_nil. cbn [PyStr.split].
    now rewrite Ascii.eqb_refl.
  - cbn [PyStr.has_char]. intros Hx.
    apply orb_false_elim in Hx as [Ha Hx].
    rewrite string_app_cons. cbn [PyStr.split].
    now rewrite Ha, (IH Hx).
Qed.

(** [sep.join(l).split(sep) == l] for a non-empty [l] of strings without the
    separator *)
Lemma split_join (c : ascii) (l : list string) :
  l <> [] ->
  Forall (fun x => PyStr.has_char c x = false) l ->
  PyStr.split c (PyStr.join (String c "") l) = l.
Proof.
  intros Hne Hall. induction Hall as [|x l Hx Hall IH]; [congruence|].
  destruct l as [|y l].
  - apply split_no_sep, Hx.
  - unfold PyStr.join in *. cbn [String.concat].
    rewrite string_app_cons, string_app_nil, (split_app_sep _ _ _ Hx).
    f_equal. apply IH. discriminate.
Qed.

Lemma join_truthy (sep : string) (l : list string) :
  l <> [] -> Forall (fun x => x <> "") l ->
  PyStr.truthy (PyStr.join sep l) = true.
Proof.
  intros Hne Hall. destruct Hall as [|x l Hx Hall]; [congruence|].
  destruct x as [|a x]; [congruence|].
  unfold PyStr.join. destruct l; reflexivity.
Qed.

Lemma in_list_elem_of (x : string) (l : list string) :
  PyStr.in_list x l = true <-> x ∈ l.
Proof.
  unfold PyStr.in_list. rewrite existsb_exists, list_elem_of_In. split.
  - intros (y & Hy & Heq). apply String.eqb_eq in Heq. now subst.
  - intros Hx. exists x. split; [exact Hx | apply String.eqb_refl].
Qed.

Lemma check_primary_keys_ok (field_names primary_keys : list string) :
  (forall pk, pk ∈ primary_keys -> pk ∈ field_names) ->
  Schema.check_primary_keys field_names primary_keys = Ok tt.
Proof.
  induction primary_keys as [|pk rest IH]; intros Hsub; [reflexivity|].
  cbn [Schema.check_primary_keys].
  assert (Hpk : PyStr.in_list pk field_names = true).
  { apply in_list_elem_of, Hsub. left. }
  rewrite Hpk. apply IH. intros pk' Hin. apply Hsub. now right.
Qed.

(** C4, as amended: for a schema whose field names are non-empty and a
    non-empty list of primary keys taken from those names, none of which
    contains a comma, encoding the primary keys into the schema metadata
    (joined by commas under the key [primary_keys]) succeeds, decoding gives
    back the same list in the same order, and the fields of the schema
    (names, order, nullability) are unchanged. *)
Theorem primary_keys_round_trip
        (s : Schema.ArrowSchema) (primary_keys : list string) :
  primary_keys <> [] ->
  (forall n, n ∈ Schema.get_field_names s -> n <> "") ->
  (forall pk, pk ∈ primary_keys -> pk ∈ Schema.get_field_names s) ->
  (forall pk, pk ∈ primary_keys -> PyStr.has_char "," pk = false) ->
  exists s',
    Schema.with_primary_keys s primary_keys = Ok s' /\
    Schema.get_primary_keys s' = Some primary_keys /\
    Schema.fields (Schema._arrow_schema s') = Schema.fields (Schema._arrow_schema s) /\
    Schema.get_field_names s' = Schema.get_field_names s.
Proof.
  intros Hne Hnames Hsub Hcomma.
  unfold Schema.with_primary_keys.
  rewrite (check_primary_keys_ok _ _ Hsub).
  eexists. split; [reflexivity|]. split; [|split; reflexivity].
  unfold Schema.get_primary_keys. cbn [Schema._arrow_schema Schema.with_metadata Schema.metadata].
  assert (Hjoin : PyStr.truthy (PyStr.join "," primary_keys) = true).
  { apply join_truthy; [exact Hne|].
    apply Forall_forall. intros pk Hpk. apply Hnames, Hsub, Hpk. }
  unfold Schema.metadata_truthy at 1.
  rewrite bool_decide_eq_false_2 by apply insert_non_empty.
  cbn [negb default]. unfold id. rewrite lookup_insert_eq.
  unfold Schema.encode_utf8, Schema.decode_utf8. rewrite Hjoin.
  f_equal. apply split_join; [exact Hne|].
  apply Forall_forall. intros pk Hpk. apply Hcomma, Hpk.
Qed.

Lemma primary_keys_round_trip_witness :
  exists s',
    Schema.with_primary_keys scenario_schema ["key"] = Ok s' /\
    Schema.get_primary_keys s' = Some ["key"] /\
    Schema.fields (Schema._arrow_schema s')
    = Schema.fields (Schema._arrow_schema scenario_schema) /\
    Schema.get_field_names s' = Schema.get_field_names scenario_schema.
Proof.
  apply (primary_keys_round_trip scenario_schema ["key"]).
  - discriminate.
  - apply Forall_forall. vm_compute. repeat constructor; discriminate.
  - apply Forall_forall. vm_compute. repeat constructor.
  - apply Forall_forall. repeat constructor.
Defined.

(** C4, the counterexample: the field names [a,b] and [value] are unique and
    non-empty and the primary-key list [["a,b"]] is a non-empty subset of
    them, yet decoding gives the two keys [a] and [b]. *)
Lemma primary_keys_comma_counterexample :
  NoDup (Schema.get_field_names comma_schema) /\
  Forall (fun n => n <> "") (Schema.get_field_names comma_schema) /\
  Forall (fun pk => pk ∈ Schema.get_field_names comma_schema) ["a,b"] /\
  exists s',
    Schema.with_primary_keys comma_schema ["a,b"] = Ok s' /\
    Schema.get_primary_keys s' = Some ["a"; "b"] /\
    Schema.get_primary_keys s' <> Some ["a,b"].
Proof.
  split; [|split; [|split]].
  - vm_compute. repeat constructor; intros Hin;
      repeat (apply elem_of_cons in Hin as [Hin|Hin]; [discriminate|]);
      inversion Hin.
  - vm_compute. repeat constructor; discriminate.
  - vm_compute. repeat constructor.
  - eexists. split; [reflexivity|]. split; [reflexivity | discriminate].
Qed.

(** ** What a computation adds to the trace *)

Section Emits.
Context `{Bridge} {Self : Type} (P : Event -> Prop).

Lemma emits_ret {A} (a : A) : emits P (ret a : M Self A).
Proof. intros env. exists []. split; [symmetry; apply app_nil_r | constructor]. Qed.

Lemma emits_raise {A} (e : PyExc) : emits P (raise e : M Self A).
Proof. intros env. exists []. split; [symmetry; apply app_nil_r | constructor]. Qed.

Lemma emits_lift {A} (r : Outcome A) : emits P (lift r : M Self A).
Proof. intros env. exists []. split; [symmetry; apply app_nil_r | constructor]. Qed.

Lemma emits_get_self : emits P (get_self : M Self Self).
Proof. intros env. exists []. split; [symmetry; apply app_nil_r | constructor]. Qed.

Lemma emits_modify (f : Self -> Self) : emits P (modify f).
Proof. intros env. exists []. split; [symmetry; apply app_nil_r | constructor]. Qed.

Lemma emits_emit (ev : Event) : P ev -> emits P (emit ev : M Self unit).
Proof. intros Hev env. exists [ev]. split; [reflexivity | repeat constructor; exact Hev]. Qed.

Lemma emits_sleep (seconds : Z) : P (ESleep seconds) -> emits P (sleep seconds : M Self unit).
Proof. apply emits_emit. Qed.

Lemma emits_call (c : RemoteCall) : P (ECall c) -> emits P (call c : M Self PyVal).
Proof.
  intros Hc env. exists [ECall c]. unfold call.
  destruct (remote c (world env)) as [r w].
  split; [reflexivity | repeat constructor; exact Hc].
Qed.

Lemma emits_method_call (target : PyVal) (name : string) (args : list PyVal) :
  P (ECall (mkCall target name args)) ->
  emits P (method_call target name args : M Self PyVal).
Proof.
  intros Hc. destruct target; cbn [method_call];
    first [apply emits_raise | apply emits_call, Hc].
Qed.

Lemma emits_bind {A B} (m : M Self A) (k : A -> M Self B) :
  emits P m -> (forall a, emits P (k a)) -> emits P (bind m k).
Proof.
  intros Hm Hk env. unfold bind.
  destruct (Hm env) as (added1 & E1 & F1).
  destruct (m env) as [[a|e] env1]; cbn [snd] in *.
  - destruct (Hk a env1) as (added2 & E2 & F2).
    exists (added1 ++ added2)%list. split.
    + now rewrite E2, E1, app_assoc.
    + apply Forall_app. now split.
  - now exists added1.
Qed.

Lemma emits_reify {A} (m : M Self A) : emits P m -> emits P (reify m).
Proof.
  intros Hm env. unfold reify.
  destruct (Hm env) as (added & E & F).
  destruct (m env) as [r env1]. now exists added.
Qed.

Lemma emits_try_except {A} (m : M Self A) (h : PyExc -> M Self A) :
  emits P m -> (forall e, emits P (h e)) -> emits P (try_except m h).
Proof.
  intros Hm Hh. unfold try_except. apply emits_bind.
  - apply emits_reify, Hm.
  - intros [a|e]; [apply emits_ret | apply Hh].
Qed.

Lemma emits_py_str (v : PyVal) :
  (forall t a, P (ECall (mkCall t "toString" a))) ->
  emits P (py_str v : M Self string).
Proof.
  intros Hc. destruct v as [| [|] | | | |]; cbn [py_str]; try apply emits_ret.
  apply emits_bind; [apply emits_call, Hc|].
  intros r. destruct r; first [apply emits_ret | apply emits_raise].
Qed.

Lemma emits_exc_str (e : PyExc) :
  (forall t a, P (ECall (mkCall t JAVA_ERROR_TEXT a))) ->
  (forall t a, P (ECall (mkCall t "toString" a))) ->
  emits P (exc_str e : M Self string).
Proof.
  intros Ht Hs. unfold exc_str. destruct (exc_class e); try apply emits_ret.
  apply emits_bind; [apply emits_call, Ht | intros r].
  apply emits_bind; [apply emits_py_str, Hs | intros s; apply emits_ret].
Qed.

End Emits.

(** the structural steps of a proof of [emits] *)
Ltac emits_step :=
  first
    [ apply emits_ret
    | apply emits_raise
    | apply emits_lift
    | apply emits_get_self
    | apply emits_modify
    | apply emits_try_except; [|intros ?]
    | apply emits_reify
    | apply emits_bind; [|intros ?]
    | match goal with
      | |- emits _ (if ?b then _ else _) => destruct b
      | |- emits _ (match ?x with _ => _ end) => destruct x
      end ].

Lemma emits_bind_lift `{Bridge} {Self A B : Type} (P : Event -> Prop)
      (r : Outcome A) (k : A -> M Self B) :
  (forall a, r = Ok a -> emits P (k a)) -> emits P (bind (lift r) k).
Proof.
  intros Hk env. unfold bind, lift. destruct r as [a|e].
  - now apply Hk.
  - exists []. split; [symmetry; apply app_nil_r | constructor].
Qed.

Lemma calls_satisfy_other (method : string) (Q : list PyVal -> Prop)
      (target : PyVal) (name : string) (args : list PyVal) :
  name <> method -> calls_satisfy method Q (ECall (mkCall target name args)).
Proof. intros Hne Heq. cbn in Heq. congruence. Qed.

Lemma calls_satisfy_same (method : string) (Q : list PyVal -> Prop)
      (target : PyVal) (args : list PyVal) :
  Q args -> calls_satisfy method Q (ECall (mkCall target method args)).
Proof. intros HQ _. exact HQ. Qed.

Section EmitsConnection.
Context `{Bridge} (P : Event -> Prop).
Hypothesis P_invoke : P EInvoke.
Hypothesis P_failed : forall k e, P (EAttemptFailed k e).
Hypothesis P_sleep : forall k, P (ESleep k).
Hypothesis P_seconds :
  forall t a, P (ECall (mkCall t "jvm.java.util.concurrent.TimeUnit.SECONDS" a)).
Hypothesis P_get : forall t a, P (ECall (mkCall t "get" a)).
Hypothesis P_create : forall t a, P (ECall (mkCall t "createConnection" a)).
Hypothesis P_text : forall t a, P (ECall (mkCall t JAVA_ERROR_TEXT a)).
Hypothesis P_string : forall t a, P (ECall (mkCall t "toString" a)).

Lemma emits_text (e : PyExc) : emits P (exc_str e : M FlussConnection string).
Proof. apply emits_exc_str; [exact P_text | exact P_string]. Qed.

Lemma emits_ensure_connected : emits P _ensure_connected.
Proof. unfold _ensure_connected. repeat emits_step. Qed.

Lemma emits_get_connection : emits P _get_connection.
Proof.
  unfold _get_connection.
  repeat first [apply emits_ensure_connected
               | apply emits_method_call, P_create
               | emits_step].
Qed.

Lemma emits_handle_async (future_result : PyVal) (timeout : Z) :
  emits P (_handle_async_operation future_result timeout).
Proof.
  unfold _handle_async_operation.
  apply emits_try_except.
  - repeat first [apply emits_method_call; first [apply P_seconds | apply P_get]
                 | emits_step].
  - intros e.
    destruct (exc_class e); repeat first [apply emits_text | emits_step].
Qed.

Lemma emits_retry_loop (operation_func : M FlussConnection PyVal)
      (max_retries timeout : Z) (attempts : list Z) (last : option PyExc) :
  emits P operation_func ->
  emits P (retry_loop operation_func max_retries timeout attempts last).
Proof.
  intros Hop. revert last.
  induction attempts as [|attempt_number rest IH]; intros last;
    cbn [retry_loop].
  - apply emits_bind; [|intros text; apply emits_raise].
    destruct last; [apply emits_text | apply emits_ret].
  - apply emits_bind.
    + apply emits_reify, emits_bind; [apply emits_emit, P_invoke | intros _].
      apply emits_bind; [exact Hop | intros f; apply emits_handle_async].
    + intros [result|e]; [apply emits_ret|].
      apply emits_bind; [|intros _; apply IH].
      unfold attempt_failed.
      apply emits_bind; [apply emits_text | intros _].
      apply emits_bind; [apply emits_emit, P_failed | intros _].
      destruct (attempt_number <? max_retries - 1);
        [apply emits_sleep, P_sleep | apply emits_ret].
Qed.

Lemma emits_retry (operation_func : M FlussConnection PyVal)
      (max_retries timeout : Z) :
  emits P operation_func ->
  emits P (_handle_async_operation_with_retry operation_func max_retries timeout).
Proof. apply emits_retry_loop. Qed.

End EmitsConnection.

(** the trace obligations on single events *)
Ltac event_ok :=
  intros;
  first [ exact I
        | apply calls_satisfy_other; discriminate
        | apply calls_satisfy_same; eauto
        | cbn; discriminate ].

Ltac emits_conn :=
  repeat first
    [ apply emits_ensure_connected
    | apply emits_get_connection
    | apply emits_retry
    | apply emits_text
    | apply emits_method_call
    | emits_step ];
  try event_ok.

(** ** Dropping databases and tables *)

(** C9: the [if_exists] argument of [drop_database] and [drop_table] has no
    effect: two calls on the same state that differ only in [if_exists]
    give the same result, the same state and the same trace, and every
    remote drop call they issue carries the hard-coded [False] as its
    ignore-if-not-exists argument. *)
Theorem drop_ignores_if_exists `{Bridge}
        (database_name table_name : string) (if_exists if_exists' : bool)
        (env : Env FlussConnection) :
  drop_database database_name if_exists env
  = drop_database database_name if_exists' env /\
  drop_table database_name table_name if_exists env
  = drop_table database_name table_name if_exists' env /\
  emits (calls_satisfy "dropDatabase"
           (eq [PStr database_name; PBool false; PBool false]))
        (drop_database database_name if_exists) /\
  emits (calls_satisfy "dropTable"
           (fun args => exists table_path, args = [table_path; PBool false]))
        (drop_table database_name table_name if_exists).
Proof.
  split; [reflexivity|]. split; [reflexivity|]. split.
  - unfold drop_database. emits_conn.
  - unfold drop_table. emits_conn.
Qed.

(** On a connected handle with a cached remote connection whose calls
    answer, the remote drop call is issued, with [False] for
    ignore-if-not-exists, whatever [if_exists] is. *)
Example drop_database_issues_hard_coded_false :
  forall if_exists : bool,
    trace (snd (@drop_database answering_bridge "tmp_db" if_exists
                  (start_env answering_bridge connected_conn tt)))
    = [ECall (mkCall (PObj 13) "getAdmin" []);
       EInvoke;
       ECall (mkCall (PObj 1) "dropDatabase"
                [PStr "tmp_db"; PBool false; PBool false]);
       ECall (mkCall (PObj 10) "jvm.java.util.concurrent.TimeUnit.SECONDS" []);
       ECall (mkCall (PObj 1) "get" [PInt 30; PObj 1])].
Proof. intros []; reflexivity. Qed.

(** ** Worker-count admission *)

Lemma emits_arrow_fields `{Bridge} (P : Event -> Prop)
      (field_names field_types : list PyVal) :
  (forall t a, P (ECall (mkCall t "toString" a))) ->
  emits P (TableRead.arrow_fields field_names field_types).
Proof.
  intros HP. revert field_types.
  induction field_names as [|n ns IH]; intros field_types;
    cbn [TableRead.arrow_fields]; [apply emits_ret|].
  destruct field_types as [|t ts]; [apply emits_raise|].
  apply emits_bind; [apply emits_py_str, HP | intros type_str].
  destruct n; try apply emits_raise.
  apply emits_bind; [apply IH | intros rest; apply emits_ret].
Qed.

Lemma emits_to_arrow_schema `{Bridge} (P : Event -> Prop) (j_row_type : PyVal) :
  (forall t a, P (ECall (mkCall t "toString" a))) ->
  (forall t a, P (ECall (mkCall t "get_gateway" a))) ->
  (forall t a, P (ECall (mkCall t "getFieldNames" a))) ->
  (forall t a, P (ECall (mkCall t "getChildren" a))) ->
  emits P (TableRead.to_arrow_schema j_row_type).
Proof.
  intros Hs Hg Hn Hc. unfold TableRead.to_arrow_schema, get_gateway.
  apply emits_bind; [apply emits_call, Hg | intros _].
  apply emits_bind; [apply emits_method_call, Hn | intros field_names].
  apply emits_bind; [apply emits_method_call, Hc | intros field_types].
  destruct (java_list field_names) as [ns|]; [|apply emits_raise].
  destruct (java_list field_types) as [ts|].
  - apply emits_arrow_fields, Hs.
  - destruct ns; [apply emits_ret | apply emits_raise].
Qed.

(** When the worker count is refused, the constructor of the table read
    raises and the call that creates the parallel reader is never issued. *)
Lemma init_rejected `{Bridge} `{Unicode}
      (catalog_options : gmap string PyVal) (e : PyExc)
      (pa_available : bool) (j_table_read j_read_type : PyVal)
      (projection primary_keys partition_keys : option (list string))
      (env : Env unit) :
  TableRead._get_max_workers catalog_options = Raise e ->
  exists e' env' added,
    TableRead.__init__ pa_available j_table_read j_read_type catalog_options
      projection primary_keys partition_keys env = (Raise e', env') /\
    trace env' = (trace env ++ added)%list /\
    Forall (not_call_of TableRead.CREATE_READER) added.
Proof.
  intros Hrej. unfold TableRead.__init__.
  set (schema_part :=
         (if pa_available
          then bind (TableRead.to_arrow_schema j_read_type) (fun s => ret (Some s))
          else ret None) : M unit (option (list (string * ArrowType)))).
  assert (Hschema : emits (not_call_of TableRead.CREATE_READER) schema_part).
  { unfold schema_part. destruct pa_available; [|apply emits_ret].
    apply emits_bind; [|intros s; apply emits_ret].
    apply emits_to_arrow_schema; intros; cbn; discriminate. }
  assert (Hgw : emits (not_call_of TableRead.CREATE_READER)
                  (get_gateway : M unit PyVal)).
  { apply emits_call. cbn. discriminate. }
  unfold bind at 1.
  destruct (Hschema env) as (added1 & E1 & F1).
  destruct (schema_part env) as [[arrow_schema|e1] env1]; cbn [snd] in E1.
  - unfold bind at 1.
    destruct (Hgw env1) as (added2 & E2 & F2).
    destruct (get_gateway env1) as [[gateway|e2] env2]; cbn [snd] in E2.
    + unfold bind at 1, lift. rewrite Hrej.
      exists e, env2, (added1 ++ added2)%list. split; [reflexivity|]. split.
      * now rewrite E2, E1, app_assoc.
      * apply Forall_app. now split.
    + exists e2, env2, (added1 ++ added2)%list. split; [reflexivity|]. split.
      * now rewrite E2, E1, app_assoc.
      * apply Forall_app. now split.
  - now exists e1, env1, added1.
Qed.

(** When the worker count is accepted, it is the count the parallel reader
    is created with. *)
Lemma init_uses_count `{Bridge} `{Unicode}
      (catalog_options : gmap string PyVal) (n : Z)
      (pa_available : bool) (j_table_read j_read_type : PyVal)
      (projection primary_keys partition_keys : option (list string)) :
  TableRead._get_max_workers catalog_options = Ok n ->
  emits (calls_satisfy TableRead.CREATE_READER
           (eq [j_table_read; j_read_type; PInt n]))
        (TableRead.__init__ pa_available j_table_read j_read_type
           catalog_options projection primary_keys partition_keys).
Proof.
  intros Hcount. unfold TableRead.__init__.
  assert (Hother : forall t name a,
             name <> TableRead.CREATE_READER ->
             calls_satisfy TableRead.CREATE_READER
               (eq [j_table_read; j_read_type; PInt n])
               (ECall (mkCall t name a))).
  { intros t name a Hne. now apply calls_satisfy_other. }
  apply emits_bind.
  { destruct pa_available; [|apply emits_ret].
    apply emits_bind; [|intros s; apply emits_ret].
    apply emits_to_arrow_schema; intros; apply Hother; discriminate. }
  intros arrow_schema. apply emits_bind.
  { apply emits_call, Hother. discriminate. }
  intros gateway. apply emits_bind_lift. intros max_workers Hn.
  rewrite Hcount in Hn. injection Hn as <-.
  apply emits_bind; [|intros r; apply emits_ret].
  apply emits_method_call, calls_satisfy_same. reflexivity.
Qed.

(** C8: the worker count is the integer value of the [max-workers] option,
    1 when the option is absent.  A value [v <= 0] is refused with an error,
    and then no table read is made and the parallel reader is never
    created; a value [v > 0] is accepted and returned unchanged, and it is
    the count every call that creates the parallel reader carries.  The
    same holds of any value through its [int()]. *)
Theorem worker_count_admission `{Bridge} `{Unicode}
        (catalog_options : gmap string PyVal) :
  (catalog_options !! TableRead.MAX_WORKERS = None ->
   TableRead._get_max_workers catalog_options = Ok 1) /\
  (forall v : Z,
      catalog_options !! TableRead.MAX_WORKERS = Some (PInt v) ->
      (v <= 0 ->
       TableRead._get_max_workers catalog_options
       = Raise (mkExc ValueError "max_workers must be greater than 0")) /\
      (0 < v -> TableRead._get_max_workers catalog_options = Ok v)) /\
  (forall (v : PyVal) (n : Z),
      catalog_options !! TableRead.MAX_WORKERS = Some v ->
      TableRead.py_int v = Ok n ->
      (n <= 0 ->
       TableRead._get_max_workers catalog_options
       = Raise (mkExc ValueError "max_workers must be greater than 0")) /\
      (0 < n -> TableRead._get_max_workers catalog_options = Ok n)) /\
  (forall e concrete pa_available j_table_read j_read_type projection
          primary_keys partition_keys env,
      TableRead._get_max_workers catalog_options = Raise e ->
      exists e' env' added,
        TableRead.instantiate concrete pa_available j_table_read j_read_type
          catalog_options projection primary_keys partition_keys env
        = (Raise e', env') /\
        trace env' = (trace env ++ added)%list /\
        Forall (not_call_of TableRead.CREATE_READER) added) /\
  (forall n concrete pa_available j_table_read j_read_type projection
          primary_keys partition_keys,
      TableRead._get_max_workers catalog_options = Ok n ->
      emits (calls_satisfy TableRead.CREATE_READER
               (eq [j_table_read; j_read_type; PInt n]))
            (TableRead.instantiate concrete pa_available j_table_read
               j_read_type catalog_options projection primary_keys
               partition_keys)).
Proof.
  assert (Hgen : forall (v : PyVal) (n : Z),
             catalog_options !! TableRead.MAX_WORKERS = Some v ->
             TableRead.py_int v = Ok n ->
             (n <= 0 ->
              TableRead._get_max_workers catalog_options
              = Raise (mkExc ValueError "max_workers must be greater than 0")) /\
             (0 < n -> TableRead._get_max_workers catalog_options = Ok n)).
  { intros v n Hv Hn. unfold TableRead._get_max_workers.
    rewrite Hv. cbn [default]. unfold id. rewrite Hn. split; intros Hle.
    - apply Z.leb_le in Hle. now rewrite Hle.
    - apply Z.leb_gt in Hle. now rewrite Hle. }
  split; [|split; [|split; [|split]]].
  - intros Hnone. unfold TableRead._get_max_workers. now rewrite Hnone.
  - intros v Hv. now apply (Hgen (PInt v) v).
  - exact Hgen.
  - intros e concrete pa_available j_table_read j_read_type projection
           primary_keys partition_keys env Hrej.
    destruct concrete; cbn [TableRead.instantiate].
    + exact (init_rejected _ e _ _ _ _ _ _ env Hrej).
    + eexists _, env, []. split; [reflexivity|]. split; [|constructor].
      symmetry. apply app_nil_r.
  - intros n concrete pa_available j_table_read j_read_type projection
           primary_keys partition_keys Hcount.
    destruct concrete; cbn [TableRead.instantiate].
    + now apply init_uses_count.
    + apply emits_raise.
Qed.

Lemma worker_count_admission_witness :
  @TableRead._get_max_workers ascii_unicode (∅ : gmap string PyVal) = Ok 1 /\
  @TableRead._get_max_workers ascii_unicode {[TableRead.MAX_WORKERS := PInt 4]}
  = Ok 4 /\
  @TableRead._get_max_workers ascii_unicode {[TableRead.MAX_WORKERS := PInt 0]}
  = Raise (mkExc ValueError "max_workers must be greater than 0") /\
  @TableRead._get_max_workers ascii_unicode
    {[TableRead.MAX_WORKERS := PStr "-2"]}
  = Raise (mkExc ValueError "max_workers must be greater than 0") /\
  (exists e' env' added,
     @TableRead.instantiate answering_bridge ascii_unicode true true
       (PObj 1) (PObj 2) {[TableRead.MAX_WORKERS := PInt 0]} None None None
       (start_env answering_bridge tt tt)
     = (Raise e', env') /\
     trace env' = ([] ++ added)%list /\
     Forall (not_call_of TableRead.CREATE_READER) added).
Proof.
  split; [|split; [|split; [|split]]].
  - destruct (worker_count_admission (H := answering_bridge)
                (H0 := ascii_unicode) ∅) as (Habsent & _).
    apply Habsent. reflexivity.
  - destruct (worker_count_admission (H := answering_bridge)
                (H0 := ascii_unicode)
                {[TableRead.MAX_WORKERS := PInt 4]}) as (_ & Hint & _).
    apply (Hint 4); [reflexivity | lia].
  - destruct (worker_count_admission (H := answering_bridge)
                (H0 := ascii_unicode)
                {[TableRead.MAX_WORKERS := PInt 0]}) as (_ & Hint & _).
    apply (Hint 0); [reflexivity | lia].
  - destruct (worker_count_admission (H := answering_bridge)
                (H0 := ascii_unicode)
                {[TableRead.MAX_WORKERS := PStr "-2"]}) as (_ & _ & Hgen & _).
    apply (Hgen (PStr "-2") (-2)); [reflexivity | reflexivity | lia].
  - destruct (worker_count_admission (H := answering_bridge)
                (H0 := ascii_unicode)
                {[TableRead.MAX_WORKERS := PInt 0]}) as (_ & _ & _ & Hinit & _).
    apply (Hinit (mkExc ValueError "max_workers must be greater than 0")).
    reflexivity.
Defined.

(** The separators 28 to 31 are white space for [strip()] and not for
    [int()]: such a value of the option is refused by [int()] itself,
    whatever the character tables. *)
Example worker_count_separator_refused `{Unicode} :
  exists msg,
    TableRead._get_max_workers
      {[TableRead.MAX_WORKERS := PStr (String (ascii_of_nat 28) "9")]}
    = Raise (mkExc ValueError msg).
Proof.
  unfold TableRead._get_max_workers.
  rewrite lookup_singleton_eq. cbn [default]. unfold id, TableRead.py_int, int_of_str.
  pose proof (str_int_ascii (String (ascii_of_nat 28) "9") eq_refl) as Hint.
  destruct (str_int (String (ascii_of_nat 28) "9")) as [z|msg].
  - assert (Hlen : (String.length (String (ascii_of_nat 28) "9") <= 4300)%nat)
      by (cbn; lia).
    specialize (Hint Hlen). vm_compute in Hint. discriminate.
  - exists msg. reflexivity.
Qed.

(** ** Closed writers and readers *)

Lemma writer_closed_op `{Bridge} (op : Writer.Op) (env : Env Writer.FlussDataWriter) :
  Writer._is_closed (self env) = true ->
  Writer.run_op op env = (writer_refusal op, env).
Proof.
  destruct env as [[jw gw closed] w t]. cbn [self Writer._is_closed].
  intros ->. destruct op; reflexivity.
Qed.

Lemma reader_closed_op `{Bridge} (op : Reader.Op) (env : Env Reader.FlussDataReader) :
  Reader._is_closed (self env) = true ->
  Reader.run_op op env = (reader_refusal op, env).
Proof.
  destruct env as [[jr gw closed] w t]. cbn [self Reader._is_closed].
  intros ->. destruct op; reflexivity.
Qed.

Lemma writer_closed_ops `{Bridge} (ops : list Writer.Op)
      (env : Env Writer.FlussDataWriter) :
  Writer._is_closed (self env) = true ->
  Writer.run_ops ops env = (map writer_refusal ops, env).
Proof.
  intros Hclosed. induction ops as [|op ops IH]; [reflexivity|].
  cbn [Writer.run_ops map]. now rewrite (writer_closed_op op env Hclosed), IH.
Qed.

Lemma reader_closed_ops `{Bridge} (ops : list Reader.Op)
      (env : Env Reader.FlussDataReader) :
  Reader._is_closed (self env) = true ->
  Reader.run_ops ops env = (map reader_refusal ops, env).
Proof.
  intros Hclosed. induction ops as [|op ops IH]; [reflexivity|].
  cbn [Reader.run_ops map]. now rewrite (reader_closed_op op env Hclosed), IH.
Qed.

Lemma writer_close_closes `{Bridge} (env : Env Writer.FlussDataWriter) :
  fst (Writer.close env) = Ok tt /\
  Writer._is_closed (self (snd (Writer.close env))) = true /\
  world (snd (Writer.close env)) = world env /\
  trace (snd (Writer.close env)) = trace env.
Proof. destruct env as [[jw gw []] w t]; repeat split. Qed.

Lemma reader_close_closes `{Bridge} (env : Env Reader.FlussDataReader) :
  fst (Reader.close env) = Ok tt /\
  Reader._is_closed (self (snd (Reader.close env))) = true /\
  world (snd (Reader.close env)) = world env /\
  trace (snd (Reader.close env)) = trace env.
Proof. destruct env as [[jr gw []] w t]; repeat split. Qed.

(** C10: [close()] on a data writer or reader never raises and issues no
    remote call; after it, whatever operations follow, every data operation
    ([write_row], [write_rows], [flush]; [read_row], [read_rows],
    [read_all]) raises the closed-handle error, every further [close()]
    returns normally, and neither the handle, whose closed flag stays set,
    nor the world nor the trace changes: no remote call is issued. *)
Theorem closed_handles_refuse_data_operations `{Bridge} :
  (forall (env : Env Writer.FlussDataWriter) (ops : list Writer.Op),
      let closed := snd (Writer.close env) in
      fst (Writer.close env) = Ok tt /\
      trace closed = trace env /\
      Writer._is_closed (self closed) = true /\
      Writer.run_ops ops closed = (map writer_refusal ops, closed)) /\
  (forall (env : Env Reader.FlussDataReader) (ops : list Reader.Op),
      let closed := snd (Reader.close env) in
      fst (Reader.close env) = Ok tt /\
      trace closed = trace env /\
      Reader._is_closed (self closed) = true /\
      Reader.run_ops ops closed = (map reader_refusal ops, closed)).
Proof.
  split; intros env ops closed.
  - destruct (writer_close_closes env) as (Hok & Hflag & _ & Htrace).
    repeat split; try assumption. now apply writer_closed_ops.
  - destruct (reader_close_closes env) as (Hok & Hflag & _ & Htrace).
    repeat split; try assumption. now apply reader_closed_ops.
Qed.

(** An open writer does reach the bridge: the refusal above is the effect of
    the closed flag. *)
Example open_writer_writes :
  let w := Writer.mkWriter (PObj 20) (PObj 10) false in
  let env := start_env answering_bridge w tt in
  let run := @Writer.write_row answering_bridge
               [("key", PInt 1); ("value", PStr "test1")] env in
  fst run = Ok false /\ length (trace (snd run)) = 8%nat.
Proof. split; reflexivity. Qed.

(** ** Closing the connection *)

Lemma try_except_swallow `{Bridge} {Self A : Type}
      (m : M Self A) (a0 : A) (env : Env Self) :
  try_except m (fun _ => ret a0) env
  = (Ok (match fst (m env) with Ok a => a | Raise _ => a0 end), snd (m env)).
Proof.
  unfold try_except, bind, reify.
  destruct (m env) as [[a|e] env1]; reflexivity.
Qed.

Lemma close_total `{Bridge} (env : Env FlussConnection) :
  exists env', close env = (Ok tt, env').
Proof.
  unfold close, bind at 1, get_self at 1.
  destruct (negb (_is_connected (self env))); [now exists env|].
  rewrite try_except_swallow. eexists. f_equal. f_equal.
  now destruct (fst _) as [[]|].
Qed.

Lemma close_not_connected `{Bridge} (env : Env FlussConnection) :
  _is_connected (self env) = false -> close env = (Ok tt, env).
Proof.
  intros Hflag. unfold close, bind at 1, get_self at 1. now rewrite Hflag.
Qed.

Lemma close_n_total `{Bridge} (n : nat) (env : Env FlussConnection) :
  exists env', close_n n env = (Ok tt, env').
Proof.
  revert env. induction n as [|n IH]; intros env; [now exists env|].
  cbn [close_n]. unfold bind.
  destruct (close_total env) as [env1 ->]. apply IH.
Qed.

Lemma close_n_not_connected `{Bridge} (n : nat) (env : Env FlussConnection) :
  _is_connected (self env) = false -> close_n n env = (Ok tt, env).
Proof.
  intros Hflag. induction n as [|n IH]; [reflexivity|].
  cbn [close_n]. unfold bind. now rewrite (close_not_connected env Hflag).
Qed.

Lemma call_answer `{Bridge} {Self : Type} (c : RemoteCall) (env : Env Self) :
  call c env
  = (fst (remote c (world env)),
     mkEnv (self env) (snd (remote c (world env))) (trace env ++ [ECall c])).
Proof. unfold call. now destruct (remote c (world env)). Qed.

(** A [close()] on a connected handle whose teardown calls answer ends in
    the closed state. *)
Lemma close_clean `{Bridge} (env : Env FlussConnection) :
  teardown_answers ->
  handles_ok (self env) = true ->
  _is_connected (self env) = true ->
  fst (close env) = Ok tt /\
  self (snd (close env)) = closed_conn (self env).
Proof.
  intros Hans Hok Hflag.
  split; [destruct (close_total env) as [env1 ->]; reflexivity|].
  destruct env as [[addr gw proc japp jc flag] w t].
  cbn [self _is_connected] in Hflag. subst flag.
  unfold handles_ok in Hok. cbn [self _gateway _java_process _java_connection] in Hok.
  apply andb_prop in Hok as [Hok Hjc]. apply andb_prop in Hok as [Hgw Hproc].
  unfold close, bind at 1, get_self at 1. cbn [self _is_connected negb].
  rewrite try_except_swallow. cbn [snd].
  unfold closed_conn. cbn [self server_address].
  destruct jc; try discriminate Hjc;
    destruct gw; try discriminate Hgw;
    destruct proc; try discriminate Hproc;
    cbv -[remote In List.app];
    repeat match goal with
           | |- context [remote ?c ?w0] =>
               let E := fresh "E" in
               destruct (remote c w0) as [[?v|?e] ?w] eqn:E;
               [ | try (exfalso; destruct (Hans c w0) as [?v Hv];
                        [solve [cbn; auto 10] | rewrite E in Hv; discriminate Hv]) ]
           end;
    reflexivity.
Qed.

(** C5, as amended: [close()] never raises, however often it is called.  On
    a handle that is not marked connected it is a no-op that leaves every
    field as it is.  On a connected handle whose bridge shutdown and
    subprocess termination calls answer, one [close()] leaves the handle
    disconnected with the connection, bridge, subprocess and entry-point
    handles cleared, and calling it [n >= 1] times gives the same result,
    state and trace as calling it once. *)
Theorem close_idempotent_when_teardown_succeeds `{Bridge}
        (env : Env FlussConnection) :
  (forall n : nat, exists env', close_n n env = (Ok tt, env')) /\
  (_is_connected (self env) = false ->
   forall n : nat, close_n n env = (Ok tt, env)) /\
  (teardown_answers ->
   handles_ok (self env) = true ->
   _is_connected (self env) = true ->
   self (snd (close env)) = closed_conn (self env) /\
   forall n : nat, (1 <= n)%nat -> close_n n env = close env).
Proof.
  split; [|split].
  - intros n. apply close_n_total.
  - intros Hflag n. now apply close_n_not_connected.
  - intros Hans Hok Hflag.
    destruct (close_clean env Hans Hok Hflag) as [Hfst Hself].
    split; [exact Hself|].
    intros [|n] Hn; [lia|]. cbn [close_n]. unfold bind.
    destruct (close env) as [r env1]. cbn [fst snd] in *. subst r.
    apply close_n_not_connected. now rewrite Hself.
Qed.

Lemma close_idempotent_when_teardown_succeeds_witness :
  self (snd (@close answering_bridge (start_env answering_bridge connected_conn tt)))
  = closed_conn connected_conn /\
  @close_n answering_bridge 3 (start_env answering_bridge connected_conn tt)
  = @close answering_bridge (start_env answering_bridge connected_conn tt).
Proof.
  destruct (close_idempotent_when_teardown_succeeds
              (H := answering_bridge)
              (start_env answering_bridge connected_conn tt))
    as (_ & _ & Hclean).
  destruct Hclean as [Hself Hsame].
  - intros c w _. exists (PObj 1). reflexivity.
  - reflexivity.
  - reflexivity.
  - split; [exact Hself | apply Hsame; lia].
Defined.

(** C5, the counterexamples.  A connected handle whose subprocess has not
    exited at the end of the first bounded wait: one [close()] leaves it
    marked connected with the subprocess handle in place, a second one
    clears it, so that two calls do not leave the state of one.  A handle
    left by a failed [connect()], not marked connected: [close()] leaves the
    bridge and subprocess handles it holds. *)
Lemma close_not_idempotent_counterexample :
  self (snd (@close_n slow_exit_bridge 1
               (start_env slow_exit_bridge connected_conn 0%nat)))
  = mkConn "localhost:9123" PNone (PObj 11) (PObj 12) PNone true /\
  self (snd (@close_n slow_exit_bridge 2
               (start_env slow_exit_bridge connected_conn 0%nat)))
  = mkConn "localhost:9123" PNone PNone PNone PNone false /\
  self (snd (@close_n slow_exit_bridge 2
               (start_env slow_exit_bridge connected_conn 0%nat)))
  <> self (snd (@close_n slow_exit_bridge 1
                  (start_env slow_exit_bridge connected_conn 0%nat))) /\
  self (snd (@close answering_bridge
               (start_env answering_bridge half_open_conn tt)))
  = half_open_conn.
Proof.
  split; [reflexivity|]. split; [reflexivity|]. split; [|reflexivity].
  vm_compute. discriminate.
Qed.

(** ** Resolving table paths *)

Lemma ensure_connected_ok `{Bridge} (env : Env FlussConnection) :
  is_connected (self env) = true -> _ensure_connected env = (Ok tt, env).
Proof.
  intros Hconn. unfold _ensure_connected, bind, get_self. now rewrite Hconn.
Qed.

Lemma parse_two_parts (table_path database table : string) :
  PyStr.split "." table_path = [database; table] ->
  parse_table_path table_path = Ok (None, database, table).
Proof. intros Hsplit. unfold parse_table_path. now rewrite Hsplit. Qed.

Lemma parse_three_parts (table_path catalog database table : string) :
  PyStr.split "." table_path = [catalog; database; table] ->
  parse_table_path table_path = Ok (Some catalog, database, table).
Proof. intros Hsplit. unfold parse_table_path. now rewrite Hsplit. Qed.

Lemma parse_other_arity (table_path : string) :
  length (PyStr.split "." table_path) <> 2%nat ->
  length (PyStr.split "." table_path) <> 3%nat ->
  exists e, exc_class e = ValueError /\ parse_table_path table_path = Raise e.
Proof.
  intros H2 H3. unfold parse_table_path.
  destruct (PyStr.split "." table_path) as [|a [|b [|c [|d l]]]];
    cbn [length] in *; try congruence;
    (eexists; split; [|reflexivity]; reflexivity).
Qed.

Lemma create_writer_resolved `{Bridge} (table_path : string)
      (catalog : option string) (database table : string)
      (env : Env FlussConnection) :
  is_connected (self env) = true ->
  parse_table_path table_path = Ok (catalog, database, table) ->
  create_writer table_path env = open_writer database table env /\
  create_reader table_path env = open_reader database table env.
Proof.
  intros Hconn Hparse.
  split; [unfold create_writer | unfold create_reader];
    unfold bind at 1; rewrite (ensure_connected_ok env Hconn);
    unfold bind at 1, lift; now rewrite Hparse.
Qed.

Lemma create_writer_refused `{Bridge} (table_path : string) (e : PyExc)
      (env : Env FlussConnection) :
  is_connected (self env) = true ->
  parse_table_path table_path = Raise e ->
  create_writer table_path env = (Raise e, env) /\
  create_reader table_path env = (Raise e, env).
Proof.
  intros Hconn Hparse.
  split; [unfold create_writer | unfold create_reader];
    unfold bind at 1; rewrite (ensure_connected_ok env Hconn);
    unfold bind at 1, lift; now rewrite Hparse.
Qed.

Lemma call_then_trace `{Bridge} {Self A : Type} (c : RemoteCall)
      (k : PyVal -> M Self A) (env : Env Self) :
  (forall v, emits (fun _ => True) (k v)) ->
  exists rest,
    trace (snd (bind (call c) k env)) = (trace env ++ ECall c :: rest)%list.
Proof.
  intros Hk. unfold bind. rewrite call_answer.
  destruct (fst (remote c (world env))) as [v|e].
  - destruct (Hk v (mkEnv (self env) (snd (remote c (world env)))
                      (trace env ++ [ECall c]))) as (added & E & _).
    exists added. rewrite E. cbn [trace]. now rewrite <- app_assoc.
  - now exists [].
Qed.

Lemma get_connection_cached `{Bridge} (ref : nat) (env : Env FlussConnection) :
  is_connected (self env) = true ->
  _java_connection (self env) = PObj ref ->
  _get_connection env = (Ok (PObj ref), env).
Proof.
  intros Hconn Hjc. unfold _get_connection, bind at 1.
  rewrite (ensure_connected_ok env Hconn).
  unfold bind, get_self, ret. rewrite Hjc. cbn [is_None]. now rewrite Hjc.
Qed.

Lemma open_first_call `{Bridge} (database table : string) (ref : nat)
      (env : Env FlussConnection) :
  is_connected (self env) = true ->
  _java_connection (self env) = PObj ref ->
  let get_table :=
    ECall (mkCall (PObj ref) "getTable" [PStr database; PStr table]) in
  (exists rest, trace (snd (open_writer database table env))
                = (trace env ++ get_table :: rest)%list) /\
  (exists rest, trace (snd (open_reader database table env))
                = (trace env ++ get_table :: rest)%list).
Proof.
  intros Hconn Hjc get_table.
  split; [unfold open_writer | unfold open_reader];
    unfold bind at 1; rewrite (get_connection_cached ref env Hconn Hjc);
    cbn [method_call]; apply call_then_trace; intros v;
    repeat first [apply emits_method_call; exact I | emits_step].
Qed.

(** C3: on a connected handle, a table path that splits on ['.'] into two
    parts is resolved to the first part as database and the second as table;
    one that splits into three parts to the second part as database and the
    third as table, the first being the catalog name; [create_writer] and
    [create_reader] then fetch the table handle with exactly that database
    and table.  A path of any other arity makes both fail with the
    invalid-path error ([ValueError]) with the handle, the world and the
    trace unchanged: no remote call is issued. *)
Theorem table_path_resolution `{Bridge} (table_path : string)
        (env : Env FlussConnection) :
  is_connected (self env) = true ->
  (forall database table,
      PyStr.split "." table_path = [database; table] ->
      parse_table_path table_path = Ok (None, database, table) /\
      create_writer table_path env = open_writer database table env /\
      create_reader table_path env = open_reader database table env) /\
  (forall catalog database table,
      PyStr.split "." table_path = [catalog; database; table] ->
      parse_table_path table_path = Ok (Some catalog, database, table) /\
      create_writer table_path env = open_writer database table env /\
      create_reader table_path env = open_reader database table env) /\
  (length (PyStr.split "." table_path) <> 2%nat ->
   length (PyStr.split "." table_path) <> 3%nat ->
   exists e,
     exc_class e = ValueError /\
     create_writer table_path env = (Raise e, env) /\
     create_reader table_path env = (Raise e, env)) /\
  (forall database table,
      emits (calls_satisfy "getTable" (eq [PStr database; PStr table]))
            (open_writer database table) /\
      emits (calls_satisfy "getTable" (eq [PStr database; PStr table]))
            (open_reader database table)) /\
  (forall database table ref,
      _java_connection (self env) = PObj ref ->
      (exists rest,
          trace (snd (open_writer database table env))
          = (trace env ++ ECall (mkCall (PObj ref) "getTable"
                                   [PStr database; PStr table]) :: rest)%list) /\
      (exists rest,
          trace (snd (open_reader database table env))
          = (trace env ++ ECall (mkCall (PObj ref) "getTable"
                                   [PStr database; PStr table]) :: rest)%list)).
Proof.
  intros Hconn. split; [|split; [|split; [|split]]].
  - intros database table Hsplit.
    pose proof (parse_two_parts _ _ _ Hsplit) as Hparse.
    split; [exact Hparse|]. now apply (create_writer_resolved _ None).
  - intros catalog database table Hsplit.
    pose proof (parse_three_parts _ _ _ _ Hsplit) as Hparse.
    split; [exact Hparse|]. now apply (create_writer_resolved _ (Some catalog)).
  - intros H2 H3. destruct (parse_other_arity _ H2 H3) as (e & Hclass & Hparse).
    exists e. split; [exact Hclass|]. now apply create_writer_refused.
  - intros database table. split.
    + unfold open_writer. emits_conn.
    + unfold open_reader. emits_conn.
  - intros database table ref Hjc. now apply open_first_call.
Qed.

Lemma table_path_resolution_witness :
  let env := start_env answering_bridge connected_conn tt in
  @create_writer answering_bridge "tmp_db.test_table" env
  = @open_writer answering_bridge "tmp_db" "test_table" env /\
  @create_reader answering_bridge "fluss.tmp_db.test_table" env
  = @open_reader answering_bridge "tmp_db" "test_table" env /\
  exists e, exc_class e = ValueError /\
            @create_writer answering_bridge "test_table" env = (Raise e, env) /\
            @create_reader answering_bridge "test_table" env = (Raise e, env).
Proof.
  intros env. split; [|split].
  - destruct (table_path_resolution (H := answering_bridge)
                "tmp_db.test_table" env eq_refl) as (Htwo & _).
    apply (Htwo "tmp_db" "test_table" eq_refl).
  - destruct (table_path_resolution (H := answering_bridge)
                "fluss.tmp_db.test_table" env eq_refl) as (_ & Hthree & _).
    apply (Hthree "fluss" "tmp_db" "test_table" eq_refl).
  - destruct (table_path_resolution (H := answering_bridge)
                "test_table" env eq_refl) as (_ & _ & Hother & _).
    apply Hother; cbn; discriminate.
Defined.

(** The catalog part of a three-part path reaches no remote call: two paths
    that differ only in it run the same. *)
Lemma catalog_part_is_dropped `{Bridge} (catalog catalog' database table : string)
      (table_path table_path' : string) (env : Env FlussConnection) :
  PyStr.split "." table_path = [catalog; database; table] ->
  PyStr.split "." table_path' = [catalog'; database; table] ->
  create_writer table_path env = create_writer table_path' env /\
  create_reader table_path env = create_reader table_path' env.
Proof.
  intros Hs Hs'. unfold create_writer, create_reader.
  now rewrite (parse_three_parts _ _ _ _ Hs), (parse_three_parts _ _ _ _ Hs').
Qed.

(** ** Listing databases and tables *)

(** C6: on a connected handle [list_databases] and [list_tables] can raise.
    The remote side answers [getAdmin()] with an exception and is gone when
    the handler of the listing formats that exception for its log line:
    the network error of the formatting leaves the handler, and the
    listing, instead of the empty list.  The handle is connected and holds
    its remote connection; the two calls on the trace are [getAdmin] and
    the request for the text of the exception. *)
Theorem listing_raises_when_text_is_lost :
  let env := start_env lost_bridge connected_conn 0%nat in
  let remote_error :=
    "An error occurred while calling the gateway (call 0)" in
  let after :=
    @mkEnv lost_bridge _ connected_conn 1%nat
      [ECall (mkCall (PObj 13) "getAdmin" []);
       ECall (mkCall PNone JAVA_ERROR_TEXT [PStr remote_error])] in
  is_connected (self env) = true /\
  forall (fuel : nat) (database_name : string),
    @list_databases lost_bridge fuel env
    = (Raise (mkExc Py4JNetworkError "Error while sending or receiving"), after) /\
    @list_tables lost_bridge fuel database_name env
    = (Raise (mkExc Py4JNetworkError "Error while sending or receiving"), after).
Proof. split; [reflexivity|]. intros fuel database_name. split; reflexivity. Qed.

(** ** The retry wrapper *)

Lemma list_operation_fails (B : Bridge) :
  (forall c w, rc_method c = "listDatabases" ->
               exists e, fst (@remote B c w) = Raise e) ->
  @always_fails B _ _ list_operation.
Proof.
  intros Hfail env. unfold list_operation, method_call, call.
  destruct (Hfail (mkCall (PObj 5) "listDatabases" []) (world env) eq_refl)
    as [e He].
  exists e. destruct (remote _ (world env)) as [r w]. exact He.
Qed.

(** C2: an operation function that raises on every invocation, and a run of
    the retry wrapper with three attempts allowed that invokes it once and
    leaves with another exception than the consolidated error.  The
    operation raises a remote exception, and the remote side is gone when
    the handler of the failed attempt formats that exception for its
    warning: the network error of the formatting leaves the handler and
    the loop, without a second attempt, a sleep or a logged failure. *)
Theorem retry_stops_when_text_is_lost :
  let env := start_env lost_bridge connected_conn 0%nat in
  let remote_error :=
    "An error occurred while calling the gateway (call 0)" in
  let run :=
    @_handle_async_operation_with_retry lost_bridge list_operation 3 30 env in
  @always_fails lost_bridge _ _ list_operation /\
  run = (Raise (mkExc Py4JNetworkError "Error while sending or receiving"),
         @mkEnv lost_bridge _ connected_conn 1%nat
           [EInvoke;
            ECall (mkCall (PObj 5) "listDatabases" []);
            ECall (mkCall PNone JAVA_ERROR_TEXT [PStr remote_error])]) /\
  invocations (trace (snd run)) = 1%nat /\
  sleeps (trace (snd run)) = [] /\
  (forall text, fst run <> Raise (retry_error 3 text)).
Proof.
  split; [|split; [|split; [|split]]]; try reflexivity.
  - apply list_operation_fails. intros c w Hc. cbn [remote lost_bridge].
    rewrite Hc. eexists. reflexivity.
  - intros text. cbn. discriminate.
Qed.

(** The same operation when the texts of its exceptions can be fetched:
    three attempts, the sleeps of one and two seconds between them, and
    the consolidated error about the third failure. *)
Example retry_three_attempts :
  let gateway_error (call : nat) :=
    mkExc Py4JJavaError
      ("An error occurred while calling the gateway (call " ++ pretty call ++ ")") in
  let list_call := ECall (mkCall (PObj 5) "listDatabases" []) in
  let text_of (call : nat) :=
    ECall (mkCall PNone JAVA_ERROR_TEXT [PStr (exc_msg (gateway_error call))]) in
  @_handle_async_operation_with_retry failing_bridge list_operation 3 30
    (start_env failing_bridge connected_conn 0%nat)
  = (Raise (mkExc RuntimeError
              "Async operation failed after 3 attempts. Last error: An error occurred while calling the gateway (call 2): java.io.IOException: server unreachable"),
     @mkEnv failing_bridge _ connected_conn 3%nat
       [EInvoke; list_call; text_of 0%nat;
        EAttemptFailed 1 (gateway_error 0%nat); ESleep 1;
        EInvoke; list_call; text_of 1%nat;
        EAttemptFailed 2 (gateway_error 1%nat); ESleep 2;
        EInvoke; list_call; text_of 2%nat;
        EAttemptFailed 3 (gateway_error 2%nat);
        text_of 2%nat]).
Proof. reflexivity. Qed.

(** * Further properties *)

(** ** Invariants and postconditions of computations *)

Section Keeps.
Context `{Bridge} {Self B : Type} (f : Self -> B).

Lemma keeps_ret {A} (a : A) : keeps f (ret a : M Self A).
Proof. now intros env. Qed.

Lemma keeps_raise {A} (e : PyExc) : keeps f (raise e : M Self A).
Proof. now intros env. Qed.

Lemma keeps_lift {A} (r : Outcome A) : keeps f (lift r : M Self A).
Proof. now intros env. Qed.

Lemma keeps_get_self : keeps f (get_self : M Self Self).
Proof. now intros env. Qed.

Lemma keeps_emit (ev : Event) : keeps f (emit ev : M Self unit).
Proof. now intros env. Qed.

Lemma keeps_sleep (seconds : Z) : keeps f (sleep seconds : M Self unit).
Proof. now intros env. Qed.

Lemma keeps_modify (g : Self -> Self) :
  (forall s, f (g s) = f s) -> keeps f (modify g).
Proof. intros Hg env. apply Hg. Qed.

Lemma keeps_call (c : RemoteCall) : keeps f (call c : M Self PyVal).
Proof. intros env. unfold call. now destruct (remote c (world env)). Qed.

Lemma keeps_method_call (target : PyVal) (name : string) (args : list PyVal) :
  keeps f (method_call target name args : M Self PyVal).
Proof.
  destruct target; cbn [method_call];
    first [apply keeps_raise | apply keeps_call].
Qed.

Lemma keeps_bind {A C} (m : M Self A) (k : A -> M Self C) :
  keeps f m -> (forall a, keeps f (k a)) -> keeps f (bind m k).
Proof.
  intros Hm Hk env. unfold bind. specialize (Hm env).
  destruct (m env) as [[a|e] env1]; cbn [snd] in *.
  - now rewrite (Hk a env1).
  - exact Hm.
Qed.

Lemma keeps_reify {A} (m : M Self A) : keeps f m -> keeps f (reify m).
Proof.
  intros Hm env. unfold reify. specialize (Hm env).
  now destruct (m env).
Qed.

Lemma keeps_try_except {A} (m : M Self A) (h : PyExc -> M Self A) :
  keeps f m -> (forall e, keeps f (h e)) -> keeps f (try_except m h).
Proof.
  intros Hm Hh. unfold try_except. apply keeps_bind.
  - apply keeps_reify, Hm.
  - intros [a|e]; [apply keeps_ret | apply Hh].
Qed.

Lemma keeps_py_str (v : PyVal) : keeps f (py_str v : M Self string).
Proof.
  destruct v as [| [|] | | | |]; cbn [py_str]; try apply keeps_ret.
  apply keeps_bind; [apply keeps_call|].
  intros r. destruct r; first [apply keeps_ret | apply keeps_raise].
Qed.

Lemma keeps_exc_str (e : PyExc) : keeps f (exc_str e : M Self string).
Proof.
  unfold exc_str. destruct (exc_class e); try apply keeps_ret.
  apply keeps_bind; [apply keeps_call | intros r].
  apply keeps_bind; [apply keeps_py_str | intros s; apply keeps_ret].
Qed.

End Keeps.

(** the structural steps of a proof of [keeps], by the shape of the
    computation *)
Ltac keeps_step :=
  match goal with
  | |- keeps _ (ret _) => apply keeps_ret
  | |- keeps _ (raise _) => apply keeps_raise
  | |- keeps _ (lift _) => apply keeps_lift
  | |- keeps _ get_self => apply keeps_get_self
  | |- keeps _ (emit _) => apply keeps_emit
  | |- keeps _ (sleep _) => apply keeps_sleep
  | |- keeps _ (call _) => apply keeps_call
  | |- keeps _ (method_call _ _ _) => apply keeps_method_call
  | |- keeps _ (py_str _) => apply keeps_py_str
  | |- keeps _ (exc_str _) => apply keeps_exc_str
  | |- keeps _ (modify _) => apply keeps_modify; reflexivity
  | |- keeps _ (try_except _ _) => apply keeps_try_except; [|intros ?]
  | |- keeps _ (reify _) => apply keeps_reify
  | |- keeps _ (bind _ _) => apply keeps_bind; [|intros ?]
  | |- keeps _ (if ?b then _ else _) => destruct b
  | |- keeps _ (match ?x with _ => _ end) => destruct x
  end.

Lemma ensure_not_connected `{Bridge} (env : Env FlussConnection) :
  is_connected (self env) = false ->
  _ensure_connected env = (Raise not_connected_error, env).
Proof.
  intros Hconn. unfold _ensure_connected, bind, get_self. now rewrite Hconn.
Qed.

Lemma refused_at_the_door `{Bridge} {A : Type} (k : unit -> M FlussConnection A)
      (env : Env FlussConnection) :
  is_connected (self env) = false ->
  bind _ensure_connected k env = (Raise not_connected_error, env).
Proof.
  intros Hconn. unfold bind. now rewrite (ensure_not_connected env Hconn).
Qed.

(** ** A handle that is not connected *)

(** X1: on a handle that is not connected (never connected, or closed),
    every operation of the connection raises the [ConnectionError] of
    [_ensure_connected] and leaves the handle, the world and the trace as
    they were: no remote call is issued. *)
Theorem disconnected_handle_refuses `{Bridge} `{Unicode}
        (env : Env FlussConnection) :
  is_connected (self env) = false ->
  (forall table_path,
      create_writer table_path env = (Raise not_connected_error, env) /\
      create_reader table_path env = (Raise not_connected_error, env)) /\
  (forall sql, execute_sql sql env = (Raise not_connected_error, env)) /\
  (forall name, get_admin name env = (Raise not_connected_error, env)) /\
  Admin.getAdmin env = (Raise not_connected_error, env) /\
  (forall name descriptor if_not_exists comment properties,
      create_database name descriptor if_not_exists comment properties env
      = (Raise not_connected_error, env)) /\
  (forall database table columns keys if_not_exists,
      create_table database table columns keys if_not_exists env
      = (Raise not_connected_error, env)) /\
  (forall fuel, list_databases fuel env = (Raise not_connected_error, env)) /\
  (forall fuel database,
      list_tables fuel database env = (Raise not_connected_error, env)) /\
  (forall database if_exists,
      drop_database database if_exists env = (Raise not_connected_error, env)) /\
  (forall database table if_exists,
      drop_table database table if_exists env = (Raise not_connected_error, env)) /\
  (forall database table,
      get_table_schema database table env = (Raise not_connected_error, env)).
Proof.
  intros Hconn.
  assert (Hget : forall A (k : PyVal -> M FlussConnection A),
             bind _get_connection k env = (Raise not_connected_error, env)).
  { intros A k. unfold _get_connection, bind at 1, bind at 1.
    now rewrite (ensure_not_connected env Hconn). }
  repeat split; intros;
    first [ apply (refused_at_the_door _ env Hconn) | apply Hget ].
Qed.

Lemma disconnected_handle_refuses_witness :
  @list_databases answering_bridge 8
    (start_env answering_bridge (closed_conn connected_conn) tt)
  = (Raise not_connected_error,
     start_env answering_bridge (closed_conn connected_conn) tt).
Proof.
  destruct (disconnected_handle_refuses (H := answering_bridge)
              (H0 := ascii_unicode)
              (start_env answering_bridge (closed_conn connected_conn) tt)
              eq_refl)
    as (_ & _ & _ & _ & _ & _ & Hlist & _).
  exact (Hlist 8%nat).
Defined.

(** ** Running a computation *)

Lemma bind_run `{Bridge} {Self A B : Type} (m : M Self A) (k : A -> M Self B)
      (env : Env Self) :
  bind m k env
  = (let '(r, env') := m env in
     match r with
     | Ok a => k a env'
     | Raise e => (Raise e, env')
     end).
Proof. unfold bind. now destruct (m env) as [[a|e] env']. Qed.

Lemma try_except_run `{Bridge} {Self A : Type} (m : M Self A)
      (h : PyExc -> M Self A) (env : Env Self) :
  try_except m h env
  = (let '(r, env') := m env in
     match r with
     | Ok a => (Ok a, env')
     | Raise e => h e env'
     end).
Proof. unfold try_except, bind, reify. now destruct (m env) as [[a|e] env']. Qed.

(** ** The text of an exception *)

(** the text of an exception that is not remote is its message, and
    asking for it changes nothing *)
Lemma exc_str_local `{Bridge} {Self : Type} (e : PyExc) (env : Env Self) :
  exc_class e <> Py4JJavaError -> exc_str e env = (Ok (exc_msg e), env).
Proof.
  unfold exc_str. destruct (exc_class e); intros Hne;
    first [reflexivity | congruence].
Qed.

(** when the texts can be fetched, [str(e)] returns *)
Lemma exc_str_answers `{Bridge} {Self : Type} :
  texts_available ->
  forall (e : PyExc) (env : Env Self),
    exists text env', exc_str e env = (Ok text, env').
Proof.
  intros Htexts e env. unfold exc_str.
  destruct (exc_class e); try (eexists _, _; reflexivity).
  unfold bind at 1, call.
  destruct (Htexts (mkCall PNone JAVA_ERROR_TEXT [PStr (exc_msg e)])
              (world env) eq_refl) as [s Hs].
  destruct (remote _ (world env)) as [r w]. cbn [fst] in Hs. subst r.
  eexists _, _. reflexivity.
Qed.

(** ** Connecting *)

Lemma bind_ok_inv `{Bridge} {Self A B : Type} (m : M Self A) (k : A -> M Self B)
      (env : Env Self) (b : B) (env' : Env Self) :
  bind m k env = (Ok b, env') ->
  exists a env1, m env = (Ok a, env1) /\ k a env1 = (Ok b, env').
Proof.
  unfold bind. destruct (m env) as [[a|e] env1]; [|discriminate].
  intros Hk. now exists a, env1.
Qed.

Lemma method_call_ok_obj `{Bridge} {Self : Type} (target : PyVal) (name : string)
      (args : list PyVal) (env : Env Self) (v : PyVal) (env' : Env Self) :
  method_call target name args env = (Ok v, env') ->
  (exists ref, target = PObj ref) /\ self env' = self env.
Proof.
  destruct target; cbn [method_call]; try discriminate.
  rewrite call_answer. intros [= _ <-]. split; [now eexists | reflexivity].
Qed.

Lemma keeps_flag_get_jar_path `{Bridge} {B : Type} (f : FlussConnection -> B) :
  keeps f _get_jar_path.
Proof. unfold _get_jar_path, os_call. repeat keeps_step. Qed.

Lemma keeps_flag_connect_steps `{Bridge} : keeps _is_connected connect_steps.
Proof.
  unfold connect_steps, _start_java_gateway_server, _test_connection, os_call.
  repeat first [ apply keeps_flag_get_jar_path | keeps_step ].
Qed.

Lemma no_teardown_call (target : PyVal) (name : string) (args : list PyVal) :
  PyStr.in_list name ["close"; "shutdown"; "terminate"; "wait"] = false ->
  no_teardown (ECall (mkCall target name args)).
Proof.
  intros Hname. unfold no_teardown, not_call_of. cbn [rc_method].
  repeat split; intros ->; discriminate Hname.
Qed.

(** the steps of a proof of [emits], by the shape of the computation; the
    obligations on the events are left *)
Ltac emits_shape :=
  match goal with
  | |- emits _ (ret _) => apply emits_ret
  | |- emits _ (raise _) => apply emits_raise
  | |- emits _ (lift _) => apply emits_lift
  | |- emits _ get_self => apply emits_get_self
  | |- emits _ (modify _) => apply emits_modify
  | |- emits _ (emit _) => apply emits_emit
  | |- emits _ (sleep _) => apply emits_sleep
  | |- emits _ (call _) => apply emits_call
  | |- emits _ (method_call _ _ _) => apply emits_method_call
  | |- emits _ (py_str _) => apply emits_py_str; intros
  | |- emits _ (exc_str _) => apply emits_exc_str; intros
  | |- emits _ (try_except _ _) => apply emits_try_except; [|intros ?]
  | |- emits _ (reify _) => apply emits_reify
  | |- emits _ (bind _ _) => apply emits_bind; [|intros ?]
  | |- emits _ (if ?b then _ else _) => destruct b
  | |- emits _ (match ?x with _ => _ end) => destruct x
  end.

Lemma emits_connect_steps `{Bridge} : emits no_teardown connect_steps.
Proof.
  unfold connect_steps, _get_jar_path, _start_java_gateway_server,
    _test_connection, os_call.
  repeat emits_shape;
    first [ apply no_teardown_call; reflexivity | now repeat split ].
Qed.

(** a successful run of the steps of [connect] leaves a bridge object in
    [_gateway] *)
Lemma connect_steps_gateway `{Bridge} (env env1 : Env FlussConnection) :
  connect_steps env = (Ok tt, env1) -> is_None (_gateway (self env1)) = false.
Proof.
  unfold connect_steps. intros Hrun.
  do 7 (apply bind_ok_inv in Hrun as (? & ? & ? & Hrun); cbv beta in Hrun).
  match goal with
  | Hm : modify (set_gateway ?g) ?e0 = (Ok _, ?e1),
    Hg : get_self ?e1 = (Ok ?c, ?e2),
    Hc : method_call (_gateway ?c) "entry_point" [] ?e2 = (Ok _, ?e3) |- _ =>
      injection Hm as _ <-; injection Hg as <- <-;
      apply method_call_ok_obj in Hc as [[ref Href] Hself];
      cbn [self set_gateway _gateway] in Href, Hself
  end.
  match type of Hrun with
  | ?m ?e = _ =>
      assert (K : keeps _gateway m)
  end.
  { unfold _test_connection. repeat keeps_step. }
  match type of Hrun with
  | _ ?e = _ => specialize (K e)
  end.
  rewrite Hrun in K. cbn [snd] in K.
  rewrite K, Hself. cbn [_gateway set_gateway]. now rewrite Href.
Qed.

(** [connect] on a handle that is not marked connected, in terms of the
    outcome of its steps: the [close()] of the handler does nothing *)
Lemma connect_unfold `{Bridge} (env : Env FlussConnection) :
  _is_connected (self env) = false ->
  connect env
  = (let '(r, env1) := connect_steps env in
     match r with
     | Ok _ =>
         (Ok tt,
          mkEnv (set_is_connected true (self env1)) (world env1) (trace env1))
     | Raise e =>
         (exc_str e ;;
          text <- exc_str e ;;
          raise (mkExc ConnectionError
                   ("Could not establish connection to Fluss: " ++ text))) env1
     end).
Proof.
  intros Hflag.
  pose proof (keeps_flag_connect_steps env) as Hkeep. rewrite Hflag in Hkeep.
  unfold connect, bind at 1, get_self. rewrite Hflag.
  rewrite try_except_run. unfold bind at 1.
  destruct (connect_steps env) as [[[]|e] env1]; cbn [snd] in Hkeep.
  - reflexivity.
  - rewrite !bind_run.
    pose proof (keeps_exc_str _is_connected e env1) as Hkeep1.
    destruct (exc_str e env1) as [[text1|e1] env2]; [|reflexivity].
    cbn [snd] in Hkeep1. rewrite Hkeep in Hkeep1.
    rewrite (bind_run close). now rewrite (close_not_connected env2 Hkeep1).
Qed.

(** X2: [connect()] on a handle that is not marked connected issues no
    teardown call, whatever happens.  Either it returns with the handle
    connected ([is_connected()] is true), or it raises and leaves the
    handle not marked connected, so that the [close()] of the failure path
    and any later [close()] do nothing and a bridge or subprocess started
    by the failed attempt is neither shut down nor terminated.  When the
    text of a remote exception can be fetched, what it raises is the
    [ConnectionError] whose message ends with the text of the exception
    that stopped the steps of the connection. *)
Theorem connect_outcome `{Bridge} (env : Env FlussConnection) :
  _is_connected (self env) = false ->
  (exists added,
      trace (snd (connect env)) = (trace env ++ added)%list /\
      Forall no_teardown added) /\
  match fst (connect env) with
  | Ok _ => is_connected (self (snd (connect env))) = true
  | Raise e =>
      _is_connected (self (snd (connect env))) = false /\
      close (snd (connect env)) = (Ok tt, snd (connect env)) /\
      (texts_available ->
       exists cause env1 text,
         connect_steps env = (Raise cause, env1) /\
         exc_str cause (snd (exc_str cause env1)) = (Ok text, snd (connect env)) /\
         e = mkExc ConnectionError
               ("Could not establish connection to Fluss: " ++ text))
  end.
Proof.
  intros Hflag.
  pose proof (keeps_flag_connect_steps env) as Hkeep.
  destruct (emits_connect_steps env) as (added & Htrace & Hadded).
  rewrite (connect_unfold env Hflag).
  destruct (connect_steps env) as [[[]|e] env1] eqn:Hrun; cbn [fst snd] in *.
  - split; [now exists added|].
    unfold is_connected. cbn [self set_is_connected _is_connected _gateway].
    now rewrite (connect_steps_gateway env env1 Hrun).
  - rewrite Hflag in Hkeep.
    set (handler := (exc_str e ;;
                     text <- exc_str e ;;
                     raise (mkExc ConnectionError
                              ("Could not establish connection to Fluss: " ++ text)))
                    : M FlussConnection unit).
    assert (Hquiet : emits no_teardown handler).
    { unfold handler. repeat emits_shape; apply no_teardown_call; reflexivity. }
    assert (Hsame : keeps _is_connected handler).
    { unfold handler. repeat keeps_step. }
    destruct (Hquiet env1) as (added' & Htrace' & Hadded').
    specialize (Hsame env1). rewrite Hkeep in Hsame.
    split.
    { exists (added ++ added')%list. split.
      - now rewrite Htrace', Htrace, app_assoc.
      - apply Forall_app. now split. }
    destruct (handler env1) as [[[]|e'] env2] eqn:Hh; cbn [fst snd] in *.
    + exfalso. unfold handler in Hh. rewrite !bind_run in Hh.
      destruct (exc_str e env1) as [[t1|e1] env_a]; [|discriminate Hh].
      rewrite bind_run in Hh.
      destruct (exc_str e env_a) as [[t2|e2] env_b]; discriminate Hh.
    + split; [exact Hsame|]. split; [apply close_not_connected, Hsame|].
      intros Htexts. exists e, env1.
      unfold handler, bind in Hh.
      destruct (exc_str_answers Htexts e env1) as (t1 & env_a & Ha).
      rewrite Ha in Hh. cbn [snd].
      destruct (exc_str_answers Htexts e env_a) as (t2 & env_b & Hb).
      rewrite Hb in Hh. unfold raise in Hh. injection Hh as <- <-.
      exists t2. rewrite Ha. cbn [snd]. now rewrite Hb.
Qed.

Lemma connect_outcome_witness :
  let env := start_env failing_bridge half_open_conn O in
  _is_connected half_open_conn = false /\
  fst (@connect failing_bridge env)
  = Raise (mkExc ConnectionError
             "Could not establish connection to Fluss: An error occurred while calling the gateway (call 0): java.io.IOException: server unreachable") /\
  close (snd (@connect failing_bridge env)) = (Ok tt, snd (@connect failing_bridge env)).
Proof.
  split; [reflexivity|]. split; [reflexivity|].
  pose proof (connect_outcome (H := failing_bridge)
                (start_env failing_bridge half_open_conn O) eq_refl) as [_ Hout].
  revert Hout.
  destruct (fst (@connect failing_bridge
                   (start_env failing_bridge half_open_conn O))) eqn:E.
  - vm_compute in E. discriminate E.
  - intros (_ & Hclose & _). exact Hclose.
Defined.

(** When the text cannot be fetched, the failure of [connect()] is the
    failure of the request for it. *)
Example connect_raises_network_error :
  fst (@connect lost_bridge (start_env lost_bridge half_open_conn O))
  = Raise (mkExc Py4JNetworkError "Error while sending or receiving").
Proof. reflexivity. Qed.

(** X3: after a [close()] whose teardown calls answer, the handle refuses
    work: creating a writer or a reader, listing and dropping raise the
    [ConnectionError] of [_ensure_connected] without a remote call, and the
    flag is unset, so only a new [connect()] brings the handle back. *)
Theorem closed_connection_refuses `{Bridge} (env : Env FlussConnection) :
  teardown_answers ->
  handles_ok (self env) = true ->
  _is_connected (self env) = true ->
  let env' := snd (close env) in
  _is_connected (self env') = false /\
  (forall table_path,
      create_writer table_path env' = (Raise not_connected_error, env') /\
      create_reader table_path env' = (Raise not_connected_error, env')) /\
  (forall fuel, list_databases fuel env' = (Raise not_connected_error, env')) /\
  (forall fuel database,
      list_tables fuel database env' = (Raise not_connected_error, env')) /\
  (forall database if_exists,
      drop_database database if_exists env' = (Raise not_connected_error, env')).
Proof.
  intros Hans Hok Hflag env'.
  destruct (close_clean env Hans Hok Hflag) as [_ Hself].
  assert (Hoff : is_connected (self env') = false).
  { subst env'. now rewrite Hself. }
  repeat split; intros;
    first [ subst env'; now rewrite Hself
          | apply (refused_at_the_door _ env' Hoff) ].
Qed.

Lemma closed_connection_refuses_witness :
  @list_databases answering_bridge 8
    (snd (@close answering_bridge (start_env answering_bridge connected_conn tt)))
  = (Raise not_connected_error,
     snd (@close answering_bridge (start_env answering_bridge connected_conn tt))).
Proof.
  assert (Hans : @teardown_answers answering_bridge).
  { intros c w _. now exists (PObj 1). }
  destruct (closed_connection_refuses (H := answering_bridge)
              (start_env answering_bridge connected_conn tt)
              Hans eq_refl eq_refl)
    as (_ & _ & Hlist & _).
  exact (Hlist 8%nat).
Defined.

(** ** The cached remote connection *)

(** X4: [_get_connection] caches: once it has returned a connection object
    that is not [None], a second call returns the same object and touches
    nothing, neither the handle nor the world nor the trace, so
    [createConnection] is called at most once. *)
Theorem get_connection_is_cached `{Bridge} (env env1 : Env FlussConnection)
        (v : PyVal) :
  _get_connection env = (Ok v, env1) ->
  is_None v = false ->
  _get_connection env1 = (Ok v, env1).
Proof.
  intros Hrun Hv. unfold _get_connection in Hrun.
  apply bind_ok_inv in Hrun as ([] & env2 & Hens & Hrun).
  assert (Hconn : is_connected (self env) = true).
  { destruct (is_connected (self env)) eqn:E; [reflexivity|].
    rewrite (ensure_not_connected env E) in Hens. discriminate Hens. }
  rewrite (ensure_connected_ok env Hconn) in Hens. injection Hens as <-.
  assert (Hcached : is_connected (self env1) = true /\ _java_connection (self env1) = v).
  { unfold bind, get_self in Hrun.
    destruct (is_None (_java_connection (self env))) eqn:Enone.
    - destruct (method_call (_java_app (self env)) "createConnection"
                  [PStr (server_address (self env))] env)
        as [[jc|e] env3] eqn:Ecall; [|discriminate Hrun].
      apply method_call_ok_obj in Ecall as [_ Hself].
      cbn in Hrun. injection Hrun as <- <-.
      cbn [self]. rewrite Hself. split; [exact Hconn | reflexivity].
    - cbn in Hrun. injection Hrun as <- <-. split; [exact Hconn | reflexivity]. }
  destruct Hcached as [Hconn1 Hjc].
  unfold _get_connection, bind at 1.
  rewrite (ensure_connected_ok env1 Hconn1).
  unfold bind, get_self, ret. rewrite Hjc, Hv. now rewrite Hjc.
Qed.

Lemma get_connection_is_cached_witness :
  @_get_connection answering_bridge
    (snd (@_get_connection answering_bridge
            (start_env answering_bridge
               (set_java_connection PNone connected_conn) tt)))
  = (Ok (PObj 1),
     snd (@_get_connection answering_bridge
            (start_env answering_bridge
               (set_java_connection PNone connected_conn) tt))).
Proof.
  apply (get_connection_is_cached (H := answering_bridge)
           (start_env answering_bridge
              (set_java_connection PNone connected_conn) tt));
    reflexivity.
Defined.

(** ** Waiting for a remote result *)

Lemma keeps_handle_async `{Bridge} {B : Type} (f : FlussConnection -> B)
      (future_result : PyVal) (timeout : Z) :
  keeps f (_handle_async_operation future_result timeout).
Proof.
  unfold _handle_async_operation. apply keeps_try_except.
  - repeat keeps_step.
  - intros e. destruct (exc_class e); repeat keeps_step.
Qed.

(** X5: [_handle_async_operation] returns a value that has no [get] as it
    is, without a remote call, and it never changes the handle.  When the
    text of a remote exception can be fetched, the caller sees one of two
    exceptions only, whatever went wrong: the [TimeoutError] that names the
    timeout, or a [RuntimeError] whose message is one of the two prefixes
    of the handlers followed by a text. *)
Theorem handle_async_outcome `{Bridge} (future_result : PyVal) (timeout : Z)
        (env : Env FlussConnection) :
  self (snd (_handle_async_operation future_result timeout env)) = self env /\
  (hasattr future_result "get" = false ->
   _handle_async_operation future_result timeout env = (Ok future_result, env)) /\
  (texts_available ->
   forall e,
     fst (_handle_async_operation future_result timeout env) = Raise e ->
     e = mkExc TimeoutError
           ("Operation timed out after " ++ pretty timeout ++ " seconds")
     \/ (exists text,
            e = mkExc RuntimeError ("Async operation failed: " ++ text))
     \/ (exists text,
            e = mkExc RuntimeError
                  ("Failed to handle async operation: " ++ text))).
Proof.
  split; [apply (keeps_handle_async (fun c => c))|]. split.
  - intros Hattr. unfold _handle_async_operation. now rewrite Hattr.
  - intros Htexts e. unfold _handle_async_operation.
    rewrite try_except_run.
    match goal with
    | |- context [let '(r, env') := ?m env in _] =>
        destruct (m env) as [[v|e0] env1]
    end; [discriminate|].
    destruct (exc_str_answers Htexts e0 env1) as (t1 & env2 & H1).
    destruct (exc_str_answers Htexts e0 env2) as (t2 & env3 & H2).
    destruct (exc_class e0); rewrite bind_run, H1;
      try (intros [= <-]; right; right; now exists t1).
    destruct (PyStr.contains "TimeoutException" t1).
    + intros [= <-]. now left.
    + rewrite bind_run, H2. intros [= <-]. right; left. now exists t2.
Qed.

Lemma handle_async_outcome_witness :
  let run :=
    @_handle_async_operation failing_bridge (PObj 7) 30
      (start_env failing_bridge connected_conn 0%nat) in
  @texts_available failing_bridge /\
  fst run
  = Raise (mkExc RuntimeError
             "Async operation failed: An error occurred while calling the gateway (call 0): java.io.IOException: server unreachable").
Proof.
  assert (Htexts : @texts_available failing_bridge).
  { intros c w Hc. cbn [remote failing_bridge]. rewrite Hc. now eexists. }
  split; [exact Htexts|].
  destruct (handle_async_outcome (H := failing_bridge) (PObj 7) 30
              (start_env failing_bridge connected_conn 0%nat))
    as (_ & _ & Hraise).
  destruct (Hraise Htexts _ eq_refl) as [Ht | [[text Ht] | [text Ht]]];
    reflexivity.
Defined.

(** Without the text, the exception of [_handle_async_operation] is
    neither of the two: what leaves it is the failure of the request for
    the text. *)
Example handle_async_raises_network_error :
  fst (@_handle_async_operation lost_bridge (PObj 7) 30
         (start_env lost_bridge connected_conn 0%nat))
  = Raise (mkExc Py4JNetworkError "Error while sending or receiving").
Proof. reflexivity. Qed.

(** ** Retrying *)

Lemma filter_no_control (l : list Event) :
  Forall (fun ev => is_control ev = false) l -> List.filter is_control l = [].
Proof.
  induction 1 as [|ev l Hev _ IH]; [reflexivity|].
  cbn [List.filter]. now rewrite Hev.
Qed.

Lemma last_or_cons {A} (x : A) (l : list A) (d : option A) :
  match last (x :: l) with Some y => Some y | None => d end
  = match last l with Some y => Some y | None => Some x end.
Proof. rewrite last_cons. now destruct (last l). Qed.

Lemma invocations_control (l : list Event) :
  invocations (List.filter is_control l) = invocations l.
Proof.
  unfold invocations. induction l as [|ev l IH]; [reflexivity|].
  destruct ev; cbn [List.filter is_control is_invoke length]; now rewrite ?IH.
Qed.

Lemma sleeps_control (l : list Event) :
  sleeps (List.filter is_control l) = sleeps l.
Proof.
  induction l as [|ev l IH]; [reflexivity|].
  destruct ev; cbn [List.filter is_control sleeps]; now rewrite ?IH.
Qed.

Lemma invocations_schedule (attempt : Z) (errors : list PyExc) :
  invocations (schedule attempt errors) = length errors.
Proof.
  revert attempt. induction errors as [|e [|e' rest] IH]; intros attempt;
    [reflexivity | reflexivity |].
  change (schedule attempt (e :: e' :: rest))
    with (EInvoke :: EAttemptFailed attempt e :: ESleep attempt
            :: schedule (attempt + 1) (e' :: rest)).
  unfold invocations in *. cbn [List.filter is_invoke length].
  now rewrite IH.
Qed.

Lemma sleeps_schedule (attempt : Z) (errors : list PyExc) :
  sleeps (schedule attempt errors)
  = map (fun i => attempt + Z.of_nat i) (seq 0 (length errors - 1)).
Proof.
  revert attempt. induction errors as [|e [|e' rest] IH]; intros attempt;
    [reflexivity | reflexivity |].
  change (schedule attempt (e :: e' :: rest))
    with (EInvoke :: EAttemptFailed attempt e :: ESleep attempt
            :: schedule (attempt + 1) (e' :: rest)).
  cbn [sleeps]. rewrite IH.
  replace (length (e :: e' :: rest) - 1)%nat with (S (length (e' :: rest) - 1))
    by (cbn [length]; lia).
  cbn [seq map]. f_equal; [lia|].
  rewrite <- seq_shift, map_map. apply map_ext. intros i. lia.
Qed.

Lemma invocations_until_success (attempt : Z) (errors : list PyExc) :
  invocations (schedule_until_success attempt errors) = S (length errors).
Proof.
  revert attempt. induction errors as [|e rest IH]; intros attempt;
    [reflexivity|].
  unfold invocations in *. cbn [schedule_until_success List.filter is_invoke length].
  now rewrite IH.
Qed.

Lemma sleeps_until_success (attempt : Z) (errors : list PyExc) :
  sleeps (schedule_until_success attempt errors)
  = map (fun i => attempt + Z.of_nat i) (seq 0 (length errors)).
Proof.
  revert attempt. induction errors as [|e rest IH]; intros attempt;
    [reflexivity|].
  cbn [schedule_until_success sleeps length seq map]. rewrite IH.
  f_equal; [lia|].
  rewrite <- seq_shift, map_map. apply map_ext. intros i. lia.
Qed.

(** what the request for the text of an exception leaves on the trace is
    calls through the bridge *)
Lemma quiet_exc_str `{Bridge} {Self : Type} (e : PyExc) :
  emits (fun ev => is_control ev = false) (exc_str e : M Self string).
Proof. apply emits_exc_str; reflexivity. Qed.

Section RetryOutcome.
Context `{Bridge}.
Variable operation_func : M FlussConnection PyVal.
Variables max_retries timeout : Z.
Hypothesis texts : texts_available.
Hypothesis op_quiet : emits (fun ev => is_control ev = false) operation_func.

(** one attempt: the operation function is invoked once, and nothing but
    bridge calls follows on the trace *)
Lemma one_attempt (env : Env FlussConnection) :
  exists r env1 added,
    (emit EInvoke ;; attempt operation_func timeout) env = (r, env1) /\
    trace env1 = (trace env ++ EInvoke :: added)%list /\
    Forall (fun ev => is_control ev = false) added.
Proof.
  set (env_a := mkEnv (self env) (world env) (trace env ++ [EInvoke])).
  assert (Hquiet : emits (fun ev => is_control ev = false)
                     (attempt operation_func timeout)).
  { unfold attempt. apply emits_bind; [exact op_quiet|].
    intros f. apply emits_handle_async; reflexivity. }
  destruct (Hquiet env_a) as (added & Etr & Fq).
  exists (fst (attempt operation_func timeout env_a)),
    (snd (attempt operation_func timeout env_a)), added.
  split; [|split].
  - rewrite bind_run. unfold emit. fold env_a.
    now destruct (attempt operation_func timeout env_a).
  - rewrite Etr. unfold env_a. cbn [trace]. now rewrite <- app_assoc.
  - exact Fq.
Qed.

(** the handler of a failed attempt returns: the warning is logged, and a
    sleep follows but after the last attempt of the range *)
Lemma attempt_failed_run (k : Z) (e : PyExc) (env1 : Env FlussConnection) :
  exists env2 added,
    attempt_failed max_retries k e env1 = (Ok tt, env2) /\
    trace env2 = (trace env1 ++ added)%list /\
    List.filter is_control added
    = EAttemptFailed (k + 1) e
      :: (if k <? max_retries - 1 then [ESleep (k + 1)] else []).
Proof.
  unfold attempt_failed. rewrite bind_run.
  destruct (exc_str_answers texts e env1) as (text & env_a & Ha).
  destruct (quiet_exc_str e env1) as (added_t & Etr & Fq).
  rewrite Ha in *. cbn [snd] in Etr.
  rewrite bind_run. unfold emit at 1.
  destruct (k <? max_retries - 1).
  - eexists _, (added_t ++ [EAttemptFailed (k + 1) e; ESleep (k + 1)])%list.
    split; [reflexivity|]. split.
    + cbn [trace]. rewrite Etr, Z.mul_1_l, <- !app_assoc. reflexivity.
    + rewrite List.filter_app, (filter_no_control _ Fq). reflexivity.
  - eexists _, (added_t ++ [EAttemptFailed (k + 1) e])%list.
    split; [reflexivity|]. split.
    + cbn [trace]. rewrite Etr, <- !app_assoc. reflexivity.
    + rewrite List.filter_app, (filter_no_control _ Fq). reflexivity.
Qed.

(** [str(last_exception)] returns, leaving calls through the bridge *)
Lemma str_last_run (last0 : option PyExc) (env : Env FlussConnection) :
  exists text env' added,
    str_last last0 env = (Ok text, env') /\
    trace env' = (trace env ++ added)%list /\
    List.filter is_control added = [].
Proof.
  destruct last0 as [e|]; cbn [str_last].
  - destruct (exc_str_answers texts e env) as (text & env' & Ha).
    destruct (quiet_exc_str e env) as (added & Etr & Fq).
    rewrite Ha in *. cbn [snd] in Etr.
    exists text, env', added. repeat split; [exact Etr|].
    apply filter_no_control, Fq.
  - exists "None", env, []. repeat split. now rewrite app_nil_r.
Qed.

Lemma retry_loop_outcome (m k : nat) (last0 : option PyExc)
      (env : Env FlussConnection) :
  m = 0%nat \/ Z.of_nat (k + m) = max_retries ->
  exists errors env_k added r env',
    retry_loop operation_func max_retries timeout
      (map Z.of_nat (seq k m)) last0 env = (r, env') /\
    failed_attempts operation_func max_retries timeout
      (Z.of_nat k) env errors env_k /\
    trace env' = (trace env ++ added)%list /\
    match r with
    | Ok result =>
        (length errors < m)%nat /\
        (emit EInvoke ;; attempt operation_func timeout) env_k
        = (Ok result, env') /\
        List.filter is_control added
        = schedule_until_success (Z.of_nat k + 1) errors
    | Raise e =>
        length errors = m /\
        (exists text,
            str_last (match last errors with
                      | Some e' => Some e'
                      | None => last0
                      end) env_k = (Ok text, env') /\
            e = retry_error max_retries text) /\
        List.filter is_control added = schedule (Z.of_nat k + 1) errors
    end.
Proof.
  revert k last0 env. induction m as [|m IH]; intros k last0 env Hm.
  - destruct (str_last_run last0 env) as (text & env' & added & Hs & Etr & Hf).
    exists [], env, added, (Raise (retry_error max_retries text)), env'.
    cbn [seq map retry_loop]. rewrite bind_run, Hs.
    split; [reflexivity|]. split; [constructor|]. split; [exact Etr|].
    split; [reflexivity|]. split; [|exact Hf].
    exists text. now split.
  - destruct Hm as [Hm|Hm]; [discriminate|].
    cbn [seq map retry_loop]. rewrite bind_run. unfold reify.
    destruct (one_attempt env) as (r & env1 & added1 & Hatt & Etr1 & Fq1).
    rewrite Hatt.
    destruct r as [result|e].
    { exists [], env, (EInvoke :: added1), (Ok result), env1.
      split; [reflexivity|]. split; [constructor|]. split; [exact Etr1|].
      split; [cbn [length]; lia|]. split; [exact Hatt|].
      cbn [List.filter is_control]. now rewrite (filter_no_control _ Fq1). }
    rewrite bind_run.
    destruct (attempt_failed_run (Z.of_nat k) e env1)
      as (env2 & added2 & Hfail & Etr2 & Hf2).
    rewrite Hfail.
    destruct (IH (S k) (Some e) env2)
      as (errors & env_k & added' & r & env' & -> & Hchain & Etr' & Hout).
    { destruct m; [now left | right; lia]. }
    replace (Z.of_nat (S k)) with (Z.of_nat k + 1) in Hchain, Hout by lia.
    exists (e :: errors), env_k,
      (EInvoke :: added1 ++ added2 ++ added')%list, r, env'.
    split; [reflexivity|]. split.
    { exact (failed_next _ _ _ _ _ _ _ _ _ _ Hatt Hfail Hchain). }
    split.
    { rewrite Etr', Etr2, Etr1. rewrite <- !app_assoc. reflexivity. }
    assert (Hfilter :
              List.filter is_control (EInvoke :: added1 ++ added2 ++ added')%list
              = (EInvoke :: EAttemptFailed (Z.of_nat k + 1) e
                   :: (if Z.of_nat k <? max_retries - 1
                       then [ESleep (Z.of_nat k + 1)] else [])
                   ++ List.filter is_control added')%list).
    { cbn [List.filter is_control]. rewrite !List.filter_app.
      now rewrite (filter_no_control _ Fq1), Hf2. }
    rewrite Hfilter.
    destruct r as [result|e'].
    + destruct Hout as (Hlen & Hok & Hsched).
      split; [cbn [length]; lia|]. split; [exact Hok|].
      rewrite Hsched.
      assert (Hc : (Z.of_nat k <? max_retries - 1) = true)
        by (apply Z.ltb_lt; lia).
      rewrite Hc. reflexivity.
    + destruct Hout as (Hlen & (text & Hs & ->) & Hsched).
      split; [cbn [length]; lia|]. split.
      { exists text. split; [|reflexivity]. now rewrite last_or_cons. }
      rewrite Hsched. destruct errors as [|e'' errors].
      * cbn [length] in Hlen. subst m.
        assert (Hc : (Z.of_nat k <? max_retries - 1) = false)
          by (apply Z.ltb_ge; lia).
        now rewrite Hc.
      * cbn [length] in Hlen.
        assert (Hc : (Z.of_nat k <? max_retries - 1) = true)
          by (apply Z.ltb_lt; lia).
        now rewrite Hc.
Qed.

End RetryOutcome.

(** X6: the retry wrapper, for any operation function that leaves nothing
    but bridge calls on the trace, when the text of a remote exception can
    be fetched.  The attempts fail one after the other, each starting in
    the state the handler of the one before has left, with the exceptions
    [errors].  Either the wrapper returns, with the result of the first
    attempt that succeeds: then fewer than [max_retries] attempts failed
    before, each failure was logged and followed by a sleep of 1, 2, ...
    seconds, and nothing is slept when the first attempt succeeds.  Or it
    raises: then every one of the [max_retries] attempts failed, the
    sleeps were of 1, ..., [max_retries - 1] seconds, and the exception is
    the consolidated [RuntimeError] whose message ends with the text of
    the exception of the last attempt, never the exception of an attempt
    itself.  The operation function is invoked at most [max_retries]
    times; when it raises on every invocation, the wrapper raises. *)
Theorem retry_outcome `{Bridge}
        (operation_func : M FlussConnection PyVal) (max_retries timeout : Z)
        (env : Env FlussConnection) :
  texts_available ->
  emits (fun ev => is_control ev = false) operation_func ->
  exists errors env_k added,
    let run := _handle_async_operation_with_retry
                 operation_func max_retries timeout env in
    failed_attempts operation_func max_retries timeout 0 env errors env_k /\
    trace (snd run) = (trace env ++ added)%list /\
    (invocations added <= Z.to_nat max_retries)%nat /\
    (always_fails operation_func -> exists e, fst run = Raise e) /\
    match fst run with
    | Ok result =>
        (length errors < Z.to_nat max_retries)%nat /\
        (emit EInvoke ;; attempt operation_func timeout) env_k
        = (Ok result, snd run) /\
        List.filter is_control added = schedule_until_success 1 errors /\
        invocations added = S (length errors) /\
        sleeps added = map (fun i => 1 + Z.of_nat i) (seq 0 (length errors))
    | Raise e =>
        length errors = Z.to_nat max_retries /\
        (exists text,
            str_last (last errors) env_k = (Ok text, snd run) /\
            e = retry_error max_retries text) /\
        List.filter is_control added = schedule 1 errors /\
        invocations added = Z.to_nat max_retries /\
        sleeps added
        = map (fun i => 1 + Z.of_nat i) (seq 0 (Z.to_nat max_retries - 1))
    end.
Proof.
  intros Htexts Hquiet.
  destruct (retry_loop_outcome operation_func max_retries timeout Htexts Hquiet
              (Z.to_nat max_retries) 0 None env)
    as (errors & env_k & added & r & env' & Hrun & Hchain & Etr & Hout).
  { destruct (Z_le_gt_dec max_retries 0) as [Hle|Hgt].
    - left. destruct max_retries; try reflexivity; lia.
    - right. cbn [Nat.add]. apply Z2Nat.id. lia. }
  exists errors, env_k, added. cbv zeta.
  unfold _handle_async_operation_with_retry, py_range. rewrite Hrun.
  cbn [fst snd].
  change (Z.of_nat 0 + 1) with 1 in Hout. change (Z.of_nat 0) with 0 in Hchain.
  split; [exact Hchain|]. split; [exact Etr|].
  destruct r as [result|e].
  - destruct Hout as (Hlen & Hok & Hsched).
    assert (Hinv : invocations added = S (length errors))
      by now rewrite <- invocations_control, Hsched, invocations_until_success.
    split; [lia|]. split.
    { intros Hfails. exfalso.
      rewrite bind_run in Hok. unfold emit, attempt in Hok.
      rewrite bind_run in Hok.
      match type of Hok with
      | context [operation_func ?e0] =>
          destruct (Hfails e0) as [e He];
          destruct (operation_func e0) as [[f|e1] env1]
      end; [discriminate He | discriminate Hok]. }
    repeat split; try assumption.
    now rewrite <- sleeps_control, Hsched, sleeps_until_success.
  - destruct Hout as (Hlen & (text & Hs & ->) & Hsched).
    assert (Hinv : invocations added = Z.to_nat max_retries)
      by now rewrite <- invocations_control, Hsched, invocations_schedule.
    split; [lia|]. split; [intros _; now eexists|].
    split; [exact Hlen|]. split.
    { exists text. split; [|reflexivity]. now destruct (last errors). }
    split; [exact Hsched|]. split; [exact Hinv|].
    now rewrite <- sleeps_control, Hsched, sleeps_schedule, Hlen.
Qed.

Lemma failing_bridge_texts : @texts_available failing_bridge.
Proof. intros c w Hc. cbn [remote failing_bridge]. rewrite Hc. now eexists. Defined.

Lemma list_operation_quiet (B : Bridge) :
  @emits B _ _ (fun ev => is_control ev = false) list_operation.
Proof.
  intros env. exists [ECall (mkCall (PObj 5) "listDatabases" [])].
  unfold list_operation, method_call, call.
  destruct (remote _ (world env)). split; [reflexivity | repeat constructor].
Defined.

Lemma retry_outcome_witness :
  exists errors env_k added,
    let run := @_handle_async_operation_with_retry failing_bridge
                 list_operation 3 30
                 (start_env failing_bridge connected_conn 0%nat) in
    @failed_attempts failing_bridge list_operation 3 30 0
      (start_env failing_bridge connected_conn 0%nat) errors env_k /\
    trace (snd run) = ([] ++ added)%list /\
    (invocations added <= 3)%nat /\
    (@always_fails failing_bridge _ _ list_operation ->
     exists e, fst run = Raise e) /\
    length errors = 3%nat /\
    (exists text,
        str_last (last errors) env_k = (Ok text, snd run) /\
        mkExc RuntimeError
          "Async operation failed after 3 attempts. Last error: An error occurred while calling the gateway (call 2): java.io.IOException: server unreachable"
        = retry_error 3 text) /\
    List.filter is_control added = schedule 1 errors /\
    invocations added = 3%nat /\
    sleeps added = [1; 2].
Proof.
  exact (retry_outcome (H := failing_bridge) list_operation 3 30
           (start_env failing_bridge connected_conn 0%nat)
           failing_bridge_texts (list_operation_quiet failing_bridge)).
Defined.

(** On the bridge of the example the three failures are those of the
    calls numbered 0, 1 and 2, and the error of the wrapper is about the
    third: the exceptions of the chain are determined by the run. *)
Example retry_reports_last_failure :
  forall errors env_k,
    @failed_attempts failing_bridge list_operation 3 30 0
      (start_env failing_bridge connected_conn 0%nat) errors env_k ->
    length errors = 3%nat ->
    map exc_msg errors
    = ["An error occurred while calling the gateway (call 0)";
       "An error occurred while calling the gateway (call 1)";
       "An error occurred while calling the gateway (call 2)"].
Proof.
  intros errors env_k Hchain Hlen.
  destruct errors as [|e1 [|e2 [|e3 [|e4 rest]]]]; try discriminate Hlen.
  inversion Hchain as [|? ? ? ? ? ? ? H1 F1 C1]; subst.
  vm_compute in H1. injection H1 as <- <-.
  vm_compute in F1. injection F1 as <-.
  inversion C1 as [|? ? ? ? ? ? ? H2 F2 C2]; subst.
  vm_compute in H2. injection H2 as <- <-.
  vm_compute in F2. injection F2 as <-.
  inversion C2 as [|? ? ? ? ? ? ? H3 F3 C3]; subst.
  vm_compute in H3. injection H3 as <- <-.
  reflexivity.
Qed.

(** ** Schemas: primary keys, selection, validation *)

Lemma check_primary_keys_raise (field_names primary_keys : list string) (e : PyExc) :
  Schema.check_primary_keys field_names primary_keys = Raise e ->
  exists checked pk rest,
    primary_keys = (checked ++ pk :: rest)%list /\
    Forall (fun x => x ∈ field_names) checked /\
    (pk ∉ field_names) /\
    e = mkExc ValueError ("Primary key field '" ++ pk ++ "' not found in schema").
Proof.
  induction primary_keys as [|pk rest IH]; [discriminate|].
  cbn [Schema.check_primary_keys].
  destruct (PyStr.in_list pk field_names) eqn:Hin; cbn [negb].
  - intros Hrest. destruct (IH Hrest) as (checked & pk' & rest' & -> & Hall & Hpk & ->).
    exists (pk :: checked), pk', rest'. repeat split; try assumption.
    constructor; [now apply in_list_elem_of | exact Hall].
  - intros [= <-]. exists [], pk, rest. repeat split; [constructor|].
    intros Hpk. apply in_list_elem_of in Hpk. congruence.
Qed.

Lemma check_primary_keys_inv (field_names primary_keys : list string) :
  Schema.check_primary_keys field_names primary_keys = Ok tt ->
  Forall (fun pk => pk ∈ field_names) primary_keys.
Proof.
  induction primary_keys as [|pk rest IH]; [constructor|].
  cbn [Schema.check_primary_keys].
  destruct (PyStr.in_list pk field_names) eqn:Hin; cbn [negb]; [|discriminate].
  intros Hrest. constructor; [now apply in_list_elem_of | now apply IH].
Qed.

(** X7: [with_primary_keys] succeeds exactly when every key is a field of
    the schema.  When it fails, the [ValueError] names the first key, in the
    order given, that is no field.  When it succeeds, the fields are
    untouched, every other entry of the metadata is kept, and the entry
    [primary_keys] holds the keys joined by commas, replacing what was
    there; with the empty list of keys the new schema has no primary keys
    at all, whatever the schema had before. *)
Theorem with_primary_keys_outcome (s : Schema.ArrowSchema)
        (primary_keys : list string) :
  match Schema.with_primary_keys s primary_keys with
  | Ok s' =>
      Forall (fun pk => pk ∈ Schema.get_field_names s) primary_keys /\
      Schema.fields (Schema._arrow_schema s')
      = Schema.fields (Schema._arrow_schema s) /\
      (exists md,
          Schema.metadata (Schema._arrow_schema s') = Some md /\
          md !! Schema.PRIMARY_KEYS = Some (PyStr.join "," primary_keys) /\
          forall key, key <> Schema.PRIMARY_KEYS ->
                      md !! key
                      = default ∅ (Schema.metadata (Schema._arrow_schema s)) !! key) /\
      (primary_keys = [] -> Schema.get_primary_keys s' = None)
  | Raise e =>
      exists checked pk rest,
        primary_keys = (checked ++ pk :: rest)%list /\
        Forall (fun x => x ∈ Schema.get_field_names s) checked /\
        (pk ∉ Schema.get_field_names s) /\
        e = mkExc ValueError
              ("Primary key field '" ++ pk ++ "' not found in schema")
  end.
Proof.
  unfold Schema.with_primary_keys.
  destruct (Schema.check_primary_keys (Schema.get_field_names s) primary_keys)
    as [[]|e] eqn:Hcheck.
  - split; [now apply check_primary_keys_inv|]. split; [reflexivity|]. split.
    + eexists. split; [reflexivity|]. split; [apply lookup_insert_eq|].
      intros key Hkey. rewrite lookup_insert_ne by congruence.
      destruct (Schema.metadata (Schema._arrow_schema s)) as [md|];
        cbn [Schema.metadata_truthy default]; [|reflexivity].
      destruct (bool_decide (md = ∅)) eqn:Hmd; cbn [negb]; [|reflexivity].
      apply bool_decide_eq_true in Hmd. now subst md.
    + intros ->. unfold Schema.get_primary_keys.
      cbn [Schema._arrow_schema Schema.with_metadata Schema.metadata].
      unfold Schema.metadata_truthy at 1.
      rewrite bool_decide_eq_false_2 by apply insert_non_empty.
      cbn [negb default]. unfold id. now rewrite lookup_insert_eq.
  - now apply check_primary_keys_raise.
Qed.

Lemma check_fields_raise (schema_field_names field_names : list string) (e : PyExc) :
  SchemaOps.check_fields schema_field_names field_names = Raise e ->
  exists checked field_name rest,
    field_names = (checked ++ field_name :: rest)%list /\
    Forall (fun x => x ∈ schema_field_names) checked /\
    (field_name ∉ schema_field_names) /\
    e = mkExc ValueError ("Field '" ++ field_name ++ "' not found in schema").
Proof.
  induction field_names as [|n rest IH]; [discriminate|].
  cbn [SchemaOps.check_fields].
  destruct (PyStr.in_list n schema_field_names) eqn:Hin; cbn [negb].
  - intros Hrest. destruct (IH Hrest) as (checked & n' & rest' & -> & Hall & Hn & ->).
    exists (n :: checked), n', rest'. repeat split; try assumption.
    constructor; [now apply in_list_elem_of | exact Hall].
  - intros [= <-]. exists [], n, rest. repeat split; [constructor|].
    intros Hn. apply in_list_elem_of in Hn. congruence.
Qed.

Lemma check_fields_inv (schema_field_names field_names : list string) :
  SchemaOps.check_fields schema_field_names field_names = Ok tt ->
  Forall (fun n => n ∈ schema_field_names) field_names.
Proof.
  induction field_names as [|n rest IH]; [constructor|].
  cbn [SchemaOps.check_fields].
  destruct (PyStr.in_list n schema_field_names) eqn:Hin; cbn [negb]; [|discriminate].
  intros Hrest. constructor; [now apply in_list_elem_of | now apply IH].
Qed.

Lemma first_field_found (field_name : string) (fields : list Schema.Field) :
  field_name ∈ map Schema.name fields ->
  exists f, SchemaOps.first_field field_name fields = Some f /\
            Schema.name f = field_name /\ f ∈ fields.
Proof.
  induction fields as [|f rest IH]; cbn [map SchemaOps.first_field].
  - intros Hin. inversion Hin.
  - intros Hin. destruct (String.eqb (Schema.name f) field_name) eqn:Heq.
    + apply String.eqb_eq in Heq. exists f. repeat split; [exact Heq | left].
    + apply elem_of_cons in Hin as [Hin|Hin].
      * subst field_name. now rewrite String.eqb_refl in Heq.
      * destruct (IH Hin) as (g & Hg & Hname & Hmem).
        exists g. repeat split; [exact Hg | exact Hname | now right].
Qed.

Lemma select_fields_ok `{Unicode} (fields : list Schema.Field)
      (field_names : list string) :
  Forall (fun n => n ∈ map Schema.name fields) field_names ->
  exists selected,
    SchemaOps.select_fields fields field_names = Ok selected /\
    map Schema.name selected = field_names /\
    Forall (fun f => f ∈ fields) selected.
Proof.
  induction 1 as [|n rest Hn _ IH]; cbn [SchemaOps.select_fields].
  - exists []. repeat split. constructor.
  - destruct (first_field_found n fields Hn) as (f & -> & Hname & Hmem).
    destruct IH as (selected & -> & Hnames & Hall).
    exists (f :: selected). repeat split.
    + cbn [map]. now rewrite Hname, Hnames.
    + now constructor.
Qed.

(** X8: [select] succeeds exactly when every requested name is a field of
    the schema; the [ValueError] of the failure names the first requested
    name that is none, and the lookup by position that follows the check can
    never fail.  The result has the requested names in the requested order
    (a name asked for twice comes twice), each field is a field of the
    original schema, and the metadata is carried over unchanged: the primary
    keys stay declared even when [select] has dropped their columns. *)
Theorem select_outcome `{Unicode} (s : Schema.ArrowSchema)
        (field_names : list string) :
  match SchemaOps.select s field_names with
  | Ok s' =>
      Forall (fun n => n ∈ Schema.get_field_names s) field_names /\
      Schema.get_field_names s' = field_names /\
      Forall (fun f => f ∈ Schema.fields (Schema._arrow_schema s))
             (Schema.fields (Schema._arrow_schema s')) /\
      Schema.metadata (Schema._arrow_schema s')
      = Schema.metadata (Schema._arrow_schema s) /\
      Schema.get_primary_keys s' = Schema.get_primary_keys s
  | Raise e =>
      exists checked field_name rest,
        field_names = (checked ++ field_name :: rest)%list /\
        Forall (fun x => x ∈ Schema.get_field_names s) checked /\
        (field_name ∉ Schema.get_field_names s) /\
        e = mkExc ValueError ("Field '" ++ field_name ++ "' not found in schema")
  end.
Proof.
  unfold SchemaOps.select.
  destruct (SchemaOps.check_fields (Schema.get_field_names s) field_names)
    as [[]|e] eqn:Hcheck.
  - apply check_fields_inv in Hcheck.
    destruct (select_fields_ok _ _ Hcheck) as (selected & -> & Hnames & Hall).
    repeat split; assumption.
  - now apply check_fields_raise.
Qed.

Lemma remove_dups_length (l : list string) :
  (length (remove_dups l) <= length l)%nat.
Proof.
  induction l as [|x l IH]; [reflexivity|].
  cbn [remove_dups]. destruct (decide_rel elem_of x l); cbn [length]; lia.
Qed.

Lemma remove_dups_same_length (l : list string) :
  length (remove_dups l) = length l <-> NoDup l.
Proof.
  induction l as [|x l IH]; [split; [constructor | reflexivity]|].
  cbn [remove_dups]. pose proof (remove_dups_length l) as Hle.
  destruct (decide_rel elem_of x l) as [Hin|Hin]; cbn [length].
  - split; [lia|]. intros Hnd. apply NoDup_cons in Hnd as [Hx _]. contradiction.
  - split.
    + intros [= Hlen]. apply NoDup_cons. split; [exact Hin | now apply IH].
    + intros Hnd. apply NoDup_cons in Hnd as [_ Hnd]. f_equal. now apply IH.
Qed.

(** X9: [validate] declares a schema valid exactly when its field names are
    pairwise different and none of them is empty or becomes empty under
    [strip()] (white space only, by the character tables of Python); and
    it reports an error exactly when the schema is not valid.  Complex
    types only give warnings. *)
Theorem validate_valid_iff `{Unicode} (s : Schema.ArrowSchema) :
  (SchemaOps.valid (SchemaOps.validate s) = true <->
   NoDup (Schema.get_field_names s) /\
   Forall (fun n => n <> "" /\ str_strip n <> "") (Schema.get_field_names s)) /\
  (SchemaOps.errors (SchemaOps.validate s) = [] <->
   SchemaOps.valid (SchemaOps.validate s) = true).
Proof.
  unfold SchemaOps.validate. cbn [SchemaOps.valid SchemaOps.errors].
  set (field_names := Schema.get_field_names s).
  split.
  - assert (Hone : forall n, SchemaOps.is_blank n = false <->
                             n <> "" /\ str_strip n <> "").
    { intros n. unfold SchemaOps.is_blank.
      rewrite orb_false_iff, !negb_false_iff.
      destruct n as [|c n]; destruct (str_strip _) as [|c' n'];
        cbn [PyStr.truthy]; split; intros [H1 H2];
        first [discriminate | congruence | (split; [reflexivity | reflexivity])
              | (split; discriminate)]. }
    assert (Hblank : existsb SchemaOps.is_blank field_names = false <->
                     Forall (fun n => n <> "" /\ str_strip n <> "") field_names).
    { rewrite <- not_true_iff_false, existsb_exists, Forall_forall. split.
      - intros Hnone n Hn. apply Hone.
        destruct (SchemaOps.is_blank n) eqn:Hb; [|reflexivity].
        exfalso. apply Hnone. exists n.
        split; [now apply list_elem_of_In | exact Hb].
      - intros Hall (n & Hn & Hb). apply list_elem_of_In in Hn.
        apply Hall, Hone in Hn. rewrite Hn in Hb. discriminate. }
    rewrite andb_true_iff, !negb_true_iff, negb_false_iff, Nat.eqb_eq.
    rewrite <- (remove_dups_same_length field_names), Hblank.
    split; intros [Hlen Hall]; (split; [now symmetry | exact Hall]).
  - destruct (negb (length field_names =? length (remove_dups field_names))%nat);
      destruct (existsb SchemaOps.is_blank field_names); cbn;
      split; first [reflexivity | discriminate].
Qed.

(** A name of one character, the separator 28: white space for [strip()],
    so the schema is not valid. *)
Example validate_refuses_separator_name `{Unicode} :
  SchemaOps.valid
    (SchemaOps.validate
       (Schema.mkArrowSchema
          (Schema.mkPaSchema
             [Schema.mkField (String (ascii_of_nat 28) "") "int64" true ∅] None)))
  = false.
Proof.
  unfold SchemaOps.validate. cbn [SchemaOps.valid].
  unfold Schema.get_field_names, Schema.names.
  cbn [Schema._arrow_schema Schema.fields map Schema.name existsb].
  unfold SchemaOps.is_blank.
  rewrite (str_strip_ascii (String (ascii_of_nat 28) "") eq_refl).
  reflexivity.
Qed.

Lemma field_types_lookup (fields : list Schema.Field) (m : gmap string string)
      (n : string) :
  n ∈ map Schema.name fields ->
  is_Some (fold_left (fun m f => <[Schema.name f := Schema.type f]> m) fields m !! n).
Proof.
  assert (Hkeep : forall fs (m0 : gmap string string),
             is_Some (m0 !! n) ->
             is_Some (fold_left (fun m f => <[Schema.name f := Schema.type f]> m)
                                fs m0 !! n)).
  { induction fs as [|f fs IH]; intros m0 Hm0; [exact Hm0|].
    cbn [fold_left]. apply IH.
    destruct (decide (Schema.name f = n)) as [->|Hne].
    - rewrite lookup_insert_eq. now eexists.
    - now rewrite lookup_insert_ne. }
  revert m. induction fields as [|f fields IH]; intros m Hin; [inversion Hin|].
  cbn [map fold_left] in *. apply elem_of_cons in Hin as [->|Hin].
  - apply Hkeep. rewrite lookup_insert_eq. now eexists.
  - now apply IH.
Qed.

Lemma schema_columns_of_total (names : list string) (field_types : gmap string string) :
  Forall (fun n => is_Some (field_types !! n)) names ->
  exists cols,
    schema_columns_of names field_types = Ok cols /\
    map fst cols = map PStr names.
Proof.
  induction 1 as [|n rest [t Hn] _ IH]; cbn [schema_columns_of].
  - now exists [].
  - rewrite Hn. destruct IH as (cols & -> & Hnames).
    eexists. split; [reflexivity|]. cbn [map fst]. now rewrite Hnames.
Qed.

(** X10: the columns [create_table] derives from a schema object: the
    lookup [field_types[field_name]] cannot fail, since [get_field_types]
    has an entry for every name of [get_field_names]; there is one column
    per field name, in the order of the schema. *)
Theorem schema_columns_total (s : Schema.ArrowSchema) :
  exists cols,
    schema_columns_of (Schema.get_field_names s) (SchemaOps.get_field_types s)
    = Ok cols /\
    map fst cols = map PStr (Schema.get_field_names s).
Proof.
  apply schema_columns_of_total, Forall_forall.
  intros n Hn. now apply field_types_lookup.
Qed.

(** ** The mapping of type names, on parameterised types *)

Lemma string_app_empty (s : string) : s ++ "" = s.
Proof. induction s as [|c s IH]; [reflexivity|]. now rewrite string_app_cons, IH. Qed.

Lemma is_ascii_app (a b : string) :
  PyStr.is_ascii (a ++ b) = PyStr.is_ascii a && PyStr.is_ascii b.
Proof.
  unfold PyStr.is_ascii. induction a as [|c a IH]; [reflexivity|].
  rewrite string_app_cons. cbn [list_ascii_of_string forallb].
  now rewrite IH, andb_assoc.
Qed.

(** on an ASCII string the upper-casing of Python is that of [PyStr] *)
Lemma str_upper_on_ascii `{Unicode} (a : string) :
  PyStr.is_ascii a = true -> str_upper a = PyStr.upper a.
Proof.
  intros Ha. rewrite <- (string_app_empty a) at 1.
  now rewrite (str_upper_ascii a "" Ha), str_upper_empty, string_app_empty.
Qed.

Lemma upper_ascii_small (c : ascii) :
  (nat_of_ascii (PyStr.upper_ascii c) <? 128)%nat = (nat_of_ascii c <? 128)%nat.
Proof.
  unfold PyStr.upper_ascii. cbv zeta.
  destruct ((97 <=? nat_of_ascii c)%nat && (nat_of_ascii c <=? 122)%nat) eqn:Hc;
    [|reflexivity].
  apply andb_prop in Hc as [Hlo Hhi].
  apply Nat.leb_le in Hlo. apply Nat.leb_le in Hhi.
  rewrite nat_ascii_embedding by lia.
  transitivity true; [apply Nat.ltb_lt; lia | symmetry; apply Nat.ltb_lt; lia].
Qed.

Lemma upper_is_ascii (s : string) :
  PyStr.is_ascii (PyStr.upper s) = PyStr.is_ascii s.
Proof.
  unfold PyStr.is_ascii, PyStr.upper. induction s as [|c s IH]; [reflexivity|].
  cbn [PyStr.map_chars list_ascii_of_string forallb].
  now rewrite upper_ascii_small, IH.
Qed.

Lemma class_is_ascii (q : ascii -> bool) (s : string) :
  (forall c, q c = true -> (nat_of_ascii c <? 128)%nat = true) ->
  forallb q (list_ascii_of_string s) = true -> PyStr.is_ascii s = true.
Proof.
  intros Hq. unfold PyStr.is_ascii. induction s as [|c s IH]; [reflexivity|].
  cbn [list_ascii_of_string forallb]. intros Hall.
  apply andb_prop in Hall as [Hc Hs]. now rewrite (Hq c Hc), (IH Hs).
Qed.

Lemma digit_small (c : ascii) :
  PyStr.is_digit c = true -> (nat_of_ascii c <? 128)%nat = true.
Proof.
  unfold PyStr.is_digit. cbv zeta. intros Hd.
  apply andb_prop in Hd as [_ Hhi]. apply Nat.leb_le in Hhi.
  apply Nat.ltb_lt. lia.
Qed.

Lemma space_small (c : ascii) :
  PyStr.is_space c = true -> (nat_of_ascii c <? 128)%nat = true.
Proof.
  unfold PyStr.is_space. cbv zeta. intros Hs. apply Nat.ltb_lt.
  apply orb_prop in Hs as [Hs|Hs]; [apply orb_prop in Hs as [Hs|Hs]|].
  - apply Nat.eqb_eq in Hs. lia.
  - apply andb_prop in Hs as [_ Hs]. apply Nat.leb_le in Hs. lia.
  - apply andb_prop in Hs as [_ Hs]. apply Nat.leb_le in Hs. lia.
Qed.

Lemma upper_fixed (q : ascii -> bool) (s : string) :
  (forall c, q c = true -> PyStr.upper_ascii c = c) ->
  forallb q (list_ascii_of_string s) = true -> PyStr.upper s = s.
Proof.
  intros Hq. unfold PyStr.upper. induction s as [|c s IH]; [reflexivity|].
  cbn [list_ascii_of_string forallb PyStr.map_chars]. intros Hall.
  apply andb_prop in Hall as [Hc Hs]. now rewrite (Hq c Hc), (IH Hs).
Qed.

Lemma upper_digit (c : ascii) : PyStr.is_digit c = true -> PyStr.upper_ascii c = c.
Proof.
  unfold PyStr.is_digit, PyStr.upper_ascii. cbv zeta. intros Hd.
  apply andb_prop in Hd as [_ Hle]. apply Nat.leb_le in Hle.
  assert (Hno : (97 <=? nat_of_ascii c)%nat = false) by (apply Nat.leb_gt; lia).
  now rewrite Hno.
Qed.

Lemma upper_space (c : ascii) : PyStr.is_space c = true -> PyStr.upper_ascii c = c.
Proof.
  unfold PyStr.is_space, PyStr.upper_ascii. cbv zeta. intros Hs.
  assert (Hno : (97 <=? nat_of_ascii c)%nat = false).
  { apply Nat.leb_gt.
    apply orb_prop in Hs as [Hs|Hs]; [apply orb_prop in Hs as [Hs|Hs]|].
    - apply Nat.eqb_eq in Hs. lia.
    - apply andb_prop in Hs as [_ Hs]. apply Nat.leb_le in Hs. lia.
    - apply andb_prop in Hs as [_ Hs]. apply Nat.leb_le in Hs. lia. }
  now rewrite Hno.
Qed.

Lemma span_app (q : ascii -> bool) (s r : string) :
  forallb q (list_ascii_of_string s) = true ->
  head_is q r = false ->
  PyStr.span q (s ++ r) = (s, r).
Proof.
  intros Hall Hr. induction s as [|c s IH].
  - rewrite string_app_nil. destruct r as [|c r]; [reflexivity|].
    cbn [head_is] in Hr. cbn [PyStr.span]. now rewrite Hr.
  - cbn [list_ascii_of_string forallb] in Hall.
    apply andb_prop in Hall as [Hc Hs].
    rewrite string_app_cons. cbn [PyStr.span]. now rewrite Hc, (IH Hs).
Qed.

Lemma digit_no_space (c : ascii) : PyStr.is_digit c = true -> PyStr.is_space c = false.
Proof.
  unfold PyStr.is_digit, PyStr.is_space. cbv zeta. intros Hd.
  apply andb_prop in Hd as [Hlo Hhi].
  apply Nat.leb_le in Hlo. apply Nat.leb_le in Hhi.
  repeat (apply orb_false_intro || apply andb_false_intro2
          || apply andb_false_intro1);
    first [apply Nat.eqb_neq; lia | apply Nat.leb_gt; lia].
Qed.

Lemma head_digits_then (q : ascii -> bool) (s r : string) :
  (forall c, PyStr.is_digit c = true -> q c = false) ->
  all_digits s = true -> head_is q r = false -> head_is q (s ++ r) = false.
Proof.
  intros Hq Hs Hr. destruct s as [|c s]; [now rewrite string_app_nil|].
  rewrite string_app_cons. cbn [head_is].
  unfold all_digits in Hs. cbn [list_ascii_of_string forallb] in Hs.
  apply andb_prop in Hs as [Hc _]. now apply Hq.
Qed.

(** *** [int()] of a string of digits *)

Lemma digit_no_int_space (c : ascii) :
  PyStr.is_digit c = true -> PyStr.is_int_space c = false.
Proof.
  unfold PyStr.is_digit, PyStr.is_int_space. cbv zeta. intros Hd.
  apply andb_prop in Hd as [Hlo Hhi].
  apply Nat.leb_le in Hlo. apply Nat.leb_le in Hhi.
  repeat (apply orb_false_intro || apply andb_false_intro2
          || apply andb_false_intro1);
    first [apply Nat.eqb_neq; lia | apply Nat.leb_gt; lia].
Qed.

Lemma drop_while_none (q : ascii -> bool) (l : list ascii) :
  Forall (fun c => q c = false) l -> PyStr.drop_while q l = l.
Proof. destruct 1 as [|c l Hc _]; [reflexivity|]. cbn. now rewrite Hc. Qed.

Lemma trim_digits (s : string) :
  all_digits s = true -> PyStr.trim PyStr.is_int_space s = s.
Proof.
  unfold all_digits, PyStr.trim. intros Hs.
  assert (Hall : Forall (fun c => PyStr.is_int_space c = false)
                        (list_ascii_of_string s)).
  { apply Forall_forall. intros c Hc. apply digit_no_int_space.
    rewrite forallb_forall in Hs. apply Hs. now apply list_elem_of_In. }
  cbv zeta. rewrite (drop_while_none _ _ Hall).
  rewrite drop_while_none.
  - now rewrite rev_involutive, string_of_list_ascii_of_string.
  - now apply Forall_rev.
Qed.

Lemma literal_digits_all (after_digit : bool) (l : list ascii) :
  forallb PyStr.is_digit l = true ->
  (l <> [] \/ after_digit = true) ->
  PyStr.literal_digits after_digit l = Some l.
Proof.
  revert after_digit. induction l as [|c l IH]; intros after_digit Hall Hne.
  - destruct Hne as [Hne| ->]; [congruence | reflexivity].
  - cbn [forallb] in Hall. apply andb_prop in Hall as [Hc Hl].
    cbn [PyStr.literal_digits]. rewrite Hc.
    rewrite (IH true Hl); [reflexivity | now right].
Qed.

Lemma digit_no_sign (c : ascii) (l : list ascii) :
  PyStr.is_digit c = true ->
  match c :: l with
  | "-"%char :: b => (true, b)
  | "+"%char :: b => (false, b)
  | _ => (false, c :: l)
  end = (false, c :: l).
Proof.
  destruct c as [[] [] [] [] [] [] [] []]; intros Hd;
    first [reflexivity | discriminate Hd].
Qed.

Lemma int_of_string_digits (p : string) :
  all_digits p = true -> p <> "" ->
  PyStr.int_of_string p = Some (PyStr.digits_to_Z p).
Proof.
  intros Hp Hne. unfold PyStr.int_of_string. cbv zeta.
  rewrite (trim_digits p Hp).
  destruct p as [|c p]; [congruence|].
  unfold all_digits in Hp. cbn [list_ascii_of_string forallb] in Hp.
  pose proof Hp as Hall. apply andb_prop in Hp as [Hc Hrest].
  cbn [list_ascii_of_string].
  rewrite (digit_no_sign c _ Hc).
  rewrite (literal_digits_all false (c :: list_ascii_of_string p));
    [|exact Hall | left; discriminate].
  change (c :: list_ascii_of_string p) with (list_ascii_of_string (String c p)).
  now rewrite string_of_list_ascii_of_string.
Qed.

Lemma int_of_str_digits `{Unicode} (p : string) :
  all_digits p = true -> p <> "" -> (String.length p <= 4300)%nat ->
  int_of_str p = Ok (PyStr.digits_to_Z p).
Proof.
  intros Hp Hne Hlen. unfold int_of_str.
  pose proof (str_int_ascii p (class_is_ascii _ _ digit_small Hp) Hlen) as Hint.
  rewrite (int_of_string_digits p Hp Hne) in Hint.
  destruct (str_int p) as [z|msg]; [|discriminate Hint].
  now injection Hint as <-.
Qed.

(** X11: the parameters of a decimal type survive the mapping in the form
    [decimal(p,s)], in any letter case of the word: for digit strings [p]
    (not empty) and [s] and any white space after the comma, the remote
    type is DECIMAL with precision [p] and scale [s], the scale being 0
    when [s] is missing, also without the comma.  (The digit strings are
    shorter than the longest literal [int()] accepts.) *)
Theorem decimal_parameters_parsed `{Unicode} (prefix p s ws : string) :
  PyStr.upper prefix = "DECIMAL(" ->
  all_digits p = true -> p <> "" ->
  all_digits s = true -> all_spaces ws = true ->
  (String.length p <= 4300)%nat -> (String.length s <= 4300)%nat ->
  _map_type_to_fluss_datatype (prefix ++ p ++ "," ++ ws ++ s ++ ")")
  = Ok (DT_DECIMAL (PyStr.digits_to_Z p) (PyStr.digits_to_Z s)) /\
  _map_type_to_fluss_datatype (prefix ++ p ++ ")")
  = Ok (DT_DECIMAL (PyStr.digits_to_Z p) 0).
Proof.
  intros Hprefix Hp Hne Hs Hws Hlp Hls.
  assert (Hup : PyStr.upper p = p) by (apply (upper_fixed _ _ upper_digit), Hp).
  assert (Hus : PyStr.upper s = s) by (apply (upper_fixed _ _ upper_digit), Hs).
  assert (Huw : PyStr.upper ws = ws) by (apply (upper_fixed _ _ upper_space), Hws).
  assert (Htruthy : PyStr.truthy p = true) by (destruct p; [congruence | reflexivity]).
  assert (Hap : PyStr.is_ascii prefix = true).
  { rewrite <- upper_is_ascii, Hprefix. reflexivity. }
  pose proof (class_is_ascii _ _ digit_small Hp) as Hasc_p.
  pose proof (class_is_ascii _ _ digit_small Hs) as Hasc_s.
  pose proof (class_is_ascii _ _ space_small Hws) as Hasc_w.
  assert (Hwhole : forall tail,
             PyStr.is_ascii tail = true -> PyStr.upper tail = tail ->
             str_upper (prefix ++ tail) = "DECIMAL(" ++ tail /\
             decimal_groups ("DECIMAL(" ++ tail) = decimal_match ("DECIMAL(" ++ tail)).
  { intros tail Hat Hut. split.
    - rewrite str_upper_on_ascii by (rewrite is_ascii_app, Hap, Hat; reflexivity).
      now rewrite upper_app, Hprefix, Hut.
    - apply decimal_groups_ascii. rewrite is_ascii_app, Hat. reflexivity. }
  unfold _map_type_to_fluss_datatype. split.
  - destruct (Hwhole (p ++ "," ++ ws ++ s ++ ")")) as [-> Hgroups].
    { rewrite !is_ascii_app, Hasc_p, Hasc_w, Hasc_s. reflexivity. }
    { now rewrite !upper_app, Hup, Hus, Huw. }
    cbv zeta. rewrite Hgroups. clear Hgroups.
    set (tail := p ++ "," ++ ws ++ s ++ ")").
    change ("DECIMAL(" ++ tail)
      with (String "D" (String "E" (String "C" (String "I" (String "M"
             (String "A" (String "L" (String "(" tail)))))))).
    cbn [PyStr.in_list existsb String.eqb Ascii.eqb Bool.eqb orb
         PyStr.startswith String.prefix Ascii.ascii_dec ascii_rec ascii_rect
         Bool.bool_dec bool_rec bool_rect sumbool_rec sumbool_rect
         decimal_match PyStr.strip_prefix].
    unfold tail.
    rewrite (span_app PyStr.is_digit p ("," ++ ws ++ s ++ ")") Hp eq_refl), Htruthy.
    cbn [negb].
    change ("," ++ ws ++ s ++ ")") with (String "," (ws ++ s ++ ")")).
    cbv beta iota.
    rewrite (span_app PyStr.is_space ws (s ++ ")") Hws)
      by (apply head_digits_then; [exact digit_no_space | exact Hs | reflexivity]).
    cbv beta iota zeta.
    rewrite (span_app PyStr.is_digit s ")" Hs eq_refl).
    rewrite (int_of_str_digits p Hp Hne Hlp).
    destruct s as [|c s]; [reflexivity|]. cbn [PyStr.truthy].
    rewrite (int_of_str_digits (String c s) Hs) by (discriminate || exact Hls).
    reflexivity.
  - destruct (Hwhole (p ++ ")")) as [-> Hgroups].
    { rewrite !is_ascii_app, Hasc_p. reflexivity. }
    { now rewrite !upper_app, Hup. }
    cbv zeta. rewrite Hgroups. clear Hgroups.
    set (tail := p ++ ")").
    change ("DECIMAL(" ++ tail)
      with (String "D" (String "E" (String "C" (String "I" (String "M"
             (String "A" (String "L" (String "(" tail)))))))).
    cbn [PyStr.in_list existsb String.eqb Ascii.eqb Bool.eqb orb
         PyStr.startswith String.prefix Ascii.ascii_dec ascii_rec ascii_rect
         Bool.bool_dec bool_rec bool_rect sumbool_rec sumbool_rect
         decimal_match PyStr.strip_prefix].
    unfold tail.
    rewrite (span_app PyStr.is_digit p ")" Hp eq_refl), Htruthy. cbn [negb].
    change (PyStr.span PyStr.is_space ")") with ("", ")").
    cbv beta iota zeta.
    change (PyStr.span PyStr.is_digit ")") with ("", ")").
    cbv beta iota zeta. cbn [PyStr.truthy].
    rewrite (int_of_str_digits p Hp Hne Hlp). reflexivity.
Qed.

Lemma decimal_parameters_parsed_witness :
  @_map_type_to_fluss_datatype ascii_unicode "deCimal(38, 18)"
  = Ok (DT_DECIMAL 38 18) /\
  @_map_type_to_fluss_datatype ascii_unicode "deCimal(38)"
  = Ok (DT_DECIMAL 38 0).
Proof.
  apply (decimal_parameters_parsed (H := ascii_unicode) "deCimal(" "38" "18" " ");
    first [reflexivity | discriminate | (cbn; lia)].
Defined.

(** X12: the type strings of the columnar library lose their parameters:
    whatever follows [decimal128] (precision and scale included) the remote
    type is DECIMAL(10, 2), and whatever follows [timestamp] (unit and time
    zone included) it is TIMESTAMP(3). *)
Theorem arrow_type_parameters_dropped `{Unicode} (parameters : string) :
  _map_type_to_fluss_datatype ("decimal128" ++ parameters)
  = Ok (DT_DECIMAL 10 2) /\
  _map_type_to_fluss_datatype ("timestamp" ++ parameters)
  = Ok (DT_TIMESTAMP 3).
Proof.
  unfold _map_type_to_fluss_datatype.
  rewrite (str_upper_ascii "decimal128" parameters eq_refl).
  rewrite (str_upper_ascii "timestamp" parameters eq_refl).
  change (PyStr.upper "decimal128") with "DECIMAL128".
  change (PyStr.upper "timestamp") with "TIMESTAMP".
  generalize (str_upper parameters). intros tail.
  split.
  - cbv zeta.
    destruct (decimal_groups ("DECIMAL128" ++ tail)) as [g|] eqn:Hg.
    + apply decimal_groups_prefix in Hg. discriminate Hg.
    + reflexivity.
  - change ("TIMESTAMP" ++ tail)
      with (String "T" (String "I" (String "M" (String "E" (String "S"
             (String "T" (String "A" (String "M" (String "P" tail))))))))).
    cbn. now destruct tail.
Qed.

(** ** Table paths *)

Lemma split_two (a b : string) :
  no_dot a = true -> no_dot b = true -> PyStr.split "." (a ++ "." ++ b) = [a; b].
Proof.
  unfold no_dot. intros Ha Hb.
  apply negb_true_iff in Ha. apply negb_true_iff in Hb.
  change ("." ++ b) with (String "." b).
  now rewrite (split_app_sep _ _ _ Ha), (split_no_sep _ _ Hb).
Qed.

Lemma split_three (a b c : string) :
  no_dot a = true -> no_dot b = true -> no_dot c = true ->
  PyStr.split "." (a ++ "." ++ b ++ "." ++ c) = [a; b; c].
Proof.
  intros Ha Hb Hc. pose proof (split_two b c Hb Hc) as Hrest.
  unfold no_dot in Ha. apply negb_true_iff in Ha.
  change ("." ++ b ++ "." ++ c) with (String "." (b ++ "." ++ c)).
  now rewrite (split_app_sep _ _ _ Ha), Hrest.
Qed.

(** X13: the string form of a [TablePath] is a path that [create_writer]
    and [create_reader] resolve to the same database and table, for names
    without a dot: [TablePath.of(db, t).to_string()] parses to [db] and
    [t], and so does the path with a catalog, whose catalog part the
    parsing returns as the ignored first component.  An empty catalog name
    is left out of the string. *)
Theorem table_path_string_round_trip (catalog database table : string) :
  no_dot database = true -> no_dot table = true ->
  parse_table_path (Metadata.to_string (Metadata.of_ database table))
  = Ok (None, database, table) /\
  (no_dot catalog = true -> catalog <> "" ->
   parse_table_path
     (Metadata.to_string (Metadata.of_catalog catalog database table))
   = Ok (Some catalog, database, table)) /\
  Metadata.to_string (Metadata.of_catalog "" database table)
  = Metadata.to_string (Metadata.of_ database table).
Proof.
  intros Hd Ht. unfold Metadata.to_string, Metadata.of_, Metadata.of_catalog.
  cbn [Metadata._catalog_name Metadata._database_name Metadata._table_name
       opt_truthy PyStr.truthy default].
  split; [|split; [|reflexivity]].
  - unfold parse_table_path. now rewrite (split_two _ _ Hd Ht).
  - intros Hc Hne. destruct catalog as [|c0 catalog']; [congruence|].
    cbn [PyStr.truthy]. unfold id, parse_table_path.
    now rewrite (split_three _ _ _ Hc Hd Ht).
Qed.

Lemma table_path_string_round_trip_witness :
  parse_table_path (Metadata.to_string (Metadata.of_ "fluss" "orders"))
  = Ok (None, "fluss", "orders").
Proof.
  apply (table_path_string_round_trip "" "fluss" "orders"); reflexivity.
Defined.

(** ** Database descriptors and their dicts *)

Lemma read_alloc_old (a : nat) (d : Metadata.PyDict) (h : Metadata.Heap) :
  (a < length h)%nat -> Metadata.read a (h ++ [d])%list = Metadata.read a h.
Proof.
  intros Ha. unfold Metadata.read, Metadata.Heap, Metadata.PyDict in *.
  now rewrite lookup_app_l.
Qed.

Lemma read_alloc_new (d : Metadata.PyDict) (h : Metadata.Heap) :
  Metadata.read (length h) (h ++ [d])%list = d.
Proof.
  unfold Metadata.read, Metadata.Heap, Metadata.PyDict in *.
  now rewrite list_lookup_middle.
Qed.

Lemma read_write_same (a : nat) (d : Metadata.PyDict) (h : Metadata.Heap) :
  (a < length h)%nat -> Metadata.read a (Metadata.write a d h) = d.
Proof.
  intros Ha. unfold Metadata.read, Metadata.write, Metadata.Heap, Metadata.PyDict in *.
  now rewrite list_lookup_insert_eq.
Qed.

Lemma read_write_other (a b : nat) (d : Metadata.PyDict) (h : Metadata.Heap) :
  a <> b -> Metadata.read a (Metadata.write b d h) = Metadata.read a h.
Proof.
  intros Hab. unfold Metadata.read, Metadata.write, Metadata.Heap, Metadata.PyDict in *.
  now rewrite list_lookup_insert_ne by congruence.
Qed.

Lemma dict_set_not_empty (k v : string) (d : Metadata.PyDict) :
  Metadata.dict_set k v d <> [].
Proof.
  destruct d as [|[k' v'] d]; cbn [Metadata.dict_set]; [discriminate|].
  destruct (String.eqb k k'); discriminate.
Qed.

Lemma dict_get_set (k v : string) (d : Metadata.PyDict) :
  Metadata.dict_get k (Metadata.dict_set k v d) = Some v /\
  forall k', k' <> k ->
             Metadata.dict_get k' (Metadata.dict_set k v d) = Metadata.dict_get k' d.
Proof.
  induction d as [|[k0 v0] d [IHsame IHother]]; cbn [Metadata.dict_set Metadata.dict_get].
  - rewrite String.eqb_refl. split; [reflexivity|].
    intros k' Hk'. apply String.eqb_neq in Hk'. now rewrite Hk'.
  - destruct (String.eqb k k0) eqn:Hk; cbn [Metadata.dict_get].
    + apply String.eqb_eq in Hk. subst k0. rewrite String.eqb_refl.
      split; [reflexivity|].
      intros k' Hk'. apply String.eqb_neq in Hk'. now rewrite Hk'.
    + rewrite Hk. split; [exact IHsame|].
      intros k' Hk'. destruct (String.eqb k' k0); [reflexivity | now apply IHother].
Qed.

(** X14: [with_custom_property] works on a copy: the new descriptor has the
    property set (the value of any other key as before) and the same
    comment, while the descriptor it was called on, and every dict that
    existed before the call, is as it was. *)
Theorem with_custom_property_copies (key value : string)
        (d : Metadata.DatabaseDescriptor) (h : Metadata.Heap) :
  (Metadata._custom_properties d < length h)%nat ->
  let '(d', h') := Metadata.with_custom_property key value d h in
  Metadata.dict_get key (Metadata.properties_of d' h') = Some value /\
  (forall key', key' <> key ->
                Metadata.dict_get key' (Metadata.properties_of d' h')
                = Metadata.dict_get key' (Metadata.properties_of d h)) /\
  Metadata.comment d' = Metadata.comment d /\
  (forall a, (a < length h)%nat -> Metadata.read a h' = Metadata.read a h).
Proof.
  intros Hd. unfold Metadata.with_custom_property, Metadata.alloc.
  set (copy := Metadata.read (Metadata._custom_properties d) h).
  rewrite read_alloc_new.
  unfold Metadata.new_descriptor.
  rewrite read_write_same by (rewrite length_app; cbn [length]; lia).
  destruct (Metadata.dict_set key value copy) as [|kv rest] eqn:Hset;
    [now apply dict_set_not_empty in Hset|].
  rewrite <- Hset. unfold Metadata.properties_of.
  cbn [Metadata._custom_properties Metadata.comment Metadata._comment].
  rewrite read_write_same by (rewrite length_app; cbn [length]; lia).
  destruct (dict_get_set key value copy) as [Hsame Hother].
  repeat split; [exact Hsame | exact Hother |].
  intros a Ha. rewrite read_write_other by lia. now apply read_alloc_old.
Qed.

Lemma with_custom_property_copies_witness :
  let '(d', h') :=
    Metadata.with_custom_property "owner" "etl"
      (Metadata.mkDescriptor (Some "sales") O) [[("region", "eu")]] in
  Metadata.dict_get "owner" (Metadata.properties_of d' h') = Some "etl" /\
  (forall key', key' <> "owner" ->
                Metadata.dict_get key' (Metadata.properties_of d' h')
                = Metadata.dict_get key'
                    (Metadata.properties_of
                       (Metadata.mkDescriptor (Some "sales") O)
                       [[("region", "eu")]])) /\
  Metadata.comment d' = Some "sales" /\
  (forall a, (a < 1)%nat ->
             Metadata.read a h' = Metadata.read a [[("region", "eu")]]).
Proof.
  apply (with_custom_property_copies "owner" "etl"
           (Metadata.mkDescriptor (Some "sales") O) [[("region", "eu")]]).
  cbn. lia.
Defined.

(** X15: [build()] hands the dict of the builder itself to the descriptor
    when that dict is not empty: a property set on the builder after
    [build()] shows up in the descriptor already built.  When the builder
    had no property at [build()], the descriptor got a dict of its own and
    stays empty. *)
Theorem built_descriptor_shares_builder_dict (key value : string)
        (b : Metadata.DatabaseDescriptorBuilder) (h : Metadata.Heap) :
  (Metadata.b_custom_properties b < length h)%nat ->
  let '(d, h1) := Metadata.build b h in
  Metadata.properties_of d (Metadata.builder_custom_property key value b h1)
  = match Metadata.read (Metadata.b_custom_properties b) h with
    | [] => []
    | _ => Metadata.dict_set key value (Metadata.properties_of d h1)
    end.
Proof.
  intros Hb. unfold Metadata.build, Metadata.new_descriptor, Metadata.alloc.
  destruct (Metadata.read (Metadata.b_custom_properties b) h) as [|kv rest] eqn:Hread.
  - unfold Metadata.properties_of, Metadata.builder_custom_property.
    cbn [Metadata._custom_properties].
    rewrite read_write_other by lia. apply read_alloc_new.
  - unfold Metadata.properties_of, Metadata.builder_custom_property.
    cbn [Metadata._custom_properties].
    now rewrite read_write_same.
Qed.

Lemma built_descriptor_shares_builder_dict_witness :
  let '(d, h1) := Metadata.build (Metadata.mkBuilder None O) [[("region", "eu")]] in
  Metadata.properties_of d
    (Metadata.builder_custom_property "owner" "etl"
       (Metadata.mkBuilder None O) h1)
  = [("region", "eu"); ("owner", "etl")].
Proof.
  apply (built_descriptor_shares_builder_dict "owner" "etl"
           (Metadata.mkBuilder None O) [[("region", "eu")]]).
  cbn. lia.
Defined.

(** ** Projections *)

Lemma index_from_spec (i : Z) (p : string) (field_names : list PyVal) :
  match ReadBuilderImpl.index_from i p field_names with
  | Some j =>
      i <= j /\
      field_names !! Z.to_nat (j - i) = Some (PStr p) /\
      forall k, (k < Z.to_nat (j - i))%nat -> field_names !! k <> Some (PStr p)
  | None => PStr p ∉ field_names
  end.
Proof.
  revert i. induction field_names as [|v rest IH]; intros i;
    cbn [ReadBuilderImpl.index_from].
  - intros Hin. inversion Hin.
  - destruct (match v with PStr s => String.eqb s p | _ => false end) eqn:Hv.
    + assert (v = PStr p) as ->.
      { destruct v; try discriminate. apply String.eqb_eq in Hv. now subst. }
      replace (i - i) with 0 by lia. repeat split; [lia|]. intros k Hk. cbn in Hk. lia.
    + assert (Hne : v <> PStr p).
      { intros ->. now rewrite String.eqb_refl in Hv. }
      specialize (IH (i + 1)).
      destruct (ReadBuilderImpl.index_from (i + 1) p rest) as [j|].
      * destruct IH as (Hle & Hat & Hfirst).
        replace (Z.to_nat (j - i)) with (S (Z.to_nat (j - (i + 1)))) by lia.
        repeat split; [lia | exact Hat |].
        intros [|k] Hk; cbn; [congruence | apply Hfirst; lia].
      * intros Hin. apply elem_of_cons in Hin as [Heq|Hin]; [congruence | contradiction].
Qed.

(** X16: the positions [with_projection] sends for a list of column names:
    when every name is a field name, there is one position per name, in the
    order asked, each the first position that holds the name (so of two
    fields of the same name only the first can be projected); otherwise the
    [ValueError] is about the first name that is no field: its message is
    [repr()] of that name followed by [ is not in list], the name between
    quotes when it has only printable ASCII characters other than the
    quote and the backslash. *)
Theorem int_projection_outcome `{Unicode} (field_names : list PyVal)
        (projection : list string) :
  match ReadBuilderImpl.int_projection field_names projection with
  | Ok positions =>
      Forall2 (fun p j =>
                 0 <= j /\
                 field_names !! Z.to_nat j = Some (PStr p) /\
                 forall k, (k < Z.to_nat j)%nat -> field_names !! k <> Some (PStr p))
              projection positions
  | Raise e =>
      exists found p rest,
        projection = (found ++ p :: rest)%list /\
        Forall (fun x => PStr x ∈ field_names) found /\
        (PStr p ∉ field_names) /\
        e = mkExc ValueError (str_repr p ++ " is not in list") /\
        (PyStr.plain p = true ->
         exc_msg e = "'" ++ p ++ "' is not in list")
  end.
Proof.
  induction projection as [|p rest IH]; cbn [ReadBuilderImpl.int_projection].
  - constructor.
  - pose proof (index_from_spec 0 p field_names) as Hp.
    destruct (ReadBuilderImpl.index_from 0 p field_names) as [j|].
    + destruct Hp as (Hle & Hat & Hfirst). rewrite Z.sub_0_r in Hat, Hfirst.
      destruct (ReadBuilderImpl.int_projection field_names rest) as [positions|e].
      * constructor; [now repeat split | exact IH].
      * destruct IH as (found & q & rest' & -> & Hall & Hq & -> & Hmsg).
        exists (p :: found), q, rest'. repeat split; try assumption.
        constructor; [|exact Hall]. eapply list_elem_of_lookup_2, Hat.
    + exists [], p, rest. repeat split; [constructor | exact Hp |].
      intros Hplain. cbn [exc_msg]. rewrite (str_repr_plain p Hplain).
      now rewrite !string_app_assoc.
Qed.

(** A name with a quote in it: the message is not the name between
    quotes, and the theorem leaves it to [repr()]. *)
Example int_projection_unknown_name `{Unicode} :
  ReadBuilderImpl.int_projection [PStr "id"] ["it's"]
  = Raise (mkExc ValueError (str_repr "it's" ++ " is not in list")).
Proof. reflexivity. Qed.

(** ** Traces that spare all calls but those of one method *)

Lemma spares_calls_satisfy (method : string) (Q : list PyVal -> Prop) :
  spares (calls_satisfy method Q) method.
Proof.
  repeat split. intros target name args Hne Heq. cbn in Heq. subst name.
  now rewrite String.eqb_refl in Hne.
Qed.

Lemma spares_not_call_of (method : string) : spares (not_call_of method) method.
Proof.
  repeat split. intros target name args Hne Heq. cbn in Heq. subst name.
  now rewrite String.eqb_refl in Hne.
Qed.

Section Spared.
Context `{Bridge} (P : Event -> Prop) (method : string).
Hypothesis HP : spares P method.
Hypothesis method_no_text : String.eqb JAVA_ERROR_TEXT method = false.
Hypothesis method_no_string : String.eqb "toString" method = false.

Lemma spared_call (target : PyVal) (name : string) (args : list PyVal) :
  String.eqb name method = false -> P (ECall (mkCall target name args)).
Proof. apply HP. Qed.

Lemma spared_text {Self : Type} (e : PyExc) :
  emits P (exc_str e : M Self string).
Proof.
  apply emits_exc_str; intros; apply spared_call;
    [exact method_no_text | exact method_no_string].
Qed.

Lemma spared_retry (operation_func : M FlussConnection PyVal)
      (max_retries timeout : Z) :
  String.eqb "jvm.java.util.concurrent.TimeUnit.SECONDS" method = false ->
  String.eqb "get" method = false ->
  emits P operation_func ->
  emits P (_handle_async_operation_with_retry operation_func max_retries timeout).
Proof.
  intros Hseconds Hget Hop. destruct HP as (Hcall & Hinvoke & Hfailed & Hsleep).
  apply emits_retry; try assumption; intros; now apply Hcall.
Qed.

Lemma spared_get_connection :
  String.eqb "createConnection" method = false -> emits P _get_connection.
Proof.
  intros Hcreate. destruct HP as (Hcall & _).
  unfold _get_connection, _ensure_connected.
  repeat emits_shape. now apply Hcall.
Qed.

Lemma spared_put_all {Self : Type} (java_map : PyVal) (items : list (string * string)) :
  String.eqb "put" method = false ->
  emits P (put_all java_map items : M Self unit).
Proof.
  intros Hput. induction items as [|[key value] rest IH]; cbn [put_all].
  - apply emits_ret.
  - apply emits_bind; [|intros _; exact IH].
    apply emits_method_call, spared_call, Hput.
Qed.

Lemma spared_fill_keys (pk_array : PyVal) (i : Z) (primary_keys : list string) :
  String.eqb "__setitem__" method = false ->
  emits P (fill_keys pk_array i primary_keys).
Proof.
  intros Hset. revert i.
  induction primary_keys as [|pk rest IH]; intros i; cbn [fill_keys].
  - apply emits_ret.
  - apply emits_bind; [|intros _; apply IH].
    apply emits_method_call, spared_call, Hset.
Qed.

Lemma spared_add_columns `{Unicode} (schema_builder : PyVal)
      (columns : list (gmap string PyVal)) :
  String.prefix "jvm." method = false ->
  String.eqb "column" method = false ->
  emits P (add_columns schema_builder columns).
Proof.
  intros Hjvm Hcolumn. induction columns as [|col rest IH]; cbn [add_columns].
  - apply emits_ret.
  - repeat first [ exact IH | emits_shape ];
      try (apply spared_call, Hcolumn).
    all: apply spared_call; apply String.eqb_neq; intros <-;
      cbn in Hjvm; discriminate Hjvm.
Qed.

End Spared.

(** ** The admin wrapper *)

Lemma emits_java_table_path `{Bridge} (P : Event -> Prop) (method : string)
      (self : Admin.Admin) (table_path : Admin.PathArg) :
  spares P method ->
  String.eqb "jvm.com.alibaba.fluss.metadata.TablePath.of" method = false ->
  String.eqb "to_java" method = false ->
  emits P (Admin.java_table_path self table_path).
Proof.
  intros HP Hof Hto. unfold Admin.java_table_path.
  destruct table_path as [s|v].
  - destruct (PyStr.split "." s) as [|a [|b [|c l]]]; try apply emits_raise.
    apply emits_method_call, (spared_call P method HP), Hof.
  - destruct (hasattr v "to_java"); [|apply emits_ret].
    apply emits_method_call, (spared_call P method HP), Hto.
Qed.

(** X17: what the admin wrapper sends when it drops: [drop_database]
    forwards [cascade] and [if_exists] as given; [drop_table] sends the
    negation of [if_exists] as the second argument of the remote
    [dropTable], so with the default [if_exists=True] the remote call
    carries [False]. *)
Theorem admin_drop_arguments `{Bridge} (self : Admin.Admin)
        (database_name : string) (cascade if_exists : bool)
        (table_path : Admin.PathArg) :
  emits (calls_satisfy "dropDatabase"
           (fun args => args = [PStr database_name; PBool cascade; PBool if_exists]))
        (Admin.drop_database self database_name cascade if_exists) /\
  emits (calls_satisfy "dropTable"
           (fun args => exists path, args = [path; PBool (negb if_exists)]))
        (Admin.drop_table self table_path if_exists).
Proof.
  split.
  - unfold Admin.drop_database.
    apply emits_bind; [|intros _; apply emits_ret].
    apply (spared_retry _ _ (spares_calls_satisfy _ _)); try reflexivity.
    apply emits_method_call, calls_satisfy_same. reflexivity.
  - unfold Admin.drop_table.
    apply emits_bind.
    + apply (emits_java_table_path _ _ _ _ (spares_calls_satisfy _ _)); reflexivity.
    + intros path. apply emits_bind; [|intros _; apply emits_ret].
      apply (spared_retry _ _ (spares_calls_satisfy _ _)); try reflexivity.
      apply emits_method_call, calls_satisfy_same. now exists path.
Qed.

(** X18: a table path given to the admin wrapper as a string must have
    exactly two parts: for any other number of parts, the three-part form
    with a catalog included, [create_table] and [drop_table] raise a
    [ValueError] before any remote call. *)
Theorem admin_string_path_two_parts `{Bridge} (self : Admin.Admin) (path : string)
        (table_descriptor : PyVal) (flag : bool) (env : Env FlussConnection) :
  length (PyStr.split "." path) <> 2%nat ->
  Admin.create_table self (Admin.PathStr path) table_descriptor flag env
  = (Raise (mkExc ValueError "Table path must be in format 'database.table'"), env) /\
  Admin.drop_table self (Admin.PathStr path) flag env
  = (Raise (mkExc ValueError "Table path must be in format 'database.table'"), env).
Proof.
  intros Hparts.
  unfold Admin.create_table, Admin.drop_table, Admin.java_table_path, bind.
  destruct (PyStr.split "." path) as [|a [|b [|c l]]];
    try (split; reflexivity).
  now contradiction Hparts.
Qed.

Lemma admin_string_path_two_parts_witness :
  (exists parts, parse_table_path "fluss.sales.orders" = Ok parts) /\
  @Admin.drop_table answering_bridge (Admin.mkAdmin (PObj 5) (PObj 10))
    (Admin.PathStr "fluss.sales.orders") true
    (start_env answering_bridge connected_conn tt)
  = (Raise (mkExc ValueError "Table path must be in format 'database.table'"),
     start_env answering_bridge connected_conn tt).
Proof.
  split; [now eexists|].
  apply (admin_string_path_two_parts (H := answering_bridge)
           (Admin.mkAdmin (PObj 5) (PObj 10)) "fluss.sales.orders" PNone true
           (start_env answering_bridge connected_conn tt)).
  vm_compute. discriminate.
Defined.

(** the conversion of a remote collection never raises *)
Lemma collection_to_list_returns `{Bridge} {Self : Type} (fuel : nat)
      (v : PyVal) (env : Env Self) :
  exists r env', collection_to_list fuel v env = (Ok r, env').
Proof.
  unfold collection_to_list. rewrite try_except_run.
  match goal with
  | |- context [let '(r, env') := ?m env in _] =>
      destruct (m env) as [[r|e] env1]
  end; [now eexists _, _|].
  rewrite try_except_run.
  match goal with
  | |- context [let '(r, env') := ?m env1 in _] =>
      destruct (m env1) as [[r|e'] env2]
  end; now eexists _, _.
Qed.

Lemma quiet_method_call `{Bridge} {Self : Type}
      (target : PyVal) (name : string) (args : list PyVal) :
  emits (fun ev => is_control ev = false)
        (method_call target name args : M Self PyVal).
Proof. now apply emits_method_call. Qed.

(** what a caller of the retry wrapper sees when it raises: the three
    attempts on [op] failed in a row and the exception is the consolidated
    error about the third failure *)
Lemma retry_raise_inv `{Bridge} (op : M FlussConnection PyVal)
      (env : Env FlussConnection) (e : PyExc) :
  texts_available ->
  emits (fun ev => is_control ev = false) op ->
  fst (_handle_async_operation_with_retry op 3 30 env) = Raise e ->
  consolidated op env e.
Proof.
  intros Htexts Hquiet Hraise.
  destruct (retry_outcome op 3 30 env Htexts Hquiet)
    as (errors & env_k & added & Hout).
  cbv zeta in Hout. destruct Hout as (Hchain & _ & _ & _ & Hout).
  rewrite Hraise in Hout.
  destruct Hout as (Hlen & (text & Hs & ->) & _).
  exists errors, env_k, text. repeat split; try assumption.
  now rewrite Hs.
Qed.

(** X19: the admin wrapper does not swallow failures, unlike the methods of
    the same names on the connection, which return [[]] or [False].  When
    the text of a remote exception can be fetched and [list_databases],
    [list_tables] or [drop_database] of the wrapper raise, three attempts
    on the remote call of the method have failed in a row and the
    exception is the consolidated [RuntimeError] of the retry wrapper,
    whose message ends with the text of the exception of the third
    attempt. *)
Theorem admin_failures_are_consolidated `{Bridge} (self : Admin.Admin)
        (env : Env FlussConnection) (e : PyExc) :
  texts_available ->
  (forall fuel,
      fst (Admin.list_databases self fuel env) = Raise e ->
      consolidated (method_call (Admin._java_admin self) "listDatabases" [])
        env e) /\
  (forall fuel database_name,
      fst (Admin.list_tables self fuel database_name env) = Raise e ->
      consolidated
        (method_call (Admin._java_admin self) "listTables" [PStr database_name])
        env e) /\
  (forall database_name cascade if_exists,
      fst (Admin.drop_database self database_name cascade if_exists env)
      = Raise e ->
      consolidated
        (method_call (Admin._java_admin self) "dropDatabase"
           [PStr database_name; PBool cascade; PBool if_exists])
        env e).
Proof.
  intros Htexts.
  assert (Hinv : forall A (op : M FlussConnection PyVal)
                   (k : PyVal -> M FlussConnection A),
             (forall v env1, exists r env2, k v env1 = (Ok r, env2)) ->
             fst (bind (_handle_async_operation_with_retry op 3 30) k env)
             = Raise e ->
             fst (_handle_async_operation_with_retry op 3 30 env) = Raise e).
  { intros A op k Hk Hraise. rewrite bind_run in Hraise.
    destruct (_handle_async_operation_with_retry op 3 30 env)
      as [[v|e'] env1]; [|cbn [fst] in *; congruence].
    destruct (Hk v env1) as (r & env2 & Hr). rewrite Hr in Hraise.
    discriminate Hraise. }
  split; [|split].
  - intros fuel Hraise. unfold Admin.list_databases in Hraise.
    apply Hinv in Hraise; [|intros v env1; apply collection_to_list_returns].
    exact (retry_raise_inv _ env e Htexts (quiet_method_call _ _ _) Hraise).
  - intros fuel database_name Hraise. unfold Admin.list_tables in Hraise.
    apply Hinv in Hraise; [|intros v env1; apply collection_to_list_returns].
    exact (retry_raise_inv _ env e Htexts (quiet_method_call _ _ _) Hraise).
  - intros database_name cascade if_exists Hraise.
    unfold Admin.drop_database in Hraise.
    apply Hinv in Hraise; [|intros v env1; now eexists _, _].
    exact (retry_raise_inv _ env e Htexts (quiet_method_call _ _ _) Hraise).
Qed.

Lemma admin_failures_are_consolidated_witness :
  let env := start_env failing_bridge connected_conn 0%nat in
  let e :=
    mkExc RuntimeError
      "Async operation failed after 3 attempts. Last error: An error occurred while calling the gateway (call 2): java.io.IOException: server unreachable" in
  fst (@Admin.list_databases failing_bridge
         (Admin.mkAdmin (PObj 5) (PObj 10)) 8 env) = Raise e /\
  @consolidated failing_bridge
    (method_call (PObj 5) "listDatabases" []) env e.
Proof.
  split; [reflexivity|].
  destruct (admin_failures_are_consolidated (H := failing_bridge)
              (Admin.mkAdmin (PObj 5) (PObj 10))
              (start_env failing_bridge connected_conn 0%nat)
              (mkExc RuntimeError
                 "Async operation failed after 3 attempts. Last error: An error occurred while calling the gateway (call 2): java.io.IOException: server unreachable")
              failing_bridge_texts) as (Hlist & _).
  exact (Hlist 8%nat eq_refl).
Defined.

(** ** Identifiers *)

(** X20: [to_j_identifier] takes one or two parts.  A path of three or more
    parts, which [create_writer] and [create_reader] accept when it has
    exactly three, is refused with a [ValueError]; the refusal comes after
    the process-wide bridge has been obtained, which is the only call
    made. *)
Theorem identifier_of_three_parts_refused `{Bridge} {Self : Type}
        (identifier : string) (env env1 : Env Self) (gateway : PyVal) :
  (2 < length (PyStr.split "." identifier))%nat ->
  get_gateway env = (Ok gateway, env1) ->
  to_j_identifier identifier env
  = (Raise (mkExc ValueError ("Invalid identifier format: " ++ identifier)), env1) /\
  trace env1 = (trace env ++ [ECall (mkCall PNone "get_gateway" [])])%list /\
  (length (PyStr.split "." identifier) = 3%nat ->
   exists parts, parse_table_path identifier = Ok parts).
Proof.
  intros Hparts Hgw. split; [|split].
  - unfold to_j_identifier, bind. rewrite Hgw.
    destruct (PyStr.split "." identifier) as [|a [|b [|c l]]];
      cbn [length] in Hparts; first [lia | reflexivity].
  - unfold get_gateway in Hgw. rewrite call_answer in Hgw.
    now injection Hgw as _ <-.
  - unfold parse_table_path.
    destruct (PyStr.split "." identifier) as [|a [|b [|c [|d l]]]];
      cbn [length]; intros Hthree; try lia. now eexists.
Qed.

Lemma identifier_of_three_parts_refused_witness :
  @to_j_identifier answering_bridge unit "fluss.sales.orders"
    (start_env answering_bridge tt tt)
  = (Raise (mkExc ValueError "Invalid identifier format: fluss.sales.orders"),
     @mkEnv answering_bridge unit tt tt [ECall (mkCall PNone "get_gateway" [])]).
Proof.
  apply (identifier_of_three_parts_refused (H := answering_bridge)
           "fluss.sales.orders" (start_env answering_bridge tt tt)
           (@mkEnv answering_bridge unit tt tt [ECall (mkCall PNone "get_gateway" [])])
           (PObj 1)).
  - vm_compute. lia.
  - reflexivity.
Defined.

(** ** Creating databases and tables through the connection *)

(** the steps of a proof that a method of the connection spares all calls
    but those of one method *)
Ltac emits_spared HP :=
  cbv zeta;
  repeat first
    [ apply (spared_get_connection _ _ HP); reflexivity
    | apply (spared_retry _ _ HP);
        [reflexivity | reflexivity | reflexivity | reflexivity |]
    | apply (spared_text _ _ HP); reflexivity
    | apply (spared_put_all _ _ HP); reflexivity
    | apply (spared_fill_keys _ _ HP); reflexivity
    | apply (spared_add_columns _ _ HP); reflexivity
    | match goal with
      | |- emits _ (bind (lift _) _) => apply emits_bind_lift; intros ? ?
      end
    | emits_shape ];
  try first [ apply (spared_call _ _ HP); reflexivity
            | match goal with
              | |- _ (ECall _) => fail 1
              | |- _ => apply HP
              end ].

(** a handler that logs the exception and returns a value turns every
    failure into a result, when the text of the exception can be fetched *)
Lemma swallowed_after_check `{Bridge} {A : Type} (m : M FlussConnection A) (a0 : A)
      (env : Env FlussConnection) :
  texts_available ->
  is_connected (self env) = true ->
  exists a, fst (bind _ensure_connected
                   (fun _ => try_except m (fun e => exc_str e ;; ret a0)) env)
            = Ok a.
Proof.
  intros Htexts Hconn. rewrite bind_run, (ensure_connected_ok env Hconn).
  rewrite try_except_run.
  destruct (m env) as [[a|e] env1]; [now eexists|].
  rewrite bind_run.
  destruct (exc_str_answers Htexts e env1) as (text & env2 & ->).
  now eexists.
Qed.

(** X21: [create_database] and [create_table] of the connection pass
    [if_not_exists] on to the remote call as given (where [drop_database]
    and [drop_table] send a constant).  On a connected handle, when the
    text of a remote exception can be fetched, they never raise: every
    failure comes back as a result. *)
Theorem create_forwards_if_not_exists `{Bridge} `{Unicode}
        (database_name table_name : string)
        (database_descriptor : option DescriptorView)
        (comment : option string)
        (custom_properties : option (list (string * string)))
        (schema_or_columns : SchemaOrColumns)
        (primary_keys : option (list string)) (if_not_exists : bool) :
  emits (calls_satisfy "createDatabase"
           (fun args => exists descriptor,
                args = [PStr database_name; descriptor; PBool if_not_exists]))
        (create_database database_name database_descriptor if_not_exists
           comment custom_properties) /\
  emits (calls_satisfy "createTable"
           (fun args => exists path descriptor,
                args = [path; descriptor; PBool if_not_exists]))
        (create_table database_name table_name schema_or_columns
           primary_keys if_not_exists) /\
  forall env,
    texts_available ->
    is_connected (self env) = true ->
    (exists created,
        fst (create_database database_name database_descriptor if_not_exists
               comment custom_properties env) = Ok created) /\
    (exists created,
        fst (create_table database_name table_name schema_or_columns
               primary_keys if_not_exists env) = Ok created).
Proof.
  split; [|split].
  - unfold create_database, _ensure_connected.
    emits_spared (spares_calls_satisfy "createDatabase"
                    (fun args => exists descriptor,
                         args = [PStr database_name; descriptor;
                                 PBool if_not_exists])).
    all: apply calls_satisfy_same; now eexists.
  - unfold create_table, _ensure_connected.
    emits_spared (spares_calls_satisfy "createTable"
                    (fun args => exists path descriptor,
                         args = [path; descriptor; PBool if_not_exists])).
    all: apply calls_satisfy_same; now do 2 eexists.
  - intros env Htexts Hconn. split; now apply swallowed_after_check.
Qed.

(** Without the text, [create_database] raises on a connected handle. *)
Example create_database_raises_network_error :
  fst (@create_database lost_bridge "tmp_db" None true None None
         (start_env lost_bridge connected_conn 0%nat))
  = Raise (mkExc Py4JNetworkError "Error while sending or receiving").
Proof. reflexivity. Qed.

(** X22: without primary keys, [None] or the empty list, [create_table]
    issues no [primaryKey] call, for a list of columns as for a schema
    object; and for a schema object the keys are those of the schema, the
    [primary_keys] argument of the call being ignored. *)
Theorem create_table_without_keys `{Bridge} `{Unicode}
        (database_name table_name : string)
        (columns : list (gmap string PyVal))
        (names : list string) (field_types : gmap string string)
        (keys : option (list string)) (if_not_exists : bool) :
  keys = None \/ keys = Some [] ->
  emits (not_call_of "primaryKey")
        (create_table database_name table_name (OfColumns columns) keys
           if_not_exists) /\
  forall argument,
    emits (not_call_of "primaryKey")
          (create_table database_name table_name
             (OfSchema names field_types keys) argument if_not_exists).
Proof.
  intros Hkeys.
  split; [|intros argument];
    unfold create_table, _ensure_connected;
    emits_spared (spares_not_call_of "primaryKey").
  all: exfalso;
    repeat match goal with
           | Heq : match ?x with Ok _ => _ | Raise _ => _ end = Ok _ |- _ =>
               destruct x; [|discriminate Heq]
           end;
    destruct Hkeys as [-> | ->]; congruence.
Qed.

Lemma create_table_without_keys_witness :
  @emits answering_bridge _ _ (not_call_of "primaryKey")
    (@create_table answering_bridge ascii_unicode "fluss" "orders"
       (OfColumns [{["name" := PStr "id"; "type" := PStr "int"]}]) None true).
Proof.
  apply (create_table_without_keys (H := answering_bridge)
           (H0 := ascii_unicode) "fluss" "orders"
           [{["name" := PStr "id"; "type" := PStr "int"]}] [] ∅ None true).
  now left.
Defined.

(** ** The schema of a table *)

Lemma schema_columns_nullable `{Bridge} (field_names field_types : PyVal)
      (indexes : list Z) (env env' : Env FlussConnection)
      (columns : list ColumnInfo) :
  schema_columns field_names field_types indexes env = (Ok columns, env') ->
  length columns = length indexes /\
  Forall (fun col => col_nullable col = true) columns.
Proof.
  revert env env' columns.
  induction indexes as [|i rest IH]; intros env env' columns;
    cbn [schema_columns].
  - intros [= <- _]. split; [reflexivity | constructor].
  - intros Hrun.
    apply bind_ok_inv in Hrun as (n & env1 & _ & Hrun).
    apply bind_ok_inv in Hrun as (t & env2 & _ & Hrun).
    apply bind_ok_inv in Hrun as (type_str & env3 & _ & Hrun).
    apply bind_ok_inv in Hrun as (cols & env4 & Hrest & Hrun).
    injection Hrun as <- _.
    destruct (IH _ _ _ Hrest) as [Hlen Hall].
    split; [cbn [length]; now rewrite Hlen | now constructor].
Qed.

(** X23: on a connected handle, when the text of a remote exception can be
    fetched, [get_table_schema] never raises.  When it returns a
    description and not [None], every column of the description is marked
    nullable and the list of primary keys is empty, whatever the table
    declares, and the table path is the database and table names joined by
    a dot. *)
Theorem get_table_schema_shape `{Bridge} (database_name table_name : string)
        (env : Env FlussConnection) :
  (texts_available ->
   is_connected (self env) = true ->
   exists answer, fst (get_table_schema database_name table_name env) = Ok answer) /\
  forall info,
    fst (get_table_schema database_name table_name env) = Ok (Some info) ->
    info_primary_keys info = [] /\
    Forall (fun col => col_nullable col = true) (info_columns info) /\
    info_table_path info = database_name ++ "." ++ table_name.
Proof.
  split; [apply swallowed_after_check|].
  intros info. unfold get_table_schema. rewrite bind_run.
  destruct (_ensure_connected env) as [[[]|e] env0]; [|discriminate].
  rewrite try_except_run.
  match goal with
  | |- context [let '(r, env') := ?m env0 in _] =>
      destruct (m env0) as [[answer|e] env'] eqn:Hrun
  end; cbn [fst snd].
  2:{ rewrite bind_run. destruct (exc_str e env') as [[text|e'] env2];
        discriminate. }
  intros [= ->].
  do 8 (apply bind_ok_inv in Hrun as (? & ? & ? & Hrun); cbv beta in Hrun).
  apply bind_ok_inv in Hrun as (columns & env9 & Hcols & Hrun).
  injection Hrun as <- _.
  destruct (schema_columns_nullable _ _ _ _ _ _ Hcols) as [_ Hall].
  cbn [info_primary_keys info_columns info_table_path].
  repeat split. exact Hall.
Qed.

(** a run of [get_table_schema] on a table of two columns *)
Example get_table_schema_two_columns :
  fst (@get_table_schema schema_bridge "fluss" "orders"
         (start_env schema_bridge connected_conn tt))
  = Ok (Some (mkSchemaInfo [mkColumn (PStr "id") "INT" true;
                            mkColumn (PStr "id") "INT" true]
                [] "fluss.orders")).
Proof. reflexivity. Qed.

(** ** Projection on the read builder *)

Lemma keeps_names_of `{Bridge} {B : Type} (f : ReadBuilderImpl.ReadBuilder -> B)
      (fields : list PyVal) :
  keeps f (ReadBuilderImpl.names_of fields).
Proof.
  induction fields as [|x rest IH]; cbn [ReadBuilderImpl.names_of];
    repeat first [exact IH | keeps_step].
Qed.

Lemma keeps_fill_projection `{Bridge} {B : Type}
      (f : ReadBuilderImpl.ReadBuilder -> B) (arr : PyVal) (i : Z)
      (indexes : list Z) :
  keeps f (ReadBuilderImpl.fill_projection arr i indexes).
Proof.
  revert i. induction indexes as [|x rest IH]; intros i;
    cbn [ReadBuilderImpl.fill_projection];
    repeat first [apply IH | keeps_step].
Qed.

Lemma keeps_projection_steps `{Bridge} `{Unicode} {B : Type}
      (f : ReadBuilderImpl.ReadBuilder -> B) (projection : list string) :
  keeps f (bind ReadBuilderImpl.field_names
             (fun names => ReadBuilderImpl.project names projection)).
Proof.
  unfold ReadBuilderImpl.field_names, ReadBuilderImpl.project, get_gateway.
  repeat first [apply keeps_names_of | apply keeps_fill_projection | keeps_step].
Qed.

(** X24: [with_projection] records the projection on the builder before it
    checks it: whether the call returns or raises, [_projection] holds the
    list given.  When a name of the list is no field of the row type, the
    call raises the [ValueError] of the lookup right after the field names
    have been read: no array is made and the remote [withProjection] is not
    called. *)
Theorem with_projection_records_first `{Bridge} `{Unicode}
        (projection : list string) (env : Env ReadBuilderImpl.ReadBuilder) :
  let recorded :=
    mkEnv (ReadBuilderImpl.mkReadBuilder
             (ReadBuilderImpl._j_read_builder (self env))
             (ReadBuilderImpl._j_row_type (self env)) (Some projection))
          (world env) (trace env) in
  ReadBuilderImpl._projection
    (self (snd (ReadBuilderImpl.with_projection projection env)))
  = Some projection /\
  forall names env1 e,
    ReadBuilderImpl.field_names recorded = (Ok names, env1) ->
    ReadBuilderImpl.int_projection names projection = Raise e ->
    ReadBuilderImpl.with_projection projection env = (Raise e, env1).
Proof.
  intros recorded.
  assert (Hstep : ReadBuilderImpl.with_projection projection env
                  = bind ReadBuilderImpl.field_names
                      (fun names => ReadBuilderImpl.project names projection)
                      recorded) by reflexivity.
  rewrite Hstep. split.
  - now rewrite (keeps_projection_steps ReadBuilderImpl._projection projection recorded).
  - intros names env1 e Hnames Hlookup. unfold bind at 1. rewrite Hnames.
    unfold ReadBuilderImpl.project, bind at 1, lift. now rewrite Hlookup.
Qed.

(** ** Writers and readers: the closed flag *)

Lemma keeps_fill_row `{Bridge} {B : Type} (f : Writer.FlussDataWriter -> B)
      (gateway java_row : PyVal) (i : Z) (values : list PyVal) :
  keeps f (Writer.fill_row gateway java_row i values).
Proof.
  revert i. induction values as [|v rest IH]; intros i; cbn [Writer.fill_row].
  - apply keeps_ret.
  - unfold Writer.box. repeat first [apply IH | keeps_step].
Qed.

Lemma keeps_to_java_row `{Bridge} {B : Type} (f : Writer.FlussDataWriter -> B)
      (data : Writer.Row) :
  keeps f (Writer.to_java_row data).
Proof.
  unfold Writer.to_java_row. cbv zeta.
  repeat first [apply keeps_fill_row | keeps_step].
Qed.

Lemma keeps_add_rows `{Bridge} {B : Type} (f : Writer.FlussDataWriter -> B)
      (java_data_list : PyVal) (data_list : list Writer.Row) :
  keeps f (Writer.add_rows java_data_list data_list).
Proof.
  induction data_list as [|row rest IH]; cbn [Writer.add_rows];
    repeat first [exact IH | apply keeps_to_java_row | keeps_step].
Qed.

Lemma keeps_writer_data_op `{Bridge} (op : Writer.Op) :
  Writer.is_data_op op = true -> keeps (fun w => w) (Writer.run_op op).
Proof.
  destruct op; try discriminate; intros _; cbn [Writer.run_op];
    unfold Writer.write_row, Writer.write_rows, Writer.flush,
      Writer._check_not_closed;
    repeat first [apply keeps_to_java_row | apply keeps_add_rows | keeps_step].
Qed.

Lemma keeps_convert_rows `{Bridge} {B : Type} (f : Reader.FlussDataReader -> B)
      (batch : list PyVal) :
  keeps f (Reader.convert_rows batch).
Proof.
  induction batch as [|row rest IH]; cbn [Reader.convert_rows];
    unfold Reader._convert_java_result;
    repeat first [exact IH | keeps_step].
Qed.

Lemma keeps_read_row `{Bridge} {B : Type} (f : Reader.FlussDataReader -> B) :
  keeps f Reader.read_row.
Proof.
  unfold Reader.read_row, Reader._check_not_closed, Reader._convert_java_result.
  repeat keeps_step.
Qed.

Lemma keeps_read_all_loop `{Bridge} {B : Type} (f : Reader.FlussDataReader -> B)
      (fuel : nat) (rows : list Reader.Row) :
  keeps f (Reader.read_all_loop fuel rows).
Proof.
  revert rows. induction fuel as [|fuel IH]; intros rows;
    cbn [Reader.read_all_loop]; [apply keeps_ret|].
  apply keeps_bind; [apply keeps_read_row|].
  intros [row|]; [apply IH | apply keeps_ret].
Qed.

Lemma keeps_reader_data_op `{Bridge} (op : Reader.Op) :
  Reader.is_data_op op = true -> keeps (fun r => r) (Reader.run_op op).
Proof.
  destruct op; try discriminate; intros _; cbn [Reader.run_op];
    unfold Reader.read_rows, Reader.read_all, Reader._check_not_closed;
    repeat first [ apply keeps_read_row | apply keeps_read_all_loop
                 | apply keeps_convert_rows | keeps_step ].
Qed.

Lemma writer_close_op `{Bridge} (op : Writer.Op) (env : Env Writer.FlussDataWriter) :
  Writer.is_data_op op = false ->
  Writer._is_closed (self (snd (Writer.run_op op env))) = true.
Proof.
  destruct op; try discriminate; intros _;
    cbn [Writer.run_op]; unfold Writer.__exit__, Writer.close, bind, get_self;
    destruct (Writer._is_closed (self env)) eqn:Hflag; cbn; try exact Hflag;
    reflexivity.
Qed.

Lemma reader_close_op `{Bridge} (op : Reader.Op) (env : Env Reader.FlussDataReader) :
  Reader.is_data_op op = false ->
  Reader._is_closed (self (snd (Reader.run_op op env))) = true.
Proof.
  destruct op; try discriminate; intros _;
    cbn [Reader.run_op]; unfold Reader.__exit__, Reader.close, bind, get_self;
    destruct (Reader._is_closed (self env)) eqn:Hflag; cbn; try exact Hflag;
    reflexivity.
Qed.

(** X25: through any sequence of operations, a writer or a reader is closed
    at the end exactly when it was closed at the start or the sequence has a
    [close()] (or the exit of a [with] block) in it: reading, writing and
    flushing, failed or not, leave the handle open, and a closed handle
    never opens again. *)
Theorem closed_only_by_close `{Bridge} :
  (forall (ops : list Writer.Op) (env : Env Writer.FlussDataWriter),
      Writer._is_closed (self (snd (Writer.run_ops ops env)))
      = Writer._is_closed (self env)
        || existsb (fun op => negb (Writer.is_data_op op)) ops) /\
  (forall (ops : list Reader.Op) (env : Env Reader.FlussDataReader),
      Reader._is_closed (self (snd (Reader.run_ops ops env)))
      = Reader._is_closed (self env)
        || existsb (fun op => negb (Reader.is_data_op op)) ops).
Proof.
  split.
  - induction ops as [|op rest IH]; intros env; cbn [Writer.run_ops existsb].
    + now rewrite orb_false_r.
    + pose proof (keeps_writer_data_op op) as Hdata.
      pose proof (writer_close_op op env) as Hclose.
      specialize (IH (snd (Writer.run_op op env))).
      destruct (Writer.run_ops rest (snd (Writer.run_op op env)))
        as [rs env2] eqn:Hrest.
      destruct (Writer.run_op op env) as [r env1] eqn:Hrun.
      cbn [snd] in *. rewrite Hrest. cbn [snd]. rewrite IH.
      destruct (Writer.is_data_op op); cbn [negb orb].
      * specialize (Hdata eq_refl env). rewrite Hrun in Hdata.
        cbn [snd] in Hdata. now rewrite Hdata.
      * rewrite (Hclose eq_refl). now rewrite orb_true_r.
  - induction ops as [|op rest IH]; intros env; cbn [Reader.run_ops existsb].
    + now rewrite orb_false_r.
    + pose proof (keeps_reader_data_op op) as Hdata.
      pose proof (reader_close_op op env) as Hclose.
      specialize (IH (snd (Reader.run_op op env))).
      destruct (Reader.run_ops rest (snd (Reader.run_op op env)))
        as [rs env2] eqn:Hrest.
      destruct (Reader.run_op op env) as [r env1] eqn:Hrun.
      cbn [snd] in *. rewrite Hrest. cbn [snd]. rewrite IH.
      destruct (Reader.is_data_op op); cbn [negb orb].
      * specialize (Hdata eq_refl env). rewrite Hrun in Hdata.
        cbn [snd] in Hdata. now rewrite Hdata.
      * rewrite (Hclose eq_refl). now rewrite orb_true_r.
Qed.

Lemma writer_check_open `{Bridge} (env : Env Writer.FlussDataWriter) :
  Writer._is_closed (self env) = false ->
  Writer._check_not_closed env = (Ok tt, env).
Proof.
  intros Hopen. unfold Writer._check_not_closed, bind, get_self. now rewrite Hopen.
Qed.

Lemma reader_check_open `{Bridge} (env : Env Reader.FlussDataReader) :
  Reader._is_closed (self env) = false ->
  Reader._check_not_closed env = (Ok tt, env).
Proof.
  intros Hopen. unfold Reader._check_not_closed, bind, get_self. now rewrite Hopen.
Qed.

(** a checked method whose handler logs the exception and returns [a0]:
    when the text of the exception can be fetched, the method returns what
    its body returns, and [a0] when the body raises *)
Lemma checked_swallow `{Bridge} {Self A : Type} (check : M Self unit)
      (m : M Self A) (a0 : A) (env : Env Self) :
  texts_available ->
  check env = (Ok tt, env) ->
  exists env',
    bind check (fun _ => try_except m (fun e => exc_str e ;; ret a0)) env
    = (Ok (match fst (m env) with Ok a => a | Raise _ => a0 end), env').
Proof.
  intros Htexts Hcheck. rewrite bind_run, Hcheck, try_except_run.
  destruct (m env) as [[a|e] env1]; cbn [fst]; [now eexists|].
  rewrite bind_run.
  destruct (exc_str_answers Htexts e env1) as (text & env2 & ->).
  now eexists.
Qed.

(** rewriting with [checked_swallow] in the goal *)
Ltac swallow Htexts Hcheck :=
  match goal with
  | |- context [bind ?c (fun _ => try_except ?m
                                    (fun e => bind (exc_str e) (fun _ => ret ?a0)))
                     ?env] =>
      let env' := fresh "env'" in
      destruct (checked_swallow c m a0 env Htexts Hcheck) as [env' ->]
  end.

Lemma read_row_returns `{Bridge} (env : Env Reader.FlussDataReader) :
  texts_available ->
  Reader._is_closed (self env) = false ->
  exists row, fst (Reader.read_row env) = Ok row.
Proof.
  intros Htexts Hopen. unfold Reader.read_row.
  swallow Htexts (reader_check_open env Hopen).
  now eexists.
Qed.

Lemma read_all_loop_returns `{Bridge} (fuel : nat) (rows : list Reader.Row)
      (env : Env Reader.FlussDataReader) :
  texts_available ->
  Reader._is_closed (self env) = false ->
  fst (Reader.read_all_loop fuel rows env) = Ok Reader.RUnfinished \/
  exists all_rows, fst (Reader.read_all_loop fuel rows env)
                   = Ok (Reader.RRows all_rows).
Proof.
  intros Htexts. revert rows env.
  induction fuel as [|fuel IH]; intros rows env Hopen;
    cbn [Reader.read_all_loop]; [now left|].
  rewrite bind_run. destruct (read_row_returns env Htexts Hopen) as [row Hrow].
  pose proof (keeps_read_row Reader._is_closed env) as Hkeep.
  destruct (Reader.read_row env) as [r env1]. cbn [fst snd] in *. subst r.
  destruct row as [row|]; [|right; now eexists].
  apply IH. now rewrite Hkeep.
Qed.

(** X26: on an open writer or reader the operations that move data never
    raise, when the text of a remote exception can be fetched: through any
    sequence of them, [write_row] answers a truth value, [write_rows] a
    value (the count of the remote side, or 0), [flush] nothing,
    [read_row] a row or [None], [read_rows] a list of rows, and
    [read_all] a list of rows unless its loop is still running when the
    bound on its rounds is reached.  Failures of the remote side come back
    as values ([False], 0, [None], the empty list). *)
Theorem open_handles_never_raise `{Bridge} :
  texts_available ->
  (forall (ops : list Writer.Op) (env : Env Writer.FlussDataWriter),
      Writer._is_closed (self env) = false ->
      Forall (fun op => Writer.is_data_op op = true) ops ->
      Forall2 writer_answer ops (fst (Writer.run_ops ops env))) /\
  (forall (ops : list Reader.Op) (env : Env Reader.FlussDataReader),
      Reader._is_closed (self env) = false ->
      Forall (fun op => Reader.is_data_op op = true) ops ->
      Forall2 reader_answer ops (fst (Reader.run_ops ops env))).
Proof.
  intros Htexts. split.
  - intros ops env Hopen Hall. revert env Hopen.
    induction Hall as [|op rest Hop _ IH]; intros env Hopen;
      cbn [Writer.run_ops]; [constructor|].
    pose proof (keeps_writer_data_op op Hop env) as Hkeep.
    assert (Hok : writer_answer op (fst (Writer.run_op op env))).
    { destruct op; try discriminate Hop; cbn [Writer.run_op writer_answer].
      - unfold Writer.write_row. rewrite bind_run.
        swallow Htexts (writer_check_open env Hopen).
        now eexists.
      - unfold Writer.write_rows.
        swallow Htexts (writer_check_open env Hopen).
        now eexists.
      - unfold Writer.flush. rewrite bind_run.
        now rewrite (writer_check_open env Hopen). }
    specialize (IH (snd (Writer.run_op op env))).
    destruct (Writer.run_op op env) as [r env1]. cbn [fst snd] in *.
    destruct (Writer.run_ops rest env1) as [rs env2]. cbn [fst] in *.
    constructor; [exact Hok | apply IH; now rewrite Hkeep].
  - intros ops env Hopen Hall. revert env Hopen.
    induction Hall as [|op rest Hop _ IH]; intros env Hopen;
      cbn [Reader.run_ops]; [constructor|].
    pose proof (keeps_reader_data_op op Hop env) as Hkeep.
    assert (Hok : reader_answer op (fst (Reader.run_op op env))).
    { destruct op; try discriminate Hop; cbn [Reader.run_op reader_answer].
      - rewrite bind_run.
        destruct (read_row_returns env Htexts Hopen) as [row Hrow].
        destruct (Reader.read_row env) as [r env1]. cbn [fst] in Hrow. subst r.
        destruct row as [row|]; [right; now eexists | now left].
      - unfold Reader.read_rows. rewrite bind_run.
        swallow Htexts (reader_check_open env Hopen).
        now eexists.
      - unfold Reader.read_all. rewrite bind_run.
        rewrite (reader_check_open env Hopen).
        apply read_all_loop_returns; assumption. }
    specialize (IH (snd (Reader.run_op op env))).
    destruct (Reader.run_op op env) as [r env1]. cbn [fst snd] in *.
    destruct (Reader.run_ops rest env1) as [rs env2]. cbn [fst] in *.
    constructor; [exact Hok | apply IH; now rewrite Hkeep].
Qed.

Lemma open_handles_never_raise_witness :
  Forall2 writer_answer
    [Writer.OpWriteRow [("id", PInt 1)]; Writer.OpWriteRows []; Writer.OpFlush]
    (fst (@Writer.run_ops failing_bridge
            [Writer.OpWriteRow [("id", PInt 1)]; Writer.OpWriteRows [];
             Writer.OpFlush]
            (start_env failing_bridge open_writer_handle O))) /\
  fst (@Writer.run_ops failing_bridge
         [Writer.OpWriteRow [("id", PInt 1)]; Writer.OpWriteRows [];
          Writer.OpFlush]
         (start_env failing_bridge open_writer_handle O))
  = [Ok (PBool false); Ok (PInt 0); Ok PNone].
Proof.
  split; [|reflexivity].
  destruct (open_handles_never_raise (H := failing_bridge) failing_bridge_texts)
    as [Hwriter _].
  apply Hwriter; [reflexivity | repeat constructor].
Defined.

(** Without the text of the remote exception, a write on an open writer
    raises. *)
Example write_row_raises_network_error :
  fst (@Writer.write_row lost_bridge [("id", PInt 1)]
         (start_env lost_bridge open_writer_handle O))
  = Raise (mkExc Py4JNetworkError "Error while sending or receiving").
Proof. reflexivity. Qed.

(** The count that the remote side reports goes into a log line: when its
    string form cannot be had, [write_rows] answers 0 although the rows
    were written. *)
Example write_rows_count_lost :
  fst (@Writer.write_rows count_bridge []
         (start_env count_bridge open_writer_handle tt))
  = Ok (PInt 0).
Proof. reflexivity. Qed.

(** ** Reads that fail, reads that never end *)

Lemma failing_read `{Bridge} {Self : Type} (target : PyVal) (args : list PyVal)
      (env : Env Self) :
  reads_fail ->
  exists e, fst (method_call target "readBatchData" args env) = Raise e.
Proof.
  intros Hfail. destruct target; cbn [method_call]; try (now eexists).
  rewrite call_answer. cbn [fst]. now apply Hfail.
Qed.

Lemma read_rows_empty_when_failing `{Bridge} (limit : Z)
      (env : Env Reader.FlussDataReader) :
  texts_available ->
  reads_fail -> Reader._is_closed (self env) = false ->
  fst (Reader.read_rows limit env) = Ok [].
Proof.
  intros Htexts Hfail Hopen. unfold Reader.read_rows.
  swallow Htexts (reader_check_open env Hopen).
  cbn [fst]. rewrite bind_run. unfold get_self. cbv beta iota.
  rewrite bind_run.
  destruct (failing_read (Reader._java_reader (self env)) [PInt limit] env Hfail)
    as [e He].
  destruct (method_call (Reader._java_reader (self env)) "readBatchData"
              [PInt limit] env) as [r env1].
  cbn [fst] in He. now subst r.
Qed.

Lemma read_row_none_when_failing `{Bridge} (env : Env Reader.FlussDataReader) :
  texts_available ->
  reads_fail -> Reader._is_closed (self env) = false ->
  fst (Reader.read_row env) = Ok None.
Proof.
  intros Htexts Hfail Hopen. unfold Reader.read_row.
  swallow Htexts (reader_check_open env Hopen).
  cbn [fst]. rewrite bind_run. unfold get_self. cbv beta iota.
  rewrite bind_run.
  destruct (failing_read (Reader._java_reader (self env)) [PInt 1] env Hfail)
    as [e He].
  destruct (method_call (Reader._java_reader (self env)) "readBatchData"
              [PInt 1] env) as [r env1].
  cbn [fst] in He. now subst r.
Qed.

(** X27: a reader cannot tell a failing read from the end of the data.
    When every remote read raises, and the text of its exception can be
    fetched for the log, an open reader reports no row, an empty list of
    rows, an empty [read_all], an empty list of records and a count of
    zero, where a table with no data gives the same answers. *)
Theorem failed_reads_look_empty `{Bridge} (env : Env Reader.FlussDataReader) :
  texts_available ->
  reads_fail ->
  Reader._is_closed (self env) = false ->
  fst (Reader.read_row env) = Ok None /\
  (forall limit, fst (Reader.read_rows limit env) = Ok []) /\
  (forall fuel, fst (Reader.read_all (S fuel) env) = Ok (Reader.RRows [])) /\
  (forall limit, fst (TableReadImpl.read_records limit env) = Ok []) /\
  (forall fuel, fst (TableReadImpl.count (S fuel) env) = Ok (Some O)).
Proof.
  intros Htexts Hfail Hopen.
  pose proof (read_row_none_when_failing env Htexts Hfail Hopen) as Hrow.
  pose proof (fun limit =>
                read_rows_empty_when_failing limit env Htexts Hfail Hopen)
    as Hrows.
  split; [exact Hrow|]. split; [exact Hrows|]. split; [|split].
  - intros fuel. unfold Reader.read_all. rewrite bind_run.
    rewrite (reader_check_open env Hopen). cbn [Reader.read_all_loop].
    rewrite bind_run. destruct (Reader.read_row env) as [r env1].
    cbn [fst] in Hrow. now subst r.
  - intros limit. apply Hrows.
  - intros fuel. unfold TableReadImpl.count. cbn [TableReadImpl.read_batch].
    rewrite !bind_run. specialize (Hrows 1000).
    destruct (Reader.read_rows 1000 env) as [r env1].
    cbn [fst] in Hrows. now subst r.
Qed.

Lemma failing_bridge_reads_fail : @reads_fail failing_bridge.
Proof. intros c w Hc. cbn [remote failing_bridge]. rewrite Hc. now eexists. Defined.

Lemma failed_reads_look_empty_witness :
  fst (@Reader.read_all failing_bridge 1
         (start_env failing_bridge open_reader_handle O))
  = Ok (Reader.RRows []).
Proof.
  destruct (failed_reads_look_empty (H := failing_bridge)
              (start_env failing_bridge open_reader_handle O)
              failing_bridge_texts failing_bridge_reads_fail eq_refl)
    as (_ & _ & Hall & _).
  exact (Hall O).
Defined.

Lemma read_all_loop_unfinished `{Bridge} (r0 : Reader.FlussDataReader) :
  (forall env, self env = r0 ->
               exists row, fst (Reader.read_row env) = Ok (Some row)) ->
  forall fuel rows env,
    self env = r0 ->
    fst (Reader.read_all_loop fuel rows env) = Ok Reader.RUnfinished.
Proof.
  intros Hrow. induction fuel as [|fuel IH]; intros rows env Hself;
    cbn [Reader.read_all_loop]; [reflexivity|].
  unfold bind. destruct (Hrow env Hself) as [row Hr].
  pose proof (keeps_read_row (fun r => r) env) as Hkeep.
  destruct (Reader.read_row env) as [x env1]. cbn [fst snd] in *. subst x.
  apply IH. now rewrite Hkeep.
Qed.

(** X28: [read_all] ends only when a read comes back without a row.  On an
    open reader for which every read yields a row, the loop is still
    running after any number of rounds. *)
Theorem read_all_needs_an_empty_read `{Bridge} (r0 : Reader.FlussDataReader) :
  Reader._is_closed r0 = false ->
  (forall env, self env = r0 ->
               exists row, fst (Reader.read_row env) = Ok (Some row)) ->
  forall fuel env,
    self env = r0 ->
    fst (Reader.read_all fuel env) = Ok Reader.RUnfinished.
Proof.
  intros Hopen Hrow fuel env Hself. unfold Reader.read_all, bind.
  rewrite reader_check_open by now rewrite Hself.
  now apply (read_all_loop_unfinished r0).
Qed.

Lemma read_all_needs_an_empty_read_witness :
  fst (@Reader.read_all endless_bridge 5
         (start_env endless_bridge open_reader_handle tt))
  = Ok Reader.RUnfinished.
Proof.
  apply (read_all_needs_an_empty_read (H := endless_bridge) open_reader_handle);
    [reflexivity | | reflexivity].
  intros [s w t] Hself. cbn [self] in Hself. subst s.
  exists (Reader.RowRaw "row"). reflexivity.
Defined.

(** ** The schema inferred from a remote row type *)

(** X29: when the loop of [to_arrow_schema] over the field names succeeds,
    the schema has the field names in their order, there were at least as
    many types as names (types beyond the names are ignored, a missing type
    fails), and no field has the 64-bit integer type. *)
Theorem arrow_fields_shape `{Bridge} (field_names field_types : list PyVal)
        (env env' : Env unit) (fields : list (string * ArrowType)) :
  TableRead.arrow_fields field_names field_types env = (Ok fields, env') ->
  map (fun f => PStr (fst f)) fields = field_names /\
  (length field_names <= length field_types)%nat /\
  Forall (fun f => snd f <> pa_int64) fields.
Proof.
  revert field_types env env' fields.
  induction field_names as [|n ns IH]; intros field_types env env' fields;
    cbn [TableRead.arrow_fields].
  - intros [= <- _]. repeat split; [cbn [length]; lia | constructor].
  - destruct field_types as [|t ts]; [discriminate|].
    intros Hrun. apply bind_ok_inv in Hrun as (type_str & env1 & _ & Hrun).
    cbv zeta in Hrun. destruct n; try discriminate Hrun.
    apply bind_ok_inv in Hrun as (rest & env2 & Hrest & Hrun).
    injection Hrun as <- _.
    destruct (IH _ _ _ _ Hrest) as (Hnames & Hlen & Hall).
    repeat split.
    + cbn [map fst]. now rewrite Hnames.
    + cbn [length]. lia.
    + constructor; [apply java_type_never_int64 | exact Hall].
Qed.

Lemma arrow_fields_shape_witness :
  map (fun f => PStr (fst f)) [("id", pa_int32)] = [PStr "id"] /\
  (length [PStr "id"] <= length [PStr "BIGINT"; PStr "STRING"])%nat /\
  Forall (fun f => snd f <> pa_int64) [("id", pa_int32)].
Proof.
  apply (arrow_fields_shape (H := answering_bridge)
           [PStr "id"] [PStr "BIGINT"; PStr "STRING"]
           (start_env answering_bridge tt tt) (start_env answering_bridge tt tt)).
  reflexivity.
Defined.

(** ** Listing databases and tables *)







Section Listing.
Context `{Bridge}.
Variable fetch : M FlussConnection PyVal.
Variable env : Env FlussConnection.
Hypothesis texts : texts_available.
Hypothesis connected : is_connected (self env) = true.





End Listing.




(** A remote call that gave a string: no iterator, and the direct
    iteration yields its characters. *)
Example collection_of_a_string :
  fst (@collection_to_list answering_bridge FlussConnection 4 (PStr "db")
         (start_env answering_bridge connected_conn tt))
  = Ok (Some ["d"; "b"]).
Proof. reflexivity. Qed.

(** On the bridge whose calls all raise, the remote call fails after its
    three attempts and the listing is empty. *)
Example listing_of_failing_bridge :
  fst (@list_tables failing_bridge 8 "tmp_db"
         (start_env failing_bridge connected_conn 0%nat))
  = Ok (Some []).
Proof. reflexivity. Qed.
